(** * HealFlow: the rule-check engine and the healer, embedded and verified

    A shallow embedding of [app/engine/causal_log.py],
    [app/engine/validator.py] and [app/engine/healer.py], and of the
    validate, heal, re-validate pass of [run_upload] in [app/main.py].

    - A Python float is an IEEE 754 binary64 number, Rocq's primitive [float]
      with its rounding, infinities and NaN; a Python int is an integer. A
      number that may be either (the [observed] and [threshold] of a
      failure) is a [num].  The cells of a data frame are only compared
      with each other: a float cell holds the value of its double, a
      rational.
    - A Python dict with a fixed key vocabulary (the YAML configuration, a
      diagnosis, a suggested action) is a record of optional fields: [None]
      is "key absent", so [d.get(k, default)] is [get (k d) default].
      Sections of the configuration that are present are mappings.
    - A data frame is its row count and its columns (label and cells, labels
      unique, as [read_csv] and [read_json] produce them).
    - The log file is the list of the events appended so far; the sink is
      writable, so an append fails only when [json.dumps] rejects the
      payload.
    - The configuration is a mutable object that the healer updates in
      place: configurations live in a store indexed by references, and the
      healer's functions take and return references.
    - Every function that logs or raises runs in the monad [M]: a state
      monad over the store and the causal log, with Python exceptions. *)

From Stdlib Require Import QArith Floats.
From stdpp Require Import gmap strings list.

Open Scope string_scope.
Open Scope list_scope.

(* A decimal literal denotes the nearest double, as in Python. *)
Set Warnings "-inexact-float".

(** ** Python numbers *)

Inductive num :=
| NInt (z : Z)
| NFloat (f : float).

(** The double nearest to an integer, ties to even (infinite beyond the
    range of the doubles). *)
Definition Z2F (z : Z) : float := SF2Prim (binary_normalize prec emax z 0 false).

(** [float(z)] of an int: [None] is OverflowError, raised when the int is
    too large for a double. *)
Definition float_of_int (z : Z) : option float :=
  let f := Z2F z in
  if is_infinity f then None else Some f.

(** [float(x)] *)
Definition float_of_num (x : num) : option float :=
  match x with
  | NInt z => float_of_int z
  | NFloat f => Some f
  end.

(** An int against a float: Python compares the exact values. *)
Definition Zcompare_float (z : Z) (f : float) : option comparison :=
  match Prim2SF f with
  | S754_nan => None
  | S754_infinity s => Some (if s then Gt else Lt)
  | S754_zero _ => Some (z ?= 0)%Z
  | S754_finite s m e =>
      let v := if s then Zneg m else Zpos m in
      Some (match e with
            | Zneg p => (z * 2 ^ Zpos p ?= v)%Z
            | _ => (z ?= v * 2 ^ e)%Z
            end)
  end.

(** [a < b] *)
Definition num_ltb (a b : num) : bool :=
  match a, b with
  | NInt x, NInt y => (x <? y)%Z
  | NFloat x, NFloat y => (x <? y)%float
  | NInt x, NFloat y =>
      match Zcompare_float x y with Some Lt => true | _ => false end
  | NFloat x, NInt y =>
      match Zcompare_float y x with Some Gt => true | _ => false end
  end.

(** Truthiness of a number: zero of either kind (and of either sign) is
    false, NaN is true. *)
Definition truthy_num (x : num) : bool :=
  match x with
  | NInt z => negb (z =? 0)%Z
  | NFloat f => negb (f =? 0)%float
  end.

(** ** Values of data-frame cells *)

Inductive value :=
| VNull                (* NaN / None / NaT *)
| VBool (b : bool)
| VInt (z : Z)
| VFloat (q : Q)
| VStr (s : string).

(** ** f-strings: the literal pieces and the interpolated values, unrendered *)

Inductive frag :=
| FStr (s : string)
| FInt (z : Z)
| FNum (x : num)
| FFixed (places : nat) (x : num)    (* {x:.4f} *)
| FVals (l : list value)
| FDate (d : Z).

Definition fstring := list frag.

(** ** The configuration document (a dict loaded from YAML) *)

Record dq_section := {
  k_max_null_fraction : option float;
  k_min_row_count : option Z;
  k_unique_keys : option (list string)
}.

Record schema_section := {
  k_required_columns : option (list string);
  k_column_types : option (list (string * string))
}.

Record freshness_section := {
  k_date_column : option string;
  k_max_days_delay : option Z
}.

Record config := {
  k_pipeline_name : option string;
  k_data_quality : option dq_section;
  k_schema : option schema_section;
  k_allowed_values : option (list (string * list string));
  k_freshness : option freshness_section
}.

(** The empty dict [{}] at each of these types. *)
Definition empty_dq : dq_section := Build_dq_section None None None.
Definition empty_schema : schema_section := Build_schema_section None None.
Definition empty_freshness : freshness_section := Build_freshness_section None None.

(** [d.get(k, default)] *)
Definition get {A} (o : option A) (default : A) : A :=
  match o with Some a => a | None => default end.

(** ** validator.py: DQConfig, the two exception classes *)

Record DQConfig := {
  max_null_fraction : float;
  min_row_count : Z;
  required_columns : list string;
  unique_keys : list string;
  column_types : list (string * string);
  allowed_values : list (string * list string);
  freshness_date_column : option string;
  freshness_max_days_delay : option Z
}.

Record DataQualityError := {
  message : fstring;
  kind : option string;
  column : option string;
  observed : option num;
  threshold : option num
}.

Inductive exn :=
| SchemaDriftError (missing_columns : list string)
| DataQualityErr (e : DataQualityError)
| PyError (name : string).        (* KeyError, TypeError, ValueError, OverflowError *)

(** ** healer.py: suggested actions and diagnoses (dicts) *)

Record action := {
  a_type : option string;
  a_description : option fstring;
  a_from : option string;
  a_to : option string;
  a_column : option string;
  a_new_threshold : option num
}.

Record diagnosis := {
  d_pipeline_name : option string;
  d_root_cause : option string;
  d_missing_columns : option (list string);
  d_column : option (option string);
  d_observed : option (option num);
  d_threshold : option (option num);
  d_suggested_actions : option (list action)
}.

(** ** causal_log.py: events *)

Inductive jval :=
| JInt (z : Z)
| JNum (x : num)
| JStr (s : string)
| JOptStr (s : option string)
| JMsg (m : fstring)
| JStrs (l : list string)
| JVals (l : list value).

Inductive details :=
| Fields (kv : list (string * jval))
| Diagnosis (d : diagnosis).

Record event := {
  timestamp : string;
  event_type : string;
  event_details : details
}.

(** ** The world: the store of configuration objects and the log file *)

Definition loc := nat.

Record world := World {
  heap : gmap loc config;
  log : list event
}.

Inductive result (A : Type) :=
| Ok (a : A)
| Raise (e : exn).
Arguments Ok {A} a.
Arguments Raise {A} e.

Definition M (A : Type) : Type := world -> result A * world.

#[global] Instance M_ret : MRet M := fun A a w => (Ok a, w).
#[global] Instance M_bind : MBind M := fun A B f m w =>
  match m w with
  | (Ok a, w') => f a w'
  | (Raise e, w') => (Raise e, w')
  end.

Definition raise {A} (e : exn) : M A := fun w => (Raise e, w).

(** [try: body except Exception: handler] *)
Definition try_except {A} (body : M A) (handler : exn -> M A) : M A := fun w =>
  match body w with
  | (Ok a, w') => (Ok a, w')
  | (Raise e, w') => handler e w'
  end.

(** Reading and updating the object behind a reference. *)
Definition load (c : loc) : M config := fun w =>
  match heap w !! c with
  | Some cfg => (Ok cfg, w)
  | None => (Raise (PyError "NameError"), w)
  end.

Definition store (c : loc) (cfg : config) : M unit := fun w =>
  (Ok tt, World (<[c := cfg]> (heap w)) (log w)).

(** ** What the environment supplies *)

Record Env := {
  today : Z;                          (* date.today(), as a day number *)
  utcnow : nat -> string;             (* the clock read at the n-th append *)
  str_is_numeric : string -> bool;    (* does pd.to_numeric accept the string *)
  parse_date : value -> option Z;     (* pd.to_datetime of one non-null cell *)
  json_serializable : value -> bool   (* does json.dumps accept the cell *)
}.

(** ** The pandas DataFrame, as far as the validator looks at it *)

Record DataFrame := {
  index_len : nat;                          (* len(df) *)
  columns : list (string * list value)      (* column label, cells; labels unique *)
}.

Definition len (df : DataFrame) : Z := Z.of_nat (index_len df).

(** [col in df.columns] *)
Definition has_column (df : DataFrame) (col : string) : bool :=
  existsb (String.eqb col) (map fst (columns df)).

(** [df[col]], where the caller has checked [col in df.columns] *)
Fixpoint lookup_column (cols : list (string * list value)) (col : string) : list value :=
  match cols with
  | [] => []
  | (c, s) :: rest => if String.eqb col c then s else lookup_column rest col
  end.

Definition getitem (df : DataFrame) (col : string) : list value :=
  lookup_column (columns df) col.

Definition isna (v : value) : bool :=
  match v with VNull => true | _ => false end.

(** [series.mean()] of a boolean series: the sum and the count, both as
    doubles, divided; NaN ([0/0]) for the empty series. *)
Definition mean (s : list bool) : float :=
  (Z2F (Z.of_nat (List.length (List.filter id s))) / Z2F (Z.of_nat (List.length s)))%float.

Definition Qlt_bool (a b : Q) : bool := negb (Qle_bool b a).

(** Python's [==] on cells: the numbers compare by value across bool, int and
    float; pandas treats missing cells as equal to each other. *)
Definition as_number (v : value) : option Q :=
  match v with
  | VBool b => Some (inject_Z (if b then 1 else 0))
  | VInt z => Some (inject_Z z)
  | VFloat q => Some q
  | _ => None
  end.

Definition value_eqb (a b : value) : bool :=
  match a, b with
  | VNull, VNull => true
  | VStr s, VStr t => String.eqb s t
  | _, _ =>
      match as_number a, as_number b with
      | Some x, Some y => Qeq_bool x y
      | _, _ => false
      end
  end.

(** [series.duplicated().sum()]: the cells equal to an earlier cell. *)
Fixpoint duplicated_sum (seen : list value) (s : list value) : Z :=
  match s with
  | [] => 0
  | v :: rest =>
      (if existsb (value_eqb v) seen then 1 else 0) + duplicated_sum (v :: seen) rest
  end.

(** [series.dropna().unique()] followed by [set(...) - set(allowed)]. *)
Fixpoint unique (seen : list value) (s : list value) : list value :=
  match s with
  | [] => []
  | v :: rest =>
      if existsb (value_eqb v) seen then unique seen rest
      else v :: unique (v :: seen) rest
  end.

Definition dropna (s : list value) : list value :=
  List.filter (fun v => negb (isna v)) s.

Definition set_minus (vals : list value) (allowed : list string) : list value :=
  List.filter (fun v => negb (existsb (value_eqb v) (map VStr allowed))) vals.

(** [sorted(...)]: numbers sort among numbers and strings among strings; a
    comparison between a number and a string raises TypeError. *)
Definition value_ltb (a b : value) : option bool :=
  match a, b with
  | VStr s, VStr t => Some (String.ltb s t)
  | _, _ =>
      match as_number a, as_number b with
      | Some x, Some y => Some (Qlt_bool x y)
      | _, _ => None
      end
  end.

Fixpoint insert_sorted (v : value) (l : list value) : option (list value) :=
  match l with
  | [] => Some [v]
  | x :: rest =>
      match value_ltb v x with
      | None => None
      | Some true => Some (v :: x :: rest)
      | Some false =>
          match insert_sorted v rest with
          | Some rest' => Some (x :: rest')
          | None => None
          end
      end
  end.

Fixpoint sorted (l : list value) : option (list value) :=
  match l with
  | [] => Some []
  | v :: rest =>
      match sorted rest with
      | Some rest' => insert_sorted v rest'
      | None => None
      end
  end.

(** [float(x)] where it can raise. *)
Definition to_float (x : num) : M float :=
  match float_of_num x with
  | Some f => mret f
  | None => raise (PyError "OverflowError")
  end.

(** Python truthiness of an optional string and of an optional int. *)
Definition truthy_str (s : option string) : bool :=
  match s with Some (String _ _) => true | _ => false end.

Definition truthy_int (z : option Z) : bool :=
  match z with Some z => negb (Z.eqb z 0) | None => false end.

(** [x is not None] *)
Definition is_not_none {A} (x : option A) : bool :=
  match x with Some _ => true | None => false end.

Section Engine.

Variable E : Env.

(** ** causal_log.py *)

Definition json_ok (d : details) : bool :=
  match d with
  | Fields kv =>
      forallb (fun '(_, j) =>
        match j with JVals l => forallb (json_serializable E) l | _ => true end) kv
  | Diagnosis _ => true
  end.

(** One line is appended to the log file; [json.dumps] raises TypeError
    before anything is written when the payload is not serialisable. *)
Definition log_causal_event (event_type : string) (d : details) : M unit := fun w =>
  if json_ok d then
    let event := {| timestamp := utcnow E (List.length (log w));
                    event_type := event_type;
                    event_details := d |} in
    (Ok tt, World (heap w) (log w ++ [event]))
  else (Raise (PyError "TypeError"), w).

(** ** validator.py *)

Definition build_dq_config (config : config) : DQConfig :=
  let dq := get (k_data_quality config) empty_dq in
  let schema := get (k_schema config) empty_schema in
  let freshness_cfg := get (k_freshness config) empty_freshness in
  {| max_null_fraction := get (k_max_null_fraction dq) 1%float;
     min_row_count := get (k_min_row_count dq) 0%Z;
     required_columns := get (k_required_columns schema) [];
     unique_keys := get (k_unique_keys dq) [];
     column_types := get (k_column_types schema) [];
     allowed_values := get (k_allowed_values config) [];
     freshness_date_column := k_date_column freshness_cfg;
     freshness_max_days_delay := k_max_days_delay freshness_cfg |}.

Definition _check_row_count (df : DataFrame) (cfg : DQConfig) (pipeline_name : string)
  : M unit :=
  if (len df <? min_row_count cfg)%Z then
    let msg := [FStr "Row count "; FInt (len df);
                FStr " < min_row_count "; FInt (min_row_count cfg)] in
    log_causal_event "dq_failure"
      (Fields [("pipeline_name", JStr pipeline_name);
               ("reason", JStr "row_count");
               ("message", JMsg msg)]) ;;
    raise (DataQualityErr
      {| message := msg; kind := Some "row_count"; column := None;
         observed := Some (NInt (len df));
         threshold := Some (NInt (min_row_count cfg)) |})
  else mret tt.

Definition _check_null_fraction (df : DataFrame) (cfg : DQConfig) (pipeline_name : string)
  : M unit :=
  let col := "sales_amount" in
  if has_column df col then
    let null_frac := mean (map isna (getitem df col)) in
    if (max_null_fraction cfg <? null_frac)%float then
      let msg := [FStr "Null fraction in '"; FStr col; FStr "' ";
                  FFixed 4 (NFloat null_frac); FStr " > max_null_fraction ";
                  FNum (NFloat (max_null_fraction cfg))] in
      log_causal_event "dq_failure"
        (Fields [("pipeline_name", JStr pipeline_name);
                 ("reason", JStr "null_fraction");
                 ("column", JStr col);
                 ("observed", JNum (NFloat null_frac));
                 ("threshold", JNum (NFloat (max_null_fraction cfg)));
                 ("message", JMsg msg)]) ;;
      raise (DataQualityErr
        {| message := msg; kind := Some "null_fraction"; column := Some col;
           observed := Some (NFloat null_frac);
           threshold := Some (NFloat (max_null_fraction cfg)) |})
    else mret tt
  else mret tt.

Definition _check_schema (df : DataFrame) (cfg : DQConfig) (pipeline_name : string)
  : M unit :=
  let missing := List.filter (fun c => negb (has_column df c)) (required_columns cfg) in
  match missing with
  | [] => mret tt
  | _ =>
      log_causal_event "schema_drift_detected"
        (Fields [("pipeline_name", JStr pipeline_name);
                 ("missing_columns", JStrs missing)]) ;;
      raise (SchemaDriftError missing)
  end.

(** [for col in cfg.unique_keys: ...] *)
Fixpoint _check_uniqueness_loop (df : DataFrame) (keys : list string)
  (pipeline_name : string) : M unit :=
  match keys with
  | [] => mret tt
  | col :: rest =>
      if has_column df col then
        let dup_count := duplicated_sum [] (getitem df col) in
        if (0 <? dup_count)%Z then
          let msg := [FStr "Uniqueness violation in '"; FStr col; FStr "': ";
                      FInt dup_count; FStr " duplicates"] in
          log_causal_event "dq_failure"
            (Fields [("pipeline_name", JStr pipeline_name);
                     ("reason", JStr "uniqueness");
                     ("column", JStr col);
                     ("duplicates", JInt dup_count);
                     ("message", JMsg msg)]) ;;
          raise (DataQualityErr
            {| message := msg; kind := Some "uniqueness"; column := Some col;
               observed := None; threshold := None |})
        else _check_uniqueness_loop df rest pipeline_name
      else _check_uniqueness_loop df rest pipeline_name
  end.

Definition _check_uniqueness (df : DataFrame) (cfg : DQConfig) (pipeline_name : string)
  : M unit :=
  _check_uniqueness_loop df (unique_keys cfg) pipeline_name.

(** [pd.to_numeric(series, errors="raise")]: raises on a string that is not
    a number; the result is discarded. *)
Definition to_numeric (series : list value) : M unit :=
  if forallb (fun v => match v with VStr s => str_is_numeric E s | _ => true end) series
  then mret tt
  else raise (PyError "ValueError").

(** The body of the [try] in [_check_column_types]. *)
Definition coerce (series : list value) (expected_type : string) : M unit :=
  if String.eqb expected_type "float" then to_numeric series
  else if String.eqb expected_type "int" then to_numeric series   (* downcast="integer" *)
  else if String.eqb expected_type "str" then mret tt    (* series.astype(str) *)
  else mret tt.

Fixpoint _check_column_types_loop (df : DataFrame) (items : list (string * string))
  (pipeline_name : string) : M unit :=
  match items with
  | [] => mret tt
  | (col, expected_type) :: rest =>
      if negb (has_column df col) then _check_column_types_loop df rest pipeline_name
      else
        let series := getitem df col in
        try_except (coerce series expected_type) (fun _ =>
          let msg := [FStr "Type check failed for '"; FStr col;
                      FStr "' (expected "; FStr expected_type; FStr ")"] in
          log_causal_event "dq_failure"
            (Fields [("pipeline_name", JStr pipeline_name);
                     ("reason", JStr "type_mismatch");
                     ("column", JStr col);
                     ("expected_type", JStr expected_type);
                     ("message", JMsg msg)]) ;;
          raise (DataQualityErr
            {| message := msg; kind := Some "type_mismatch"; column := Some col;
               observed := None; threshold := None |})) ;;
        _check_column_types_loop df rest pipeline_name
  end.

Definition _check_column_types (df : DataFrame) (cfg : DQConfig) (pipeline_name : string)
  : M unit :=
  _check_column_types_loop df (column_types cfg) pipeline_name.

Fixpoint _check_allowed_values_loop (df : DataFrame)
  (items : list (string * list string)) (pipeline_name : string) : M unit :=
  match items with
  | [] => mret tt
  | (col, allowed) :: rest =>
      if negb (has_column df col) then _check_allowed_values_loop df rest pipeline_name
      else
        match sorted (set_minus (unique [] (dropna (getitem df col))) allowed) with
        | None => raise (PyError "TypeError")
        | Some [] => _check_allowed_values_loop df rest pipeline_name
        | Some bad_values =>
            let msg := [FStr "Column '"; FStr col;
                        FStr "' has unexpected values: "; FVals bad_values] in
            log_causal_event "dq_failure"
              (Fields [("pipeline_name", JStr pipeline_name);
                       ("reason", JStr "allowed_values");
                       ("column", JStr col);
                       ("unexpected_values", JVals bad_values);
                       ("allowed", JStrs allowed);
                       ("message", JMsg msg)]) ;;
            raise (DataQualityErr
              {| message := msg; kind := Some "allowed_values"; column := Some col;
                 observed := None; threshold := None |})
        end
  end.

Definition _check_allowed_values (df : DataFrame) (cfg : DQConfig) (pipeline_name : string)
  : M unit :=
  _check_allowed_values_loop df (allowed_values cfg) pipeline_name.

(** [pd.to_datetime(series)]: a missing cell becomes NaT ([None]); a cell that
    does not parse raises. *)
Fixpoint to_datetime (series : list value) : M (list (option Z)) :=
  match series with
  | [] => mret []
  | v :: rest =>
      d ← (if isna v then mret None
           else match parse_date E v with
                | Some d => mret (Some d)
                | None => raise (PyError "ValueError")
                end) ;
      ds ← to_datetime rest ;
      mret (d :: ds)
  end.

(** [dt_series.max()]: NaT is skipped; NaT ([None]) when nothing is left. *)
Fixpoint series_max (ds : list (option Z)) : option Z :=
  match ds with
  | [] => None
  | None :: rest => series_max rest
  | Some d :: rest =>
      match series_max rest with
      | Some m => Some (Z.max d m)
      | None => Some d
      end
  end.

Definition _check_freshness (df : DataFrame) (cfg : DQConfig) (pipeline_name : string)
  : M unit :=
  if negb (truthy_str (freshness_date_column cfg))
     || negb (truthy_int (freshness_max_days_delay cfg))
  then mret tt
  else
    let col := get (freshness_date_column cfg) "" in
    let max_days := get (freshness_max_days_delay cfg) 0%Z in
    if negb (has_column df col) then mret tt
    else
      try_except
        (dt_series ← to_datetime (getitem df col) ;
         max_date ← (match series_max dt_series with
                     | Some d => mret d
                     | None => raise (PyError "TypeError")   (* today - NaT *)
                     end) ;
         let delta_days := (today E - max_date)%Z in
         if (max_days <? delta_days)%Z then
           let msg := [FStr "Freshness violation: latest "; FStr col; FStr "=";
                       FDate max_date; FStr " is "; FInt delta_days;
                       FStr " days old (max allowed "; FInt max_days; FStr ")"] in
           log_causal_event "dq_failure"
             (Fields [("pipeline_name", JStr pipeline_name);
                      ("reason", JStr "freshness");
                      ("column", JStr col);
                      ("latest_date", JMsg [FDate max_date]);
                      ("delta_days", JInt delta_days);
                      ("threshold_days", JInt max_days);
                      ("message", JMsg msg)]) ;;
           delta ← to_float (NInt delta_days) ;
           limit ← to_float (NInt max_days) ;
           raise (DataQualityErr
             {| message := msg; kind := Some "freshness"; column := Some col;
                observed := Some (NFloat delta);
                threshold := Some (NFloat limit) |})
         else mret tt)
        (fun _ => mret tt)      (* ignore parsing issues for freshness for now *)
  .

Definition run_validation (df : DataFrame) (config : config) (pipeline_name : string)
  : M unit :=
  let dq_cfg := build_dq_config config in
  _check_row_count df dq_cfg pipeline_name ;;
  _check_null_fraction df dq_cfg pipeline_name ;;
  _check_schema df dq_cfg pipeline_name ;;
  _check_uniqueness df dq_cfg pipeline_name ;;
  _check_column_types df dq_cfg pipeline_name ;;
  _check_allowed_values df dq_cfg pipeline_name ;;
  _check_freshness df dq_cfg pipeline_name ;;
  log_causal_event "validation_success"
    (Fields [("pipeline_name", JStr pipeline_name); ("rows", JInt (len df))]).

(** ** healer.py *)

Definition diagnose_schema_drift (missing_columns : list string) (config : loc)
  : M diagnosis :=
  cfg ← load config ;
  let pipeline_name := get (k_pipeline_name cfg) "unknown" in
  let suggested_actions :=
    if existsb (String.eqb "date_of_sale") missing_columns then
      [ {| a_type := Some "schema_update";
           a_description := Some
             [FStr "Rename required column 'date_of_sale' to 'txn_date' in YAML schema."];
           a_from := Some "date_of_sale";
           a_to := Some "txn_date";
           a_column := None;
           a_new_threshold := None |} ]
    else
      [ {| a_type := Some "no_safe_fix";
           a_description := Some
             [FStr "No known automatic remediation. Escalate to engineer."];
           a_from := None; a_to := None; a_column := None;
           a_new_threshold := None |} ] in
  let diagnosis :=
    {| d_pipeline_name := Some pipeline_name;
       d_root_cause := Some "schema_drift";
       d_missing_columns := Some missing_columns;
       d_column := None; d_observed := None; d_threshold := None;
       d_suggested_actions := Some suggested_actions |} in
  log_causal_event "diagnosis" (Diagnosis diagnosis) ;;
  mret diagnosis.

(** [action.get("type") == t] *)
Definition type_is (a : action) (t : string) : bool :=
  match a_type a with Some s => String.eqb s t | None => false end.

(** [action[k]] *)
Definition item {A} (field : option A) : M A :=
  match field with Some a => mret a | None => raise (PyError "KeyError") end.

(** [config.setdefault("schema", {})["required_columns"] = new_cols] *)
Definition set_required_columns (cfg : config) (new_cols : list string) : config :=
  let schema := get (k_schema cfg) empty_schema in
  {| k_pipeline_name := k_pipeline_name cfg;
     k_data_quality := k_data_quality cfg;
     k_schema := Some {| k_required_columns := Some new_cols;
                         k_column_types := k_column_types schema |};
     k_allowed_values := k_allowed_values cfg;
     k_freshness := k_freshness cfg |}.

(** [config.setdefault("data_quality", {})["max_null_fraction"] = x] *)
Definition set_max_null_fraction (cfg : config) (x : float) : config :=
  let dq := get (k_data_quality cfg) empty_dq in
  {| k_pipeline_name := k_pipeline_name cfg;
     k_data_quality := Some {| k_max_null_fraction := Some x;
                               k_min_row_count := k_min_row_count dq;
                               k_unique_keys := k_unique_keys dq |};
     k_schema := k_schema cfg;
     k_allowed_values := k_allowed_values cfg;
     k_freshness := k_freshness cfg |}.

(** [[to_col if c == from_col else c for c in old_cols]] *)
Definition rename (from_col to_col : string) (old_cols : list string) : list string :=
  map (fun c => if String.eqb c from_col then to_col else c) old_cols.

Definition apply_schema_healing (config : loc) (diagnosis : diagnosis) : M loc :=
  let actions := get (d_suggested_actions diagnosis) [] in
  match actions with
  | [] => mret config
  | action :: _ =>
      if negb (type_is action "schema_update") then mret config
      else
        from_col ← item (a_from action) ;
        to_col ← item (a_to action) ;
        cfg ← load config ;
        let old_cols := get (k_required_columns (get (k_schema cfg) empty_schema)) [] in
        let new_cols := rename from_col to_col old_cols in
        store config (set_required_columns cfg new_cols) ;;
        log_causal_event "healing_applied"
          (Fields [("action_type", JStr "schema_update");
                   ("from", JStr from_col);
                   ("to", JStr to_col);
                   ("old_required_columns", JStrs old_cols);
                   ("new_required_columns", JStrs new_cols)]) ;;
        mret config
  end.

(** Python's two-argument [max] and [min]: the first argument unless the
    second is strictly larger (smaller). *)
Definition py_max (a b : num) : num := if num_ltb a b then b else a.
Definition py_min (a b : num) : num := if num_ltb b a then b else a.

(** [x or 0.0] *)
Definition or_zero (x : option num) : num :=
  match x with
  | Some t => if truthy_num t then t else NFloat 0
  | None => NFloat 0
  end.

Definition diagnose_dq_issue (err : DataQualityError) (config : loc) : M diagnosis :=
  cfg ← load config ;
  let pipeline_name := get (k_pipeline_name cfg) "unknown" in
  let root_cause := if truthy_str (kind err) then get (kind err) "" else "dq_failure" in
  let is_null_fraction :=
    match kind err with Some k => String.eqb k "null_fraction" | None => false end in
  suggested_actions ←
    (if is_null_fraction && truthy_str (column err) && is_not_none (observed err) then
       (* [err.observed + 0.05]: an int is converted first *)
       o ← to_float (get (observed err) (NFloat 0)) ;
       let new_threshold :=
         py_min (py_max (NFloat (o + 0.05)) (or_zero (threshold err))) (NFloat 1) in
       (* [{new_threshold:.3f}] converts an int, too *)
       to_float new_threshold ;;
       mret
         [ {| a_type := Some "dq_update_max_null";
              a_description := Some
                [FStr "Increase max_null_fraction for '";
                 FStr (get (column err) "");
                 FStr "' to "; FFixed 3 new_threshold;
                 FStr " based on observed data."];
              a_from := None; a_to := None;
              a_column := column err;
              a_new_threshold := Some new_threshold |} ]
     else
       mret
         [ {| a_type := Some "no_safe_fix";
              a_description := Some
                [FStr "No automatic remediation defined. Please inspect data and rules."];
              a_from := None; a_to := None; a_column := None;
              a_new_threshold := None |} ]) ;
  let diag :=
    {| d_pipeline_name := Some pipeline_name;
       d_root_cause := Some root_cause;
       d_missing_columns := None;
       d_column := Some (column err);
       d_observed := Some (observed err);
       d_threshold := Some (threshold err);
       d_suggested_actions := Some suggested_actions |} in
  log_causal_event "dq_diagnosis" (Diagnosis diag) ;;
  mret diag.

Definition apply_dq_healing (config : loc) (diagnosis : diagnosis) : M loc :=
  let actions := get (d_suggested_actions diagnosis) [] in
  match actions with
  | [] => mret config
  | action :: _ =>
      if type_is action "dq_update_max_null" then
        new_thr ← item (a_new_threshold action) ;
        x ← to_float new_thr ;
        cfg ← load config ;
        store config (set_max_null_fraction cfg x) ;;
        log_causal_event "healing_applied"
          (Fields [("action_type", JStr "dq_update_max_null");
                   ("column", JOptStr (a_column action));
                   ("new_threshold", JNum new_thr)]) ;;
        mret config
      else mret config
  end.

End Engine.

(** ** The checks as a list, and what "stop at the first violation" means *)



(** [[c for c in cfg.required_columns if c not in df.columns]] *)
Definition missing_required (df : DataFrame) (cfg : DQConfig) : list string :=
  List.filter (fun c => negb (has_column df c)) (required_columns cfg).

(** The events that record a failed check. *)
Definition is_failure_event (ev : event) : bool :=
  String.eqb (event_type ev) "dq_failure"
  || String.eqb (event_type ev) "schema_drift_detected".




(** ** Fixtures: the default configuration of main.py and small data sets *)

Definition default_config : config :=
  {| k_pipeline_name := Some "daily_sales_processing";
     k_data_quality := Some {| k_max_null_fraction := Some 0.05%float;
                               k_min_row_count := Some 5%Z;
                               k_unique_keys := Some ["transaction_id"] |};
     k_schema := Some {| k_required_columns :=
                           Some ["transaction_id"; "customer_id";
                                 "sales_amount"; "date_of_sale"];
                         k_column_types := Some [("sales_amount", "float")] |};
     k_allowed_values := Some [("region", ["APAC"; "EMEA"; "US"])];
     k_freshness := Some {| k_date_column := Some "date_of_sale";
                            k_max_days_delay := Some 3%Z |} |}.

(** An environment in which cells holding an integer parse as the date with
    that day number, and today is day 100. *)
Definition test_env : Env :=
  {| today := 100;
     utcnow := fun _ => "2024-01-10T00:00:00Z";
     str_is_numeric := fun _ => false;
     parse_date := fun v => match v with VInt d => Some d | _ => None end;
     json_serializable := fun v => match v with VStr _ | VFloat _ => true | _ => false end |}.

Definition empty_world : world := World ∅ [].

(** Four rows, and none of the required columns. *)
Definition df_four_rows : DataFrame :=
  {| index_len := 4; columns := [("region", [VStr "US"; VStr "US"; VStr "US"; VStr "US"])] |}.

Definition df_five_rows : DataFrame :=
  {| index_len := 5;
     columns := [("region", [VStr "US"; VStr "US"; VStr "US"; VStr "US"; VStr "US"])] |}.

(** One row whose date is ten days old; only freshness is configured. *)
Definition df_stale : DataFrame :=
  {| index_len := 1; columns := [("date_of_sale", [VInt 90])] |}.

Definition freshness_only : config :=
  {| k_pipeline_name := Some "p";
     k_data_quality := None; k_schema := None; k_allowed_values := None;
     k_freshness := Some {| k_date_column := Some "date_of_sale";
                            k_max_days_delay := Some 3%Z |} |}.

(** The default configuration is the object behind reference 0. *)
Definition one_config_world : world := World {[ 0%nat := default_config ]} [].

Definition rename_diagnosis : diagnosis :=
  {| d_pipeline_name := Some "daily_sales_processing";
     d_root_cause := Some "schema_drift";
     d_missing_columns := Some ["date_of_sale"];
     d_column := None; d_observed := None; d_threshold := None;
     d_suggested_actions := Some
       [ {| a_type := Some "schema_update";
            a_description := None;
            a_from := Some "date_of_sale"; a_to := Some "txn_date";
            a_column := None; a_new_threshold := None |} ] |}.

Definition raise_diagnosis : diagnosis :=
  {| d_pipeline_name := Some "daily_sales_processing";
     d_root_cause := Some "null_fraction";
     d_missing_columns := None;
     d_column := Some (Some "sales_amount");
     d_observed := Some (Some (NFloat 0.1));
     d_threshold := Some (Some (NFloat 0.05));
     d_suggested_actions := Some
       [ {| a_type := Some "dq_update_max_null";
            a_description := None;
            a_from := None; a_to := None;
            a_column := Some "sales_amount";
            a_new_threshold := Some (NFloat 0.15000000000000002) |} ] |}.

Definition null_fraction_error : DataQualityError :=
  {| message := []; kind := Some "null_fraction"; column := Some "sales_amount";
     observed := Some (NFloat 0.1); threshold := Some (NFloat 0.05) |}.

(** ** main.py: the validate, diagnose, heal, re-validate pass of [run_upload] *)

(** Text shown to the user or stored with an incident; an interpolated
    exception ([str(e)], [{e2}]) is kept unrendered. *)
Inductive piece :=
| Lit (s : string)
| ExnStr (e : exn).

(** models.py: the rows the pass writes. *)
Record Incident := {
  i_user_id : nat;
  incident_type : string;
  status : string;
  i_message : list piece
}.

Record Metrics := {
  attempts : Z;
  successes : Z
}.

(** The world of the request handler: the engine's world, the user's
    metrics row and the incidents table (in insertion order). *)
Record app := {
  app_world : world;
  db_metrics : Metrics;
  db_incidents : list Incident
}.

Definition in_world {A} (m : M A) (s : app) : result A * app :=
  match m (app_world s) with
  | (r, w') => (r, {| app_world := w';
                      db_metrics := db_metrics s;
                      db_incidents := db_incidents s |})
  end.

(** [db.add(inc); db.commit()] *)
Definition add_incident (inc : Incident) (s : app) : app :=
  {| app_world := app_world s;
     db_metrics := db_metrics s;
     db_incidents := db_incidents s ++ [inc] |}.

(** [metrics.attempts += 1; db.add(metrics); db.commit()] *)
Definition incr_attempts (s : app) : app :=
  {| app_world := app_world s;
     db_metrics := {| attempts := attempts (db_metrics s) + 1;
                      successes := successes (db_metrics s) |};
     db_incidents := db_incidents s |}.

(** [metrics.successes += 1; db.add(metrics); db.commit()] *)
Definition incr_successes (s : app) : app :=
  {| app_world := app_world s;
     db_metrics := {| attempts := attempts (db_metrics s);
                      successes := successes (db_metrics s) + 1 |};
     db_incidents := db_incidents s |}.

(** [run_validation(df, config, pipeline_name)] called with a reference: the
    validator reads the object behind it. *)
Definition validate (E : Env) (df : DataFrame) (config : loc) (pipeline_name : string)
  : M unit :=
  cfg ← load config ;
  run_validation E df cfg pipeline_name.

(** The part of [run_upload] that follows the parsing of the YAML text and
    of the data file, for a user whose metrics row exists.  It returns the
    message and the healed configuration that is dumped as [healed_yaml]
    ([None] when nothing was healed). *)
Definition run_upload (E : Env) (user_id : nat) (df : DataFrame)
  : loc -> app -> result (list piece * option config) * app := fun config s =>
  match in_world (load config) s with
  | (Raise x, s0) => (Raise x, s0)
  | (Ok cfg0, s0) =>
    let pipeline_name := get (k_pipeline_name cfg0) "user_pipeline" in
    match in_world (validate E df config pipeline_name) s0 with
    | (Ok _, s1) =>
        let s2 := add_incident
          {| i_user_id := user_id; incident_type := "run"; status := "success";
             i_message := [Lit "Pipeline validation passed without healing."] |} s1 in
        (Ok ([Lit "✅ Pipeline validation passed without healing."], None), s2)
    | (Raise (SchemaDriftError missing), s1) =>
        let s2 := incr_attempts s1 in
        let s3 := add_incident
          {| i_user_id := user_id; incident_type := "schema_drift"; status := "failed";
             i_message := [ExnStr (SchemaDriftError missing)] |} s2 in
        match in_world (diagnose_schema_drift E missing config) s3 with
        | (Raise x, s4) => (Raise x, s4)
        | (Ok diagnosis, s4) =>
          match in_world (apply_schema_healing E config diagnosis) s4 with
          | (Raise x, s5) => (Raise x, s5)
          | (Ok healed_config, s5) =>
            match in_world (load healed_config) s5 with
            | (Raise x, s6) => (Raise x, s6)
            | (Ok healed_yaml, s6) =>
              match in_world (validate E df healed_config pipeline_name) s6 with
              | (Ok _, s7) =>
                  let s8 := add_incident
                    {| i_user_id := user_id; incident_type := "post_healing";
                       status := "success";
                       i_message :=
                         [Lit "Pipeline healed and validation passed on second run."] |}
                    s7 in
                  let s9 := incr_successes s8 in
                  (Ok ([Lit "✅ Schema drift healed. Validation passed with suggested YAML."],
                       Some healed_yaml), s9)
              | (Raise e2, s7) =>
                  let s8 := add_incident
                    {| i_user_id := user_id; incident_type := "post_healing";
                       status := "failed";
                       i_message := [Lit "Post-healing failure: "; ExnStr e2] |} s7 in
                  (Ok ([Lit "❌ Even after healing suggestion, validation failed. Please inspect YAML & data."],
                       Some healed_yaml), s8)
              end
            end
          end
        end
    | (Raise (DataQualityErr e), s1) =>
        let s2 := incr_attempts s1 in
        let s3 := add_incident
          {| i_user_id := user_id; incident_type := "data_quality"; status := "failed";
             i_message := [ExnStr (DataQualityErr e)] |} s2 in
        match in_world (diagnose_dq_issue E e config) s3 with
        | (Raise x, s4) => (Raise x, s4)
        | (Ok diagnosis, s4) =>
          match in_world (apply_dq_healing E config diagnosis) s4 with
          | (Raise x, s5) => (Raise x, s5)
          | (Ok healed_config, s5) =>
            match in_world (load healed_config) s5 with
            | (Raise x, s6) => (Raise x, s6)
            | (Ok healed_yaml, s6) =>
              match in_world (validate E df healed_config pipeline_name) s6 with
              | (Ok _, s7) =>
                  let s8 := add_incident
                    {| i_user_id := user_id; incident_type := "post_healing_dq";
                       status := "success";
                       i_message := [Lit "DQ rule auto-tuned and validation passed."] |}
                    s7 in
                  let s9 := incr_successes s8 in
                  (Ok ([Lit "✅ Data quality rule healed. Validation passed with suggested YAML."],
                       Some healed_yaml), s9)
              | (Raise e2, s7) =>
                  let s8 := add_incident
                    {| i_user_id := user_id; incident_type := "post_healing_dq";
                       status := "failed";
                       i_message := [Lit "Post-healing DQ failure: "; ExnStr e2] |} s7 in
                  (Ok ([Lit "❌ Data quality still failing after auto-healing suggestion: ";
                        ExnStr e2],
                       Some healed_yaml), s8)
              end
            end
          end
        end
    | (Raise (PyError name), s1) => (Raise (PyError name), s1)
    end
  end.

(** ** Further fixtures *)

(** Ten rows of which one has no [sales_amount]. *)
Definition df_one_null_in_ten : DataFrame :=
  {| index_len := 10;
     columns :=
       [("sales_amount",
         [VNull; VFloat 1; VFloat 2; VFloat 3; VFloat 4;
          VFloat 5; VFloat 6; VFloat 7; VFloat 8; VFloat 9])] |}.

(** No [sales_amount] is missing, every [region] is. *)
Definition df_nulls_elsewhere : DataFrame :=
  {| index_len := 2;
     columns := [("sales_amount", [VFloat 1; VFloat 2]); ("region", [VNull; VNull])] |}.

(** Three rows of which one has no [sales_amount]. *)
Definition df_one_null_in_three : DataFrame :=
  {| index_len := 3; columns := [("sales_amount", [VNull; VFloat 1; VFloat 2])] |}.

(** The configuration document [{}]. *)
Definition empty_config : config :=
  {| k_pipeline_name := None; k_data_quality := None; k_schema := None;
     k_allowed_values := None; k_freshness := None |}.

(** The two exception classes of the validator, as opposed to the
    exceptions of Python and its libraries. *)
Definition typed_failure (e : exn) : bool :=
  match e with PyError _ => false | _ => true end.

(** What a check can do: pass without a trace; log one failure event and
    raise one of the validator's exceptions; or let an exception of Python
    escape before anything is logged. *)
Definition check_outcome (c : M unit) : Prop :=
  forall w,
    c w = (Ok tt, w)
    \/ (exists e ev,
          c w = (Raise e, World (heap w) (log w ++ [ev]))
          /\ typed_failure e = true /\ is_failure_event ev = true)
    \/ (exists name, c w = (Raise (PyError name), w)).

(** The events one call of [run_validation] may append, by outcome. *)
Definition validation_trace (r : result unit) (evs : list event) : Prop :=
  match r with
  | Ok _ =>
      exists pre ok,
        evs = pre ++ [ok] /\ event_type ok = "validation_success"
        /\ (pre = [] \/ exists ev, pre = [ev] /\ event_type ev = "dq_failure")
  | Raise e =>
      if typed_failure e
      then exists ev, evs = [ev] /\ is_failure_event ev = true
      else evs = []
  end.

Definition leaves_validation_trace (c : M unit) : Prop :=
  forall w,
    exists r evs,
      c w = (r, World (heap w) (log w ++ evs)) /\ validation_trace r evs.

(** A series has a cell that equals an earlier cell. *)
Definition has_repeated_cell (s : list value) : Prop :=
  exists before b after a,
    s = before ++ b :: after /\ In a before /\ value_eqb b a = true.

(** A series has a string cell that [pd.to_numeric] rejects. *)
Definition has_non_numeric_cell (E : Env) (s : list value) : Prop :=
  exists str, In (VStr str) s /\ str_is_numeric E str = false.

(** The declared types whose coercion can fail. *)
Definition numeric_type (t : string) : Prop := t = "float" \/ t = "int".

(** Two columns, one with a repeated id and one with a word among numbers. *)
Definition df_dirty : DataFrame :=
  {| index_len := 3;
     columns := [("transaction_id", [VInt 1; VInt 2; VInt 1]);
                 ("sales_amount", [VFloat 1; VStr "n/a"; VFloat 3]);
                 ("region", [VStr "US"; VNull; VStr "MARS"])] |}.

(** A region column that mixes a word and a number. *)
Definition df_mixed_region : DataFrame :=
  {| index_len := 2; columns := [("region", [VStr "MARS"; VInt 7])] |}.

(** The two kinds of cell that [sorted] can compare among themselves. *)
Definition is_str (v : value) : bool :=
  match v with VStr _ => true | _ => false end.

Definition is_num (v : value) : bool :=
  match as_number v with Some _ => true | None => false end.

(** Every cell of the series is missing or is one of the allowed strings. *)
Definition all_cells_allowed (s : list value) (allowed : list string) : Prop :=
  forall v, In v s -> v = VNull \/ exists a, In a allowed /\ v = VStr a.

(** The result of a computation does not depend on the world it starts in. *)
Definition result_ignores_world {A} (c : M A) : Prop :=
  forall w w', fst (c w) = fst (c w').

(** The failures for which [diagnose_dq_issue] has a remedy: kind
    [null_fraction], with a non-empty column name and an observed value. *)
Definition tunable (err : DataQualityError) : Prop :=
  kind err = Some "null_fraction"
  /\ (exists col, column err = Some col /\ col <> "")
  /\ (exists o, observed err = Some o).

(** A [null_fraction] failure whose observed value is an int that no double
    can hold. *)
Definition huge_observed_error : DataQualityError :=
  {| message := []; kind := Some "null_fraction"; column := Some "sales_amount";
     observed := Some (NInt (2 ^ 1024)); threshold := Some (NFloat 0.05) |}.

(** A [null_fraction] failure with 97 % of the cells missing. *)
Definition high_null_fraction_error : DataQualityError :=
  {| message := []; kind := Some "null_fraction"; column := Some "sales_amount";
     observed := Some (NFloat 0.97); threshold := Some (NFloat 0.05) |}.

Definition row_count_error : DataQualityError :=
  {| message := []; kind := Some "row_count"; column := None;
     observed := Some (NInt 4); threshold := Some (NInt 5) |}.

(** A [schema_update] action that lacks its [to] key, and a
    [dq_update_max_null] action that lacks its [new_threshold] key. *)
Definition broken_rename_diagnosis : diagnosis :=
  {| d_pipeline_name := None; d_root_cause := None; d_missing_columns := None;
     d_column := None; d_observed := None; d_threshold := None;
     d_suggested_actions := Some
       [ {| a_type := Some "schema_update"; a_description := None;
            a_from := Some "date_of_sale"; a_to := None;
            a_column := None; a_new_threshold := None |} ] |}.

Definition broken_raise_diagnosis : diagnosis :=
  {| d_pipeline_name := None; d_root_cause := None; d_missing_columns := None;
     d_column := None; d_observed := None; d_threshold := None;
     d_suggested_actions := Some
       [ {| a_type := Some "dq_update_max_null"; a_description := None;
            a_from := None; a_to := None;
            a_column := None; a_new_threshold := None |} ] |}.

(** The exception is a [DataQualityError] of kind [k], or an exception of
    Python. *)
Definition of_kind (k : string) (e : exn) : Prop :=
  (exists dq, e = DataQualityErr dq /\ kind dq = Some k) \/ (exists name, e = PyError name).

(** A user with three earlier attempts of which two succeeded, about to
    validate against the default configuration. *)
Definition app_before : app :=
  {| app_world := one_config_world;
     db_metrics := {| attempts := 3; successes := 2 |};
     db_incidents := [] |}.

(** The same user with a configuration that only asks for freshness. *)
Definition app_freshness_only : app :=
  {| app_world := World {[ 0%nat := freshness_only ]} [];
     db_metrics := {| attempts := 3; successes := 2 |};
     db_incidents := [] |}.

(** The exception [_check_row_count] raises for four rows where five are
    required. *)
Definition four_rows_error : DataQualityError :=
  {| message := [FStr "Row count "; FInt 4; FStr " < min_row_count "; FInt 5];
     kind := Some "row_count"; column := None;
     observed := Some (NInt 4); threshold := Some (NInt 5) |}.

(** Data that went through the rename upstream: [txn_date] instead of
    [date_of_sale], everything else in order. *)
Definition df_renamed : DataFrame :=
  {| index_len := 5;
     columns :=
       [("transaction_id", [VInt 1; VInt 2; VInt 3; VInt 4; VInt 5]);
        ("customer_id", [VInt 7; VInt 7; VInt 8; VInt 8; VInt 9]);
        ("sales_amount", [VFloat 1; VFloat 2; VFloat 3; VFloat 4; VFloat 5]);
        ("txn_date", [VInt 99; VInt 99; VInt 99; VInt 99; VInt 99]);
        ("region", [VStr "US"; VStr "US"; VStr "EMEA"; VStr "APAC"; VStr "US"])] |}.

(** Ten good rows of which one lacks its [sales_amount]. *)
Definition df_ten_percent_null : DataFrame :=
  {| index_len := 10;
     columns :=
       [("transaction_id",
         [VInt 1; VInt 2; VInt 3; VInt 4; VInt 5; VInt 6; VInt 7; VInt 8; VInt 9; VInt 10]);
        ("customer_id",
         [VInt 7; VInt 7; VInt 8; VInt 8; VInt 9; VInt 7; VInt 7; VInt 8; VInt 8; VInt 9]);
        ("sales_amount",
         [VNull; VFloat 1; VFloat 2; VFloat 3; VFloat 4;
          VFloat 5; VFloat 6; VFloat 7; VFloat 8; VFloat 9]);
        ("date_of_sale",
         [VInt 99; VInt 99; VInt 99; VInt 99; VInt 99;
          VInt 99; VInt 99; VInt 99; VInt 99; VInt 99])] |}.

(** The exception [_check_null_fraction] raises for one null in ten under
    the default threshold. *)
Definition ten_percent_error : DataQualityError :=
  {| message := [FStr "Null fraction in '"; FStr "sales_amount"; FStr "' ";
                 FFixed 4 (NFloat 0.1); FStr " > max_null_fraction ";
                 FNum (NFloat 0.05)];
     kind := Some "null_fraction"; column := Some "sales_amount";
     observed := Some (NFloat 0.1); threshold := Some (NFloat 0.05) |}.

(** ** Doubles: the clamp of the spec, and the notions the proofs about
    rounding use *)

(** The spec's words: [min] and [max] of two doubles, and the threshold
    [min(max(observed + 0.05, current threshold), 1.0)]. *)
Definition fmax (a b : float) : float := if (a <? b)%float then b else a.
Definition fmin (a b : float) : float := if (b <? a)%float then b else a.

Definition raised_threshold (observed current : float) : float :=
  fmin (fmax (observed + 0.05) current) 1.

Section Binary64.

Local Open Scope Z_scope.

(** The order of the specification floats is the lexicographic order of
    these triples: the class (by sign), the exponent and the mantissa. *)
Definition key (f : spec_float) : Z * Z * Z :=
  match f with
  | S754_nan => (0, 0, 0)
  | S754_infinity true => (-2, 0, 0)
  | S754_infinity false => (2, 0, 0)
  | S754_zero _ => (0, 0, 0)
  | S754_finite true m e => (-1, - e, - Zpos m)
  | S754_finite false m e => (1, e, Zpos m)
  end.

Definition lex_le (a b : Z * Z * Z) : Prop :=
  let '(a1, a2, a3) := a in
  let '(b1, b2, b3) := b in
  a1 < b1 \/ (a1 = b1 /\ (a2 < b2 \/ (a2 = b2 /\ a3 <= b3))).

Definition lex_lt (a b : Z * Z * Z) : Prop :=
  let '(a1, a2, a3) := a in
  let '(b1, b2, b3) := b in
  a1 < b1 \/ (a1 = b1 /\ (a2 < b2 \/ (a2 = b2 /\ a3 < b3))).

(** Is the specification float NaN? *)
Definition sf_is_nan (f : spec_float) : bool :=
  match f with S754_nan => true | _ => false end.

(** [k * 2^ek <= m * 2^e], read at the exponent [e] when [e <= ek]. *)
Definition LBp (k ek m e : Z) : Prop := e <= ek -> k * 2 ^ (ek - e) <= m.

(** A float that is at least zero is a zero, a positive number or plus
    infinity. *)
Definition nonneg (f : spec_float) : Prop :=
  match f with
  | S754_zero _ | S754_finite false _ _ | S754_infinity false => True
  | _ => False
  end.

(** The position of a shifted number among the quarters: the mantissa, the
    round bit and the sticky bit. *)
Definition shr_pos (mrs : shr_record) : Z :=
  4 * shr_m mrs + (if shr_r mrs then 2 else 0) + (if shr_s mrs then 1 else 0).

(** Two shifted, non-negative numbers in order. *)
Definition shr_le (a b : shr_record) : Prop :=
  0 <= shr_m a /\ 0 <= shr_m b /\ shr_pos a <= shr_pos b.

(** Rounding to nearest, ties to even, of a shifted number. *)
Definition rne (mrs : shr_record) : Z :=
  round_nearest_even (shr_m mrs) (loc_of_shr_record mrs).

(** The end of [binary_round_aux]: renormalising after the rounding. *)
Definition finish (sx : bool) (m e : Z) : spec_float :=
  let '(mrs, e') := shr_fexp prec emax m e loc_Exact in
  match shr_m mrs with
  | Z0 => S754_zero sx
  | Zpos p => if e' <=? emax - prec then S754_finite sx p e' else S754_infinity sx
  | Zneg _ => S754_nan
  end.

(** A finite number, or infinity when the exponent is out of range. *)
Definition FI (em : Z * Z) : spec_float :=
  match snd em with
  | Zpos q => if fst em <=? 971 then S754_finite false q (fst em) else S754_infinity false
  | _ => S754_nan
  end.

(** A mantissa of 53 or 54 bits, renormalised. *)
Definition norm (m a : Z) : Z * Z :=
  if m <? 9007199254740992 then (a, m) else (a + 1, 4503599627370496).

(** The mantissa of the double nearest to a positive integer, before it is
    renormalised. *)
Definition mant (p : positive) : Z :=
  let d := Zpos (digits2_pos p) in
  if d <=? 53 then Zpos p * 2 ^ (53 - d)
  else rne (SpecFloat.iter_pos shr_1 (Z.to_pos (d - 53))
              {| shr_m := Zpos p; shr_r := false; shr_s := false |}).

(** The exponent and the mantissa of the double nearest to a positive
    integer, the exponent not yet checked against the range. *)
Definition Bkey (p : positive) : Z * Z := norm (mant p) (Zpos (digits2_pos p) - 53).

(** The order of (exponent, mantissa) pairs. *)
Definition lex2 (a b : Z * Z) : Prop :=
  fst a < fst b \/ (fst a = fst b /\ snd a <= snd b).

(** [m * 2^e <= 1], and the bits shifted out are zero when it is [1]. *)
Definition below_one (e : Z) (mrs : shr_record) : Prop :=
  e <= 0 ->
  0 <= shr_m mrs
  /\ (shr_m mrs + 1 <= 2 ^ (- e)
      \/ (shr_m mrs = 2 ^ (- e) /\ shr_r mrs = false /\ shr_s mrs = false)).

(** Plus zero, a positive number or plus infinity. *)
Definition unsigned (f : spec_float) : Prop :=
  match f with
  | S754_zero false | S754_finite false _ _ | S754_infinity false => True
  | _ => False
  end.

End Binary64.

(** ** Laws of the monad *)

Lemma bind_ok {A B} (m : M A) (f : A -> M B) w a w' :
  m w = (Ok a, w') -> (m ≫= f) w = f a w'.
Proof. intros H. unfold mbind, M_bind. now rewrite H. Qed.

Lemma bind_raise {A B} (m : M A) (f : A -> M B) w e w' :
  m w = (Raise e, w') -> (m ≫= f) w = (Raise e, w').
Proof. intros H. unfold mbind, M_bind. now rewrite H. Qed.

Lemma bind_inv {A B} (m : M A) (f : A -> M B) w r w' :
  (m ≫= f) w = (r, w') ->
  (exists a w1, m w = (Ok a, w1) /\ f a w1 = (r, w'))
  \/ (exists e, m w = (Raise e, w') /\ r = Raise e).
Proof.
  unfold mbind, M_bind. destruct (m w) as [[a|e] w1]; intros H.
  - left. eauto.
  - right. inversion H; subst. eauto.
Qed.

(** ** Binary64 arithmetic: order, rounding of a sum, rounding of a quotient *)

Section Binary64_facts.

Local Open Scope Z_scope.

(** ** The order of the specification floats *)

Lemma SFleb_key f1 f2 :
  sf_is_nan f1 = false -> sf_is_nan f2 = false ->
  (SFleb f1 f2 = true <-> lex_le (key f1) (key f2)).
Proof.
  unfold SFleb, SFcompare.
  destruct f1 as [s1 | s1 | | s1 m1 e1], f2 as [s2 | s2 | | s2 m2 e2];
    try discriminate; intros _ _;
    try destruct s1; try destruct s2; simpl;
    try (split; [intros _; lia | reflexivity]);
    try (split; [discriminate | lia]).
  all: destruct (Z.compare_spec e1 e2); simpl;
    try (split; [intros _; lia | reflexivity]);
    try (split; [discriminate | lia]).
  all: change (Pos.compare_cont Eq m1 m2) with (Pos.compare m1 m2);
    destruct (Pos.compare_spec m1 m2); simpl;
    try (split; [intros _; lia | reflexivity]);
    try (split; [discriminate | lia]).
Qed.

Lemma SFltb_key f1 f2 :
  sf_is_nan f1 = false -> sf_is_nan f2 = false ->
  (SFltb f1 f2 = true <-> lex_lt (key f1) (key f2)).
Proof.
  unfold SFltb, SFcompare.
  destruct f1 as [s1 | s1 | | s1 m1 e1], f2 as [s2 | s2 | | s2 m2 e2];
    try discriminate; intros _ _;
    try destruct s1; try destruct s2; simpl;
    try (split; [intros _; lia | reflexivity]);
    try (split; [discriminate | lia]).
  all: destruct (Z.compare_spec e1 e2); simpl;
    try (split; [intros _; lia | reflexivity]);
    try (split; [discriminate | lia]).
  all: change (Pos.compare_cont Eq m1 m2) with (Pos.compare m1 m2);
    destruct (Pos.compare_spec m1 m2); simpl;
    try (split; [intros _; lia | reflexivity]);
    try (split; [discriminate | lia]).
Qed.

Lemma SFleb_not_nan f1 f2 : SFleb f1 f2 = true -> sf_is_nan f1 = false /\ sf_is_nan f2 = false.
Proof.
  unfold SFleb, SFcompare.
  destruct f1 as [s1 | s1 | | s1 m1 e1], f2 as [s2 | s2 | | s2 m2 e2];
    try discriminate; auto.
Qed.

Lemma SFltb_not_nan f1 f2 : SFltb f1 f2 = true -> sf_is_nan f1 = false /\ sf_is_nan f2 = false.
Proof.
  unfold SFltb, SFcompare.
  destruct f1 as [s1 | s1 | | s1 m1 e1], f2 as [s2 | s2 | | s2 m2 e2];
    try discriminate; auto.
Qed.

Lemma SFleb_trans f1 f2 f3 :
  SFleb f1 f2 = true -> SFleb f2 f3 = true -> SFleb f1 f3 = true.
Proof.
  intros H12 H23.
  destruct (SFleb_not_nan _ _ H12) as [N1 N2], (SFleb_not_nan _ _ H23) as [_ N3].
  apply SFleb_key in H12, H23; auto. apply SFleb_key; auto.
  unfold lex_le in *.
  destruct (key f1) as [[a1 a2] a3], (key f2) as [[b1 b2] b3], (key f3) as [[c1 c2] c3].
  lia.
Qed.

Lemma SFleb_refl f : sf_is_nan f = false -> SFleb f f = true.
Proof.
  intros N. apply SFleb_key; auto. unfold lex_le.
  destruct (key f) as [[a1 a2] a3]. lia.
Qed.

Lemma SFltb_false_leb f1 f2 :
  sf_is_nan f1 = false -> sf_is_nan f2 = false ->
  SFltb f1 f2 = false -> SFleb f2 f1 = true.
Proof.
  intros N1 N2 H. apply SFleb_key; auto.
  assert (Hn : ~ lex_lt (key f1) (key f2)).
  { intros Hlt. apply SFltb_key in Hlt; auto. congruence. }
  unfold lex_le, lex_lt in *.
  destruct (key f1) as [[a1 a2] a3], (key f2) as [[b1 b2] b3]. lia.
Qed.

Lemma SFleb_ltb_false f1 f2 : SFleb f1 f2 = true -> SFltb f2 f1 = false.
Proof.
  intros H. destruct (SFleb_not_nan _ _ H) as [N1 N2].
  destruct (SFltb f2 f1) eqn:Hlt; [| reflexivity].
  apply SFleb_key in H; auto. apply SFltb_key in Hlt; auto.
  unfold lex_le, lex_lt in *.
  destruct (key f1) as [[a1 a2] a3], (key f2) as [[b1 b2] b3]. lia.
Qed.

Lemma SFltb_leb f1 f2 : SFltb f1 f2 = true -> SFleb f1 f2 = true.
Proof.
  intros H. destruct (SFltb_not_nan _ _ H) as [N1 N2].
  apply SFltb_key in H; auto. apply SFleb_key; auto.
  unfold lex_le, lex_lt in *.
  destruct (key f1) as [[a1 a2] a3], (key f2) as [[b1 b2] b3]. lia.
Qed.

(** ** Exponents and digits *)

Lemma fexp_eq e : fexp prec emax e = Z.max (e - 53) (-1074).
Proof. reflexivity. Qed.

Lemma digits2_pos_bounds p :
  2 ^ (Zpos (digits2_pos p) - 1) <= Zpos p < 2 ^ Zpos (digits2_pos p).
Proof.
  induction p as [p IH | p IH |]; simpl digits2_pos.
  - rewrite Pos2Z.inj_succ, (Pos2Z.inj_xI p).
    replace (Z.succ (Zpos (digits2_pos p)) - 1) with (Z.succ (Zpos (digits2_pos p) - 1)) by lia.
    rewrite !Z.pow_succ_r by lia. lia.
  - rewrite Pos2Z.inj_succ, (Pos2Z.inj_xO p).
    replace (Z.succ (Zpos (digits2_pos p)) - 1) with (Z.succ (Zpos (digits2_pos p) - 1)) by lia.
    rewrite !Z.pow_succ_r by lia. lia.
  - simpl. lia.
Qed.

Lemma digits2_pos_unique p d :
  2 ^ (d - 1) <= Zpos p < 2 ^ d -> Zpos (digits2_pos p) = d.
Proof.
  intros [Hlo Hhi]. pose proof (digits2_pos_bounds p) as [Blo Bhi].
  assert (Hd : 0 < d).
  { destruct (Z.ltb_spec 0 d) as [H | H]; [exact H |].
    destruct (Z.eq_dec d 0) as [-> | Hne]; [simpl in Hhi; lia |].
    rewrite Z.pow_neg_r in Hhi by lia. lia. }
  destruct (Z.lt_trichotomy (Zpos (digits2_pos p)) d) as [Hlt | [Heq | Hgt]]; [| exact Heq |].
  - assert (2 ^ Zpos (digits2_pos p) <= 2 ^ (d - 1)) by (apply Z.pow_le_mono_r; lia). lia.
  - assert (2 ^ d <= 2 ^ (Zpos (digits2_pos p) - 1)) by (apply Z.pow_le_mono_r; lia). lia.
Qed.

Lemma digits2_pos_le p q : Zpos p <= Zpos q -> Zpos (digits2_pos p) <= Zpos (digits2_pos q).
Proof.
  intros Hle. pose proof (digits2_pos_bounds p) as [Plo _].
  pose proof (digits2_pos_bounds q) as [_ Qhi].
  destruct (Z.leb_spec (Zpos (digits2_pos p)) (Zpos (digits2_pos q))) as [H | H]; [exact H |].
  assert (2 ^ Zpos (digits2_pos q) <= 2 ^ (Zpos (digits2_pos p) - 1))
    by (apply Z.pow_le_mono_r; lia).
  lia.
Qed.

(** ** Shifting to the right *)

Lemma iter_pos_inv {A} (f : A -> A) (I : Z -> A -> Prop) :
  (forall j x, 0 <= j -> I j x -> I (j + 1) (f x)) ->
  forall p j x, 0 <= j -> I j x -> I (j + Zpos p) (SpecFloat.iter_pos f p x).
Proof.
  intros Hstep. induction p as [p IH | p IH |]; intros j x Hj HI; simpl.
  - replace (j + Zpos p~1) with (j + 1 + Zpos p + Zpos p) by lia.
    apply IH; [lia |]. apply IH; [lia |]. now apply Hstep.
  - replace (j + Zpos p~0) with (j + Zpos p + Zpos p) by lia.
    apply IH; [lia |]. now apply IH.
  - now apply Hstep.
Qed.

Lemma shr_m_shr_1 mrs : 0 <= shr_m mrs -> shr_m (shr_1 mrs) = shr_m mrs / 2.
Proof.
  destruct mrs as [m r s]. simpl. intros Hm.
  destruct m as [| p | p]; [reflexivity | | lia].
  destruct p as [p | p |]; simpl.
  - rewrite (Pos2Z.inj_xI p). apply Z.div_unique with 1; lia.
  - rewrite (Pos2Z.inj_xO p). apply Z.div_unique with 0; lia.
  - reflexivity.
Qed.

Lemma shr_m_of_loc m l : shr_m (shr_record_of_loc m l) = m.
Proof. destruct l as [| []]; reflexivity. Qed.

Lemma shr_inv (I : Z -> shr_record -> Prop) :
  (forall j x, 0 <= j -> I j x -> I (j + 1) (shr_1 x)) ->
  forall mrs e n,
    I 0 mrs ->
    exists mrs', shr mrs e n = (mrs', e + Z.max 0 n) /\ I (Z.max 0 n) mrs'.
Proof.
  intros Hstep mrs e n H0. unfold shr. destruct n as [| p | p].
  - exists mrs. rewrite Z.add_0_r. auto.
  - exists (SpecFloat.iter_pos shr_1 p mrs). split; [f_equal; lia |].
    replace (Z.max 0 (Zpos p)) with (0 + Zpos p) by lia.
    apply iter_pos_inv; auto. lia.
  - exists mrs. replace (Z.max 0 (Zneg p)) with 0 by lia. rewrite Z.add_0_r. auto.
Qed.

Lemma round_nearest_even_bounds m l :
  m <= round_nearest_even m l <= m + 1.
Proof.
  unfold round_nearest_even. destruct l as [| []]; try lia.
  destruct (Z.even m); lia.
Qed.

(** ** Rounding never goes below a floating-point number below the input *)

Lemma LBp_half k ek m e : 0 <= m -> LBp k ek m e -> LBp k ek (m / 2) (e + 1).
Proof.
  unfold LBp. intros Hm H He.
  apply Z.div_le_lower_bound; [lia |].
  replace (ek - e) with (Z.succ (ek - (e + 1))) in H by lia.
  rewrite Z.pow_succ_r in H by lia. lia.
Qed.

Lemma LBp_le k ek m m' e : LBp k ek m e -> m <= m' -> LBp k ek m' e.
Proof. unfold LBp. intros H Hle He. specialize (H He). lia. Qed.

Lemma LBp_digits p e : LBp 1 (Zpos (digits2_pos p) + e - 1) (Zpos p) e.
Proof.
  unfold LBp. intros _. pose proof (digits2_pos_bounds p) as [Hlo _].
  replace (Zpos (digits2_pos p) + e - 1 - e) with (Zpos (digits2_pos p) - 1) by lia. lia.
Qed.

Lemma LBp_pos m e D : LBp 1 D m e -> e <= D -> 0 < m.
Proof.
  unfold LBp. intros H He. specialize (H He).
  assert (0 < 2 ^ (D - e)) by (apply Z.pow_pos_nonneg; lia). lia.
Qed.

Lemma shr_fexp_lower m e l k ek :
  0 < m -> -1074 <= e -> LBp k ek m e ->
  exists mrs' e',
    shr_fexp prec emax m e l = (mrs', e')
    /\ 0 < shr_m mrs' /\ e <= e' /\ LBp k ek (shr_m mrs') e'.
Proof.
  intros Hm He HL. unfold shr_fexp.
  destruct m as [| p | p]; try lia. simpl Zdigits2.
  set (D := Zpos (digits2_pos p) + e - 1).
  set (n := fexp prec emax (Zpos (digits2_pos p) + e) - e).
  destruct (shr_inv
              (fun j mrs => 0 <= shr_m mrs /\ LBp k ek (shr_m mrs) (e + j)
                            /\ LBp 1 D (shr_m mrs) (e + j))
              ltac:(intros j x Hj (H0 & H1 & H2); rewrite shr_m_shr_1 by exact H0;
                    rewrite Z.add_assoc; repeat split;
                    [apply Z.div_pos; lia | now apply LBp_half | now apply LBp_half])
              (shr_record_of_loc (Zpos p) l) e n) as (mrs' & Heq & H0 & H1 & H2).
  { rewrite shr_m_of_loc, Z.add_0_r. repeat split; [lia | exact HL | apply LBp_digits]. }
  exists mrs', (e + Z.max 0 n). split; [exact Heq |].
  assert (HeD : e + Z.max 0 n <= D).
  { unfold n, D. rewrite fexp_eq. pose proof (Pos2Z.is_pos (digits2_pos p)). lia. }
  split; [exact (LBp_pos _ _ _ H2 HeD) |]. split; [lia | exact H1].
Qed.

Lemma binary_round_aux_lower m e l k ek :
  0 < m -> -1074 <= e -> LBp k ek m e ->
  binary_round_aux prec emax false m e l = S754_infinity false
  \/ exists m' e',
       binary_round_aux prec emax false m e l = S754_finite false m' e'
       /\ LBp k ek (Zpos m') e'.
Proof.
  intros Hm He HL. unfold binary_round_aux.
  destruct (shr_fexp_lower m e l k ek Hm He HL) as (mrs1 & e1 & -> & Hm1 & He1 & HL1).
  pose proof (round_nearest_even_bounds (shr_m mrs1) (loc_of_shr_record mrs1)) as [Hr _].
  destruct (shr_fexp_lower (round_nearest_even (shr_m mrs1) (loc_of_shr_record mrs1))
              e1 loc_Exact k ek) as (mrs2 & e2 & -> & Hm2 & He2 & HL2);
    [lia | lia | now apply LBp_le with (shr_m mrs1) |].
  destruct (shr_m mrs2) as [| p | p]; try lia.
  destruct (e2 <=? emax - prec); [right | left; reflexivity].
  eauto.
Qed.

Lemma Pos_iter_xO p d : Zpos (Pos.iter xO p d) = Zpos p * 2 ^ Zpos d.
Proof.
  induction d as [| d IH] using Pos.peano_ind.
  - simpl. lia.
  - rewrite Pos.iter_succ, (Pos2Z.inj_xO (Pos.iter xO p d)), IH, Pos2Z.inj_succ, Z.pow_succ_r by lia. lia.
Qed.

Lemma shl_align_spec p e e' :
  exists p' e'',
    shl_align p e e' = (p', e'') /\ e'' = Z.min e e' /\ Zpos p' = Zpos p * 2 ^ (e - e'').
Proof.
  unfold shl_align. destruct (e' - e) as [| d | d] eqn:Hd.
  - exists p, e. repeat split; [lia |]. rewrite Z.sub_diag. simpl. lia.
  - exists p, e. repeat split; [lia |]. rewrite Z.sub_diag. simpl. lia.
  - exists (Pos.iter xO p d), e'. repeat split; [lia |].
    rewrite Pos_iter_xO. f_equal. f_equal. lia.
Qed.

Lemma binary_round_lower p e k ek :
  -1074 <= e -> e <= ek -> LBp k ek (Zpos p) e ->
  binary_round prec emax false p e = S754_infinity false
  \/ exists m' e',
       binary_round prec emax false p e = S754_finite false m' e'
       /\ LBp k ek (Zpos m') e'.
Proof.
  intros He Hek HL. unfold binary_round.
  destruct (shl_align_spec p e (fexp prec emax (Zpos (digits2_pos p) + e)))
    as (mz & ez & -> & Hez & Hmz).
  apply binary_round_aux_lower; [lia | rewrite fexp_eq in Hez; lia |].
  unfold LBp in *. intros _. rewrite Hmz.
  replace (ek - ez) with ((ek - e) + (e - ez)) by lia.
  rewrite Z.pow_add_r by lia.
  specialize (HL Hek).
  assert (0 <= 2 ^ (e - ez)) by (apply Z.pow_nonneg; lia).
  nia.
Qed.

Lemma canonical_emin m e : canonical_mantissa prec emax m e = true -> -1074 <= e.
Proof.
  unfold canonical_mantissa. rewrite fexp_eq. intros H. apply Z.eqb_eq in H. lia.
Qed.

Lemma bounded_canonical m e :
  bounded prec emax m e = true -> canonical_mantissa prec emax m e = true.
Proof. unfold bounded. intros H. now apply andb_true_iff in H. Qed.

(** Among canonical numbers the order is the order of (exponent, mantissa). *)
Lemma canonical_le mx ex m e :
  canonical_mantissa prec emax mx ex = true ->
  canonical_mantissa prec emax m e = true ->
  LBp (Zpos mx) ex (Zpos m) e ->
  SFleb (S754_finite false mx ex) (S754_finite false m e) = true.
Proof.
  unfold canonical_mantissa. rewrite !fexp_eq. intros Hx Hr HL.
  apply Z.eqb_eq in Hx, Hr.
  unfold SFleb, SFcompare.
  destruct (Z.compare_spec ex e) as [Heq | Hlt | Hgt]; [| reflexivity |].
  - subst e. unfold LBp in HL. specialize (HL (Z.le_refl _)).
    rewrite Z.sub_diag in HL. simpl in HL.
    change (Pos.compare_cont Eq mx m) with (Pos.compare mx m).
    destruct (Pos.compare_spec mx m); try reflexivity. lia.
  - exfalso. unfold LBp in HL. specialize (HL ltac:(lia)).
    pose proof (digits2_pos_bounds mx) as [Xlo _].
    pose proof (digits2_pos_bounds m) as [_ Rhi].
    assert (Hdx : Zpos (digits2_pos mx) = 53) by lia.
    rewrite Hdx in Xlo. simpl in Xlo.
    assert (H2 : 2 ^ 1 <= 2 ^ (ex - e)) by (apply Z.pow_le_mono_r; lia).
    assert (Hdm : Zpos (digits2_pos m) <= 53) by lia.
    assert (2 ^ Zpos (digits2_pos m) <= 2 ^ 53) by (apply Z.pow_le_mono_r; lia).
    simpl in H2. change (2 ^ 53) with 9007199254740992 in *.
    change (2 ^ (53 - 1)) with 4503599627370496 in *. nia.
Qed.

(** Adding a positive number to a non-negative one never gives less. *)
Lemma SFadd_lower mx ex my ey :
  valid_binary (S754_finite false mx ex) = true ->
  valid_binary (S754_finite false my ey) = true ->
  valid_binary
    (SFadd prec emax (S754_finite false mx ex) (S754_finite false my ey)) = true ->
  SFleb (S754_finite false mx ex)
    (SFadd prec emax (S754_finite false mx ex) (S754_finite false my ey)) = true.
Proof.
  simpl valid_binary at 1 2. intros Vx Vy Vr.
  apply bounded_canonical in Vx, Vy.
  pose proof (canonical_emin _ _ Vx) as Ex. pose proof (canonical_emin _ _ Vy) as Ey.
  revert Vr. unfold SFadd.
  destruct (shl_align_spec mx ex (Z.min ex ey)) as (a & ea & Ha & Hea & Hva).
  destruct (shl_align_spec my ey (Z.min ex ey)) as (b & eb & Hb & Heb & Hvb).
  rewrite Ha, Hb. simpl fst. simpl cond_Zopp.
  change (Zpos a + Zpos b) with (Zpos (a + b)). simpl binary_normalize.
  destruct (binary_round_lower (a + b) (Z.min ex ey) (Zpos mx) ex) as [-> | (m' & e' & -> & HL)];
    [lia | lia | | reflexivity |].
  - unfold LBp. intros _. rewrite Pos2Z.inj_add, Hva.
    replace ea with (Z.min ex ey) by lia. lia.
  - simpl valid_binary. intros Vr. apply bounded_canonical in Vr.
    now apply canonical_le.
Qed.

(** ** Primitive floats: order *)

Lemma Prim2SF_zero : Prim2SF 0 = S754_zero false.
Proof. reflexivity. Qed.

Lemma Prim2SF_one : Prim2SF 1 = S754_finite false 4503599627370496 (-52).
Proof. reflexivity. Qed.

Lemma leb_trans x y z :
  (x <=? y)%float = true -> (y <=? z)%float = true -> (x <=? z)%float = true.
Proof. rewrite !leb_spec. apply SFleb_trans. Qed.

Lemma ltb_false_leb x y :
  (x <=? x)%float = true -> (y <=? y)%float = true ->
  (x <? y)%float = false -> (y <=? x)%float = true.
Proof.
  rewrite !leb_spec, ltb_spec. intros Hx Hy.
  apply SFltb_false_leb; [apply (SFleb_not_nan _ _ Hx) | apply (SFleb_not_nan _ _ Hy)].
Qed.

Lemma leb_ltb_false x y : (x <=? y)%float = true -> (y <? x)%float = false.
Proof. rewrite leb_spec, ltb_spec. apply SFleb_ltb_false. Qed.

Lemma ltb_leb x y : (x <? y)%float = true -> (x <=? y)%float = true.
Proof. rewrite leb_spec, ltb_spec. apply SFltb_leb. Qed.

Lemma leb_refl_l x y : (x <=? y)%float = true -> (x <=? x)%float = true.
Proof.
  rewrite !leb_spec. intros H. apply SFleb_refl, (SFleb_not_nan _ _ H).
Qed.

Lemma leb_refl_r x y : (x <=? y)%float = true -> (y <=? y)%float = true.
Proof.
  rewrite !leb_spec. intros H. apply SFleb_refl, (SFleb_not_nan _ _ H).
Qed.

Lemma ltb_refl_r x y : (x <? y)%float = true -> (y <=? y)%float = true.
Proof. intros H. apply ltb_leb in H. eapply leb_refl_r; eauto. Qed.

Lemma leb_zero_nonneg x : (0 <=? x)%float = true <-> nonneg (Prim2SF x).
Proof.
  rewrite leb_spec, Prim2SF_zero.
  destruct (Prim2SF x) as [s | [] | | [] m e]; simpl; intuition discriminate.
Qed.

(** [x <= x + c] for a non-negative [x] and a positive number [c]. *)
Lemma add_ge_left x c mc ec :
  Prim2SF c = S754_finite false mc ec ->
  (0 <=? x)%float = true -> (x <=? x + c)%float = true.
Proof.
  intros Hc Hx. apply leb_zero_nonneg in Hx.
  pose proof (Prim2SF_valid x) as Vx. pose proof (Prim2SF_valid c) as Vc.
  pose proof (Prim2SF_valid (x + c)) as Vr.
  rewrite leb_spec, add_spec. rewrite add_spec in Vr. rewrite Hc in *.
  destruct (Prim2SF x) as [s | [] | | [] m e]; try contradiction.
  - reflexivity.
  - reflexivity.
  - now apply SFadd_lower.
Qed.

(** ** The double nearest to an integer *)

Lemma shr_value mrs e n :
  0 <= shr_m mrs ->
  exists mrs',
    shr mrs e n = (mrs', e + Z.max 0 n)
    /\ shr_m mrs' = shr_m mrs / 2 ^ Z.max 0 n.
Proof.
  intros H0.
  destruct (shr_inv (fun j x => 0 <= shr_m x /\ shr_m x = shr_m mrs / 2 ^ j)
              ltac:(intros j x Hj [Hx Hv]; rewrite shr_m_shr_1 by exact Hx; split;
                    [apply Z.div_pos; lia |];
                    rewrite Hv, Z.div_div, Z.pow_add_r by
                      (try apply Z.pow_nonzero; lia); reflexivity)
              mrs e n) as (mrs' & Heq & _ & Hv).
  { split; [exact H0 |]. simpl. now rewrite Z.div_1_r. }
  eauto.
Qed.

Lemma digits_div p n :
  0 <= n < Zpos (digits2_pos p) ->
  exists q, Zpos p / 2 ^ n = Zpos q
            /\ Zpos (digits2_pos q) = Zpos (digits2_pos p) - n.
Proof.
  intros Hn. pose proof (digits2_pos_bounds p) as [Hlo Hhi].
  set (d := Zpos (digits2_pos p)) in *.
  assert (Hp : 0 < 2 ^ n) by (apply Z.pow_pos_nonneg; lia).
  assert (Hlo' : 2 ^ (d - n - 1) <= Zpos p / 2 ^ n).
  { apply Z.div_le_lower_bound; [exact Hp |].
    rewrite <- Z.pow_add_r by lia. now replace (n + (d - n - 1)) with (d - 1) by lia. }
  assert (Hhi' : Zpos p / 2 ^ n < 2 ^ (d - n)).
  { apply Z.div_lt_upper_bound; [exact Hp |].
    rewrite <- Z.pow_add_r by lia. now replace (n + (d - n)) with d by lia. }
  assert (0 < 2 ^ (d - n - 1)) by (apply Z.pow_pos_nonneg; lia).
  destruct (Zpos p / 2 ^ n) as [| q | q] eqn:Hq; try lia.
  exists q. split; [reflexivity |]. apply digits2_pos_unique. split; [exact Hlo' | exact Hhi'].
Qed.

Lemma digits_mul p q c :
  0 <= c -> Zpos q = Zpos p * 2 ^ c ->
  Zpos (digits2_pos q) = Zpos (digits2_pos p) + c.
Proof.
  intros Hc Hq. pose proof (digits2_pos_bounds p) as [Hlo Hhi].
  assert (Hp : 0 < 2 ^ c) by (apply Z.pow_pos_nonneg; lia).
  apply digits2_pos_unique. rewrite Hq.
  replace (Zpos (digits2_pos p) + c - 1) with ((Zpos (digits2_pos p) - 1) + c) by lia.
  rewrite !Z.pow_add_r by lia. nia.
Qed.

Lemma shr_pos_shr_1 mrs :
  0 <= shr_m mrs ->
  0 <= shr_m (shr_1 mrs)
  /\ shr_pos (shr_1 mrs) = 2 * shr_m mrs + (if shr_r mrs || shr_s mrs then 1 else 0).
Proof.
  destruct mrs as [m r s]. unfold shr_pos. simpl. intros Hm.
  destruct m as [| p | p]; [simpl; lia | | lia].
  destruct p as [p | p |]; simpl shr_m; simpl shr_r; simpl shr_s.
  - rewrite (Pos2Z.inj_xI p). lia.
  - rewrite (Pos2Z.inj_xO p). lia.
  - lia.
Qed.

Lemma shr_1_mono a b : shr_le a b -> shr_le (shr_1 a) (shr_1 b).
Proof.
  intros (Ha & Hb & Hle).
  destruct (shr_pos_shr_1 a Ha) as [Ha' Pa]. destruct (shr_pos_shr_1 b Hb) as [Hb' Pb].
  split; [exact Ha' |]. split; [exact Hb' |]. rewrite Pa, Pb.
  unfold shr_pos in Hle.
  destruct (shr_r a), (shr_s a), (shr_r b), (shr_s b); simpl; lia.
Qed.

Lemma iter_pos_rel {A} (f : A -> A) (R : A -> A -> Prop) :
  (forall x y, R x y -> R (f x) (f y)) ->
  forall p x y, R x y -> R (SpecFloat.iter_pos f p x) (SpecFloat.iter_pos f p y).
Proof.
  intros Hstep. induction p as [p IH | p IH |]; intros x y H; simpl; auto.
Qed.

Lemma rne_mono a b : shr_le a b -> rne a <= rne b.
Proof.
  intros (Ha & Hb & Hle). unfold rne, shr_pos in *.
  destruct a as [ma ra sa], b as [mb rb sb]. simpl in *.
  destruct (Z.eq_dec ma mb) as [-> | Hne].
  - destruct ra, sa, rb, sb; simpl; try lia; destruct (Z.even mb); lia.
  - assert (ma < mb) by (destruct ra, sa, rb, sb; lia).
    destruct ra, sa, rb, sb; simpl; destruct (Z.even ma), (Z.even mb); lia.
Qed.

Lemma binary_round_aux_eq sx m e l :
  binary_round_aux prec emax sx m e l
  = let '(mrs, e') := shr_fexp prec emax m e l in finish sx (rne mrs) e'.
Proof. reflexivity. Qed.

Lemma shr_fexp_eq p e l n :
  n = fexp prec emax (Zpos (digits2_pos p) + e) - e ->
  shr_fexp prec emax (Zpos p) e l = shr (shr_record_of_loc (Zpos p) l) e n.
Proof. intros ->. reflexivity. Qed.

Lemma finish_norm m a :
  4503599627370496 <= m <= 9007199254740992 -> -1074 <= a ->
  finish false m a = FI (norm m a).
Proof.
  intros Hm Ha. unfold norm. destruct (Z.ltb_spec m 9007199254740992) as [Hlt | Hge].
  - destruct m as [| q | q]; try lia.
    assert (Hd : Zpos (digits2_pos q) = 53) by (apply digits2_pos_unique; simpl; lia).
    unfold finish. rewrite (shr_fexp_eq q a loc_Exact 0)
      by (rewrite Hd, fexp_eq; lia).
    reflexivity.
  - assert (m = 9007199254740992) by lia. subst m.
    unfold finish. rewrite (shr_fexp_eq _ a loc_Exact 1)
      by (simpl digits2_pos; rewrite fexp_eq; lia).
    reflexivity.
Qed.

Lemma mant_range p : 4503599627370496 <= mant p <= 9007199254740992.
Proof.
  unfold mant. set (d := Zpos (digits2_pos p)).
  pose proof (digits2_pos_bounds p) as [Hlo Hhi]. fold d in Hlo, Hhi.
  destruct (Z.leb_spec d 53) as [Hd | Hd].
  - assert (H52 : 2 ^ (d - 1) * 2 ^ (53 - d) = 4503599627370496).
    { rewrite <- Z.pow_add_r by (unfold d; lia).
      now replace (d - 1 + (53 - d)) with 52 by lia. }
    assert (H53 : 2 ^ d * 2 ^ (53 - d) = 9007199254740992).
    { rewrite <- Z.pow_add_r by (unfold d; lia).
      now replace (d + (53 - d)) with 53 by lia. }
    assert (0 < 2 ^ (53 - d)) by (apply Z.pow_pos_nonneg; lia).
    nia.
  - destruct (shr_value {| shr_m := Zpos p; shr_r := false; shr_s := false |} 0 (d - 53))
      as (mrs' & Heq & Hv); [simpl; lia |].
    unfold shr in Heq. destruct (d - 53) as [| a | a] eqn:Ha; try lia.
    simpl Z.to_pos. pose proof (f_equal fst Heq) as Hm. simpl in Hm. rewrite Hm.
    simpl shr_m in Hv. replace (Z.max 0 (Zpos a)) with (Zpos a) in Hv by lia.
    destruct (digits_div p (Zpos a)) as (q & Hq & Hdq); [fold d; lia |].
    fold d in Hdq. rewrite Hq in Hv.
    pose proof (digits2_pos_bounds q) as [Qlo Qhi].
    replace (Zpos (digits2_pos q)) with 53 in * by lia.
    pose proof (round_nearest_even_bounds (shr_m mrs') (loc_of_shr_record mrs')) as Hr.
    unfold rne. rewrite Hv in *. simpl in Qlo, Qhi. lia.
Qed.

Lemma binary_round_Bkey p : binary_round prec emax false p 0 = FI (Bkey p).
Proof.
  unfold Bkey. pose proof (mant_range p) as Hrange. revert Hrange.
  unfold mant. set (d := Zpos (digits2_pos p)).
  assert (Hd1 : 1 <= d) by (unfold d; lia).
  unfold binary_round.
  destruct (shl_align_spec p 0 (fexp prec emax (Zpos (digits2_pos p) + 0)))
    as (mz & ez & -> & Hez & Hmz).
  rewrite Z.add_0_r, fexp_eq in Hez. fold d in Hez.
  rewrite binary_round_aux_eq.
  destruct (Z.leb_spec d 53) as [Hd | Hd]; intros Hrange.
  - assert (Hdz : Zpos (digits2_pos mz) = 53).
    { rewrite (digits_mul p mz (0 - ez)) by (fold d; lia). fold d. lia. }
    rewrite (shr_fexp_eq mz ez loc_Exact 0) by (rewrite Hdz, fexp_eq; lia).
    simpl shr. unfold rne. simpl.
    replace (0 - ez) with (53 - d) in Hmz by lia. rewrite Hmz.
    replace ez with (d - 53) by lia.
    apply finish_norm; lia.
  - assert (Hmzp : mz = p).
    { replace (0 - ez) with 0 in Hmz by lia. simpl in Hmz. lia. }
    subst mz. replace ez with 0 by lia.
    rewrite (shr_fexp_eq p 0 loc_Exact (d - 53)) by (rewrite fexp_eq; fold d; lia).
    unfold shr. destruct (d - 53) as [| a | a] eqn:Ha; try lia.
    simpl Z.to_pos in *. simpl shr_record_of_loc.
    rewrite Z.add_0_l. apply finish_norm; [exact Hrange | lia].
Qed.

Lemma norm_mono m a m' a' :
  4503599627370496 <= m <= 9007199254740992 ->
  4503599627370496 <= m' <= 9007199254740992 ->
  a < a' \/ (a = a' /\ m <= m') ->
  lex2 (norm m a) (norm m' a').
Proof.
  intros Hm Hm' H. unfold norm, lex2.
  destruct (Z.ltb_spec m 9007199254740992), (Z.ltb_spec m' 9007199254740992); simpl; lia.
Qed.

Lemma norm_range m a :
  4503599627370496 <= m <= 9007199254740992 ->
  4503599627370496 <= snd (norm m a) < 9007199254740992
  /\ a <= fst (norm m a).
Proof.
  intros Hm. unfold norm.
  destruct (Z.ltb_spec m 9007199254740992); simpl; lia.
Qed.

Lemma Bkey_range p :
  4503599627370496 <= snd (Bkey p) < 9007199254740992 /\ -52 <= fst (Bkey p).
Proof.
  unfold Bkey.
  destruct (norm_range (mant p) (Zpos (digits2_pos p) - 53) (mant_range p)) as [H1 H2].
  split; [exact H1 | lia].
Qed.

Lemma Bkey_mono p q : Zpos p <= Zpos q -> lex2 (Bkey p) (Bkey q).
Proof.
  intros Hle. unfold Bkey.
  apply norm_mono; [apply mant_range | apply mant_range |].
  pose proof (digits2_pos_le p q Hle) as Hd.
  destruct (Z.eq_dec (Zpos (digits2_pos p)) (Zpos (digits2_pos q))) as [Heq | Hne];
    [right | left; lia].
  split; [lia |]. unfold mant. rewrite <- Heq.
  destruct (Z.leb_spec (Zpos (digits2_pos p)) 53) as [Hs | Hs].
  - apply Z.mul_le_mono_nonneg_r; [apply Z.pow_nonneg; lia | exact Hle].
  - apply rne_mono. apply iter_pos_rel; [exact shr_1_mono |].
    unfold shr_le, shr_pos. simpl. lia.
Qed.

Lemma FI_valid em :
  4503599627370496 <= snd em < 9007199254740992 -> -52 <= fst em ->
  valid_binary (FI em) = true.
Proof.
  destruct em as [e m]. simpl. intros Hm He. unfold FI. simpl.
  destruct m as [| q | q]; try lia.
  destruct (Z.leb_spec e 971) as [Hle | Hgt]; [| reflexivity].
  simpl. unfold bounded, canonical_mantissa.
  assert (Hd : Zpos (digits2_pos q) = 53) by (apply digits2_pos_unique; simpl; lia).
  rewrite Hd, fexp_eq. change (emax - prec) with 971.
  apply andb_true_iff. split; [apply Z.eqb_eq | apply Z.leb_le]; lia.
Qed.

(** The double nearest to an integer, as [binary_normalize] computes it. *)
Lemma Prim2SF_Z2F z :
  0 <= z -> Prim2SF (Z2F z) = binary_normalize prec emax z 0 false.
Proof.
  intros Hz. unfold Z2F. apply Prim2SF_SF2Prim.
  destruct z as [| p | p]; [reflexivity | | lia].
  simpl binary_normalize. rewrite binary_round_Bkey.
  destruct (Bkey_range p). now apply FI_valid.
Qed.

(** ** A quotient of a smaller by a larger number is at most one *)

Lemma below_one_shr_1 e mrs : below_one e mrs -> below_one (e + 1) (shr_1 mrs).
Proof.
  unfold below_one. intros H He. destruct H as [H0 H]; [lia |].
  assert (HT : 2 ^ (- e) = 2 * 2 ^ (- (e + 1))).
  { rewrite <- Z.pow_succ_r by lia. f_equal. lia. }
  assert (HT' : 0 < 2 ^ (- (e + 1))) by (apply Z.pow_pos_nonneg; lia).
  rewrite HT in H. set (T := 2 ^ (- (e + 1))) in *.
  split; [rewrite shr_m_shr_1 by exact H0; apply Z.div_pos; lia |].
  destruct H as [H | (Hm & Hr & Hs)].
  - left. rewrite shr_m_shr_1 by exact H0.
    assert (shr_m mrs / 2 < T) by (apply Z.div_lt_upper_bound; lia). lia.
  - right. destruct mrs as [m r s]. simpl in *. subst r s.
    destruct m as [| p | p]; try lia.
    destruct p as [p | p |]; simpl.
    + rewrite (Pos2Z.inj_xI p) in Hm. lia.
    + rewrite (Pos2Z.inj_xO p) in Hm. split; [lia | auto].
    + lia.
Qed.

Lemma below_one_digits e m :
  e <= 0 -> 0 <= m <= 2 ^ (- e) -> Zdigits2 m + e <= 1.
Proof.
  intros He [H0 Hm]. destruct m as [| p | p]; simpl; try lia.
  pose proof (digits2_pos_bounds p) as [Hlo _].
  destruct (Z.leb_spec (Zpos (digits2_pos p) + e) 1) as [H | H]; [exact H |].
  assert (2 ^ (- e + 1) <= 2 ^ (Zpos (digits2_pos p) - 1)) by (apply Z.pow_le_mono_r; lia).
  rewrite Z.pow_add_r in * by lia. simpl in *. 
  assert (0 < 2 ^ (- e)) by (apply Z.pow_pos_nonneg; lia). lia.
Qed.

Lemma shr_fexp_below_one m e l :
  e <= 0 -> 0 <= m <= 2 ^ (- e) ->
  below_one e (shr_record_of_loc m l) ->
  exists mrs' e',
    shr_fexp prec emax m e l = (mrs', e') /\ e' <= 0 /\ below_one e' mrs'.
Proof.
  intros He Hm HU. unfold shr_fexp.
  set (n := fexp prec emax (Zdigits2 m + e) - e).
  destruct (shr_inv (fun j mrs => below_one (e + j) mrs)
              ltac:(intros j x Hj Hx; cbv beta in *; rewrite Z.add_assoc; now apply below_one_shr_1)
              (shr_record_of_loc m l) e n) as (mrs' & Heq & HU').
  { now rewrite Z.add_0_r. }
  exists mrs', (e + Z.max 0 n). split; [exact Heq |]. split; [| exact HU'].
  pose proof (below_one_digits e m He Hm). unfold n. rewrite fexp_eq. lia.
Qed.

Lemma rne_below_one e mrs :
  e <= 0 -> below_one e mrs -> 0 <= rne mrs <= 2 ^ (- e).
Proof.
  intros He HU. destruct (HU He) as [H0 H]. unfold rne.
  pose proof (round_nearest_even_bounds (shr_m mrs) (loc_of_shr_record mrs)) as Hr.
  destruct H as [H | (Hm & Hr' & Hs)]; [lia |].
  destruct mrs as [m r s]. simpl in *. subst r s. simpl. lia.
Qed.

Lemma finish_below_one m e :
  e <= 0 -> 0 <= m <= 2 ^ (- e) ->
  valid_binary (finish false m e) = true ->
  SFltb (Prim2SF 1) (finish false m e) = false.
Proof.
  intros He Hm. unfold finish, shr_fexp.
  set (n := fexp prec emax (Zdigits2 m + e) - e).
  destruct (shr_value (shr_record_of_loc m loc_Exact) e n) as (mrs & -> & Hv);
    [simpl; lia |].
  simpl shr_m in Hv.
  assert (He2 : e + Z.max 0 n <= 0).
  { pose proof (below_one_digits e m He Hm). unfold n. rewrite fexp_eq. lia. }
  set (e2 := e + Z.max 0 n) in *.
  assert (Hm2 : 0 <= shr_m mrs <= 2 ^ (- e2)).
  { rewrite Hv. split; [apply Z.div_pos; [lia | apply Z.pow_pos_nonneg; lia] |].
    apply Z.div_le_upper_bound; [apply Z.pow_pos_nonneg; lia |].
    rewrite <- Z.pow_add_r by lia. replace (Z.max 0 n + - e2) with (- e) by (unfold e2; lia).
    lia. }
  destruct (shr_m mrs) as [| p | p]; [reflexivity | | lia].
  destruct (Z.leb_spec e2 (emax - prec)) as [_ | Hgt]; [| change (emax - prec) with 971 in Hgt; lia].
  simpl valid_binary. intros Hvalid. apply bounded_canonical in Hvalid.
  unfold canonical_mantissa in Hvalid. rewrite fexp_eq in Hvalid. apply Z.eqb_eq in Hvalid.
  pose proof (below_one_digits e2 (Zpos p) He2 Hm2) as Hd. simpl in Hd.
  rewrite Prim2SF_one. unfold SFltb, SFcompare.
  destruct (Z.compare_spec (-52) e2) as [Heq | Hlt | Hgt]; [| lia | reflexivity].
  subst e2. rewrite <- Heq in Hm2. simpl in Hm2.
  change (Pos.compare_cont Eq 4503599627370496 p) with (Pos.compare 4503599627370496 p).
  destruct (Pos.compare_spec 4503599627370496 p); try reflexivity. lia.
Qed.

Lemma new_location_zero n : new_location n 0 = loc_Exact.
Proof. unfold new_location. destruct (Z.even n); reflexivity. Qed.

Lemma SFdiv_le_one mx ex my ey :
  Zpos mx < 9007199254740992 -> 4503599627370496 <= Zpos my ->
  ex < ey \/ (ex = ey /\ Zpos mx <= Zpos my) ->
  valid_binary (SFdiv prec emax (S754_finite false mx ex) (S754_finite false my ey)) = true ->
  SFltb (Prim2SF 1)
    (SFdiv prec emax (S754_finite false mx ex) (S754_finite false my ey)) = false.
Proof.
  intros Hmx Hmy Hord. unfold SFdiv, SFdiv_core_binary.
  set (e' := Z.min (fexp prec emax (Zdigits2 (Zpos mx) + ex - (Zdigits2 (Zpos my) + ey)))
                   (ex - ey)).
  set (s := ex - ey - e').
  set (m' := match s with Zpos _ => Z.shiftl (Zpos mx) s | Z0 => Zpos mx | Zneg _ => 0 end).
  assert (He' : e' <= 0) by (unfold e'; lia).
  assert (Hs : 0 <= s) by (unfold s, e'; lia).
  assert (Hm' : m' = Zpos mx * 2 ^ s).
  { unfold m'. destruct s as [| ps | ps] eqn:Es; [simpl; lia | | lia].
    apply Z.shiftl_mul_pow2. lia. }
  assert (Hbound : m' <= 2 ^ (- e') * Zpos my).
  { rewrite Hm'. destruct Hord as [Hlt | [Heq Hle]].
    - replace (- e') with (s + (ey - ex)) by (unfold s; lia).
      rewrite Z.pow_add_r by lia.
      assert (HP : 2 ^ 1 <= 2 ^ (ey - ex)) by (apply Z.pow_le_mono_r; lia).
      assert (HS : 0 < 2 ^ s) by (apply Z.pow_pos_nonneg; lia).
      change (2 ^ 1) with 2 in HP.
      assert (H1 : Zpos mx <= 2 ^ (ey - ex) * Zpos my) by nia.
      rewrite (Z.mul_comm (Zpos mx)), <- Z.mul_assoc.
      apply Z.mul_le_mono_nonneg_l; [lia | exact H1].
    - replace (- e') with s by (unfold s; lia).
      assert (0 < 2 ^ s) by (apply Z.pow_pos_nonneg; lia). nia. }
  pose proof (Z_div_mod m' (Zpos my) ltac:(lia)) as Hdiv.
  destruct (Z.div_eucl m' (Zpos my)) as [q r]. destruct Hdiv as [Hqr Hr].
  assert (HT : 0 < 2 ^ (- e')) by (apply Z.pow_pos_nonneg; lia).
  assert (Hq0 : 0 <= q).
  { assert (0 <= m') by (rewrite Hm'; apply Z.mul_nonneg_nonneg; [lia | apply Z.pow_nonneg; lia]).
    nia. }
  assert (Hq : q + 1 <= 2 ^ (- e') \/ (q = 2 ^ (- e') /\ r = 0)) by nia.
  simpl xorb. rewrite binary_round_aux_eq.
  destruct (shr_fexp_below_one q e' (new_location (Zpos my) r) He')
    as (mrs1 & e1 & -> & He1 & HU1).
  { lia. }
  { intros _. rewrite shr_m_of_loc. split; [exact Hq0 |].
    destruct Hq as [Hq | [Hq Hr0]]; [left; exact Hq | right].
    subst r. rewrite new_location_zero. simpl. auto. }
  apply finish_below_one; [exact He1 | now apply rne_below_one].
Qed.

Lemma unsigned_nonneg f : unsigned f -> nonneg f.
Proof. destruct f as [[] | [] | | [] m e]; simpl; auto. Qed.

Lemma binary_round_aux_unsigned m e l :
  let r := binary_round_aux prec emax false m e l in
  unsigned r \/ r = S754_nan.
Proof.
  simpl. unfold binary_round_aux.
  destruct (shr_fexp prec emax m e l) as [mrs1 e1].
  destruct (shr_fexp prec emax _ e1 loc_Exact) as [mrs2 e2].
  destruct (shr_m mrs2); [left; exact I | | right; reflexivity].
  destruct (e2 <=? emax - prec); left; exact I.
Qed.

Lemma SFdiv_unsigned x y :
  unsigned x -> unsigned y ->
  unsigned (SFdiv prec emax x y) \/ SFdiv prec emax x y = S754_nan.
Proof.
  destruct x as [[] | [] | | [] mx ex], y as [[] | [] | | [] my ey];
    simpl; try contradiction; intros _ _; auto.
  match goal with
  | |- context [SFdiv_core_binary ?p ?e ?a ?b ?c ?d] =>
      destruct (SFdiv_core_binary p e a b c d) as [[mz ez] lz]
  end.
  apply binary_round_aux_unsigned.
Qed.

Lemma Z2F_unsigned z : 0 <= z -> unsigned (Prim2SF (Z2F z)).
Proof.
  intros Hz. rewrite Prim2SF_Z2F by exact Hz.
  destruct z as [| p | p]; [exact I | | lia].
  simpl binary_normalize. rewrite binary_round_Bkey.
  destruct (Bkey_range p) as [Hm _]. unfold FI.
  destruct (snd (Bkey p)); try lia. now destruct (fst (Bkey p) <=? 971).
Qed.

(** The quotient of the doubles nearest to [k] and [n], for [0 <= k <= n],
    is never above one (it is NaN when both are zero). *)
Lemma div_Z2F_le_one k n :
  0 <= k <= n -> (1 <? Z2F k / Z2F n)%float = false.
Proof.
  intros [Hk Hkn].
  pose proof (Prim2SF_valid (Z2F k / Z2F n)) as Hvalid. revert Hvalid.
  rewrite ltb_spec, div_spec, !Prim2SF_Z2F by lia.
  destruct k as [| pk | pk]; [| | lia].
  - destruct n as [| pn | pn]; [reflexivity | | lia].
    simpl binary_normalize. rewrite binary_round_Bkey.
    destruct (Bkey_range pn) as [Hm _]. unfold FI.
    destruct (snd (Bkey pn)); try lia. now destruct (fst (Bkey pn) <=? 971).
  - destruct n as [| pn | pn]; try lia.
    simpl binary_normalize. rewrite !binary_round_Bkey.
    pose proof (Bkey_mono pk pn Hkn) as Hmono.
    destruct (Bkey_range pk) as [Hmk _]. destruct (Bkey_range pn) as [Hmn _].
    unfold FI, lex2 in *.
    destruct (Bkey pk) as [ek mk], (Bkey pn) as [en mn]. simpl in *.
    destruct mk as [| mk | mk]; try lia. destruct mn as [| mn | mn]; try lia.
    destruct (Z.leb_spec ek 971), (Z.leb_spec en 971); try reflexivity; try lia.
    apply SFdiv_le_one; lia.
Qed.

Lemma div_Z2F_nonneg k n :
  0 <= k -> 0 <= n ->
  (Z2F k / Z2F n <=? Z2F k / Z2F n)%float = true ->
  (0 <=? Z2F k / Z2F n)%float = true.
Proof.
  intros Hk Hn Hnan. apply leb_zero_nonneg.
  rewrite leb_spec in Hnan. apply SFleb_not_nan in Hnan. destruct Hnan as [Hnan _].
  rewrite div_spec in *. unfold SF64div in *.
  destruct (SFdiv_unsigned (Prim2SF (Z2F k)) (Prim2SF (Z2F n))) as [H | H];
    [now apply Z2F_unsigned | now apply Z2F_unsigned | now apply unsigned_nonneg |].
  rewrite H in Hnan. discriminate.
Qed.

End Binary64_facts.

(** ** Row count *)

Lemma _check_row_count_pass E df cfg p w :
  (min_row_count cfg <= len df)%Z -> _check_row_count E df cfg p w = (Ok tt, w).
Proof.
  intros H. unfold _check_row_count.
  destruct (Z.ltb_spec (len df) (min_row_count cfg)); [lia | reflexivity].
Qed.

Lemma _check_row_count_fail E df cfg p w :
  (len df < min_row_count cfg)%Z ->
  exists e w',
    _check_row_count E df cfg p w = (Raise (DataQualityErr e), w')
    /\ kind e = Some "row_count"
    /\ observed e = Some (NInt (len df))
    /\ threshold e = Some (NInt (min_row_count cfg)).
Proof.
  intros H. unfold _check_row_count.
  destruct (Z.ltb_spec (len df) (min_row_count cfg)); [| lia].
  eexists. eexists. split; [reflexivity | auto].
Qed.

(** C9. With [min_row_count = N] for a positive [N], validating a dataset of
    exactly [N-1] rows raises a data-quality error of kind [row_count] with
    observed [N-1] and threshold [N]; a dataset of exactly [N] rows passes
    the row-count check: the bound is inclusive. *)
Theorem row_count_bound_is_inclusive E config dq N p w :
  k_data_quality config = Some dq ->
  k_min_row_count dq = Some N ->
  (0 < N)%Z ->
  (forall df, len df = (N - 1)%Z ->
     exists e w',
       run_validation E df config p w = (Raise (DataQualityErr e), w')
       /\ kind e = Some "row_count"
       /\ observed e = Some (NInt (N - 1))
       /\ threshold e = Some (NInt N))
  /\ (forall df, len df = N ->
        _check_row_count E df (build_dq_config config) p w = (Ok tt, w)).
Proof.
  intros Hdq HN Hpos.
  assert (Hmin : min_row_count (build_dq_config config) = N).
  { unfold build_dq_config. simpl. rewrite Hdq. simpl. now rewrite HN. }
  split; intros df Hlen.
  - destruct (_check_row_count_fail E df (build_dq_config config) p w)
      as (e & w' & Hrun & Hk & Ho & Ht); [lia |].
    exists e, w'. rewrite Hmin, Hlen in *. repeat split; auto.
    unfold run_validation. now apply bind_raise.
  - apply _check_row_count_pass. lia.
Qed.

Lemma row_count_bound_is_inclusive_witness :
  (exists e w',
     run_validation test_env df_four_rows default_config "p" empty_world
       = (Raise (DataQualityErr e), w')
     /\ kind e = Some "row_count"
     /\ observed e = Some (NInt (5 - 1))
     /\ threshold e = Some (NInt 5))
  /\ _check_row_count test_env df_five_rows (build_dq_config default_config) "p" empty_world
     = (Ok tt, empty_world).
Proof.
  destruct (row_count_bound_is_inclusive test_env default_config
              {| k_max_null_fraction := Some 0.05%float;
                 k_min_row_count := Some 5%Z;
                 k_unique_keys := Some ["transaction_id"] |}
              5%Z "p" empty_world) as [Hfail Hpass];
    [reflexivity | reflexivity | lia |].
  split; [apply (Hfail df_four_rows) | apply (Hpass df_five_rows)]; reflexivity.
Defined.

(** ** Null fraction *)

(** C10. The null-fraction check reads the column named [sales_amount] and
    no other: whatever the configuration says, it is skipped, silently, when
    the data set has no column of that name; when the column is there, the
    verdict is the comparison of [max_null_fraction] with the fraction of
    missing cells of that column, and a failure names [sales_amount] and
    carries that fraction; and any other data set with the same
    [sales_amount] cells gets the same verdict. *)
Theorem null_fraction_column_is_hardcoded E df cfg p w :
  let null_frac := mean (map isna (getitem df "sales_amount")) in
  (has_column df "sales_amount" = false ->
   _check_null_fraction E df cfg p w = (Ok tt, w))
  /\ (has_column df "sales_amount" = true ->
      (max_null_fraction cfg <? null_frac)%float = false ->
      _check_null_fraction E df cfg p w = (Ok tt, w))
  /\ (has_column df "sales_amount" = true ->
      (max_null_fraction cfg <? null_frac)%float = true ->
      exists e ev,
        _check_null_fraction E df cfg p w
        = (Raise (DataQualityErr e), World (heap w) (log w ++ [ev]))
        /\ kind e = Some "null_fraction"
        /\ column e = Some "sales_amount"
        /\ observed e = Some (NFloat null_frac)
        /\ threshold e = Some (NFloat (max_null_fraction cfg))
        /\ event_type ev = "dq_failure"
        /\ In ("column", JStr "sales_amount")
             (match event_details ev with Fields kv => kv | Diagnosis _ => [] end))
  /\ (forall df' cfg',
        has_column df' "sales_amount" = has_column df "sales_amount" ->
        getitem df' "sales_amount" = getitem df "sales_amount" ->
        max_null_fraction cfg' = max_null_fraction cfg ->
        _check_null_fraction E df' cfg' p w = _check_null_fraction E df cfg p w).
Proof.
  intros null_frac. unfold _check_null_fraction. fold null_frac.
  split; [intros H; now rewrite H |].
  split; [intros H Hcmp; now rewrite H, Hcmp |].
  split.
  - intros H Hcmp. rewrite H, Hcmp.
    eexists. eexists. split; [reflexivity |]. repeat split. simpl. tauto.
  - intros df' cfg' Hcol Hcells Hmax. now rewrite Hcol, Hcells, Hmax.
Qed.

Lemma null_fraction_column_is_hardcoded_witness :
  _check_null_fraction test_env df_four_rows (build_dq_config default_config) "p" empty_world
    = (Ok tt, empty_world)
  /\ _check_null_fraction test_env df_nulls_elsewhere (build_dq_config default_config) "p"
       empty_world
     = (Ok tt, empty_world)
  /\ exists e ev,
       _check_null_fraction test_env df_one_null_in_ten (build_dq_config default_config) "p"
         empty_world
       = (Raise (DataQualityErr e), World (heap empty_world) (log empty_world ++ [ev]))
       /\ kind e = Some "null_fraction"
       /\ column e = Some "sales_amount"
       /\ observed e
          = Some (NFloat (mean (map isna (getitem df_one_null_in_ten "sales_amount"))))
       /\ threshold e = Some (NFloat (max_null_fraction (build_dq_config default_config)))
       /\ event_type ev = "dq_failure"
       /\ In ("column", JStr "sales_amount")
            (match event_details ev with Fields kv => kv | Diagnosis _ => [] end).
Proof.
  split; [| split].
  - pose proof (null_fraction_column_is_hardcoded test_env df_four_rows
                  (build_dq_config default_config) "p" empty_world) as H.
    cbv zeta in H. destruct H as (Hskip & _). apply Hskip. reflexivity.
  - pose proof (null_fraction_column_is_hardcoded test_env df_nulls_elsewhere
                  (build_dq_config default_config) "p" empty_world) as H.
    cbv zeta in H. destruct H as (_ & Hpass & _). apply Hpass; reflexivity.
  - pose proof (null_fraction_column_is_hardcoded test_env df_one_null_in_ten
                  (build_dq_config default_config) "p" empty_world) as H.
    cbv zeta in H. destruct H as (_ & _ & Hfail & _). apply Hfail; reflexivity.
Defined.

(** ** Every check logs at most one failure, and only when it stops *)

Lemma world_eta w : World (heap w) (log w ++ []) = w.
Proof. destruct w. simpl. now rewrite app_nil_r. Qed.

Lemma log_causal_event_cases E t d w :
  (json_ok E d = true
   /\ log_causal_event E t d w
      = (Ok tt, World (heap w)
                  (log w ++ [ {| timestamp := utcnow E (List.length (log w));
                                 event_type := t; event_details := d |} ])))
  \/ (json_ok E d = false
      /\ log_causal_event E t d w = (Raise (PyError "TypeError"), w)).
Proof. unfold log_causal_event. destruct (json_ok E d); auto. Qed.






Lemma coerce_pure E series t w :
  coerce E series t w = (Ok tt, w) \/ exists e, coerce E series t w = (Raise e, w).
Proof.
  unfold coerce, to_numeric.
  repeat match goal with
         | |- context [if ?b then _ else _] => destruct b
         end;
    (now left) || (right; eexists; reflexivity).
Qed.



(** ** Freshness: the handler catches everything, also the check's own failure *)

Lemma to_datetime_pure E series w :
  exists r, to_datetime E series w = (r, w).
Proof.
  induction series as [| v rest [r IH]]; simpl; [eexists; reflexivity |].
  unfold mbind, M_bind.
  destruct (isna v); simpl.
  - rewrite IH. destruct r; eexists; reflexivity.
  - destruct (parse_date E v); simpl; [| eexists; reflexivity].
    rewrite IH. destruct r; eexists; reflexivity.
Qed.

Lemma _check_freshness_returns E df cfg p w :
  exists evs,
    _check_freshness E df cfg p w = (Ok tt, World (heap w) (log w ++ evs))
    /\ (List.length evs <= 1)%nat.
Proof.
  assert (Hnone : (Ok tt, w) = (Ok tt, World (heap w) (log w ++ []))).
  { now rewrite world_eta. }
  unfold _check_freshness.
  destruct (negb (truthy_str _) || negb (truthy_int _));
    [exists []; split; [exact Hnone | simpl; lia] |].
  destruct (negb (has_column _ _));
    [exists []; split; [exact Hnone | simpl; lia] |].
  unfold try_except, mbind, M_bind.
  destruct (to_datetime_pure E
              (getitem df (get (freshness_date_column cfg) "")) w) as [r Hr].
  rewrite Hr. destruct r as [dt_series | e];
    [| exists []; split; [exact Hnone | simpl; lia]].
  destruct (series_max dt_series) as [max_date |];
    unfold mret, M_ret, raise; cbv beta iota;
    [| exists []; split; [exact Hnone | simpl; lia]].
  destruct (_ <? _)%Z; [| exists []; split; [exact Hnone | simpl; lia]].
  match goal with |- context [log_causal_event E ?t ?d w] =>
    destruct (log_causal_event_cases E t d w) as [[_ H] | [_ H]]; rewrite H
  end.
  - unfold to_float, float_of_num.
    destruct (float_of_int _); [destruct (float_of_int _) |];
      eexists; (split; [reflexivity | simpl; lia]).
  - exists []. split; [exact Hnone | simpl; lia].
Qed.

(** ** Fail-fast *)








(** ** Schema drift *)

(** C2, as the spec states it, fails: a data set that misses required
    columns and is also too short is reported as [row_count], because the
    row-count and null-fraction checks come first. *)
Lemma schema_drift_masked_by_row_count :
  ~ (forall df config p w,
       missing_required df (build_dq_config config) <> [] ->
       exists w',
         run_validation test_env df config p w
         = (Raise (SchemaDriftError (missing_required df (build_dq_config config))), w')).
Proof.
  intros H.
  destruct (H df_four_rows default_config "p" empty_world) as [w' Hrun].
  - discriminate.
  - discriminate Hrun.
Qed.

(** C2, amended. When the row-count and the null-fraction checks pass and
    some required columns are missing, validation raises the schema-drift
    error carrying exactly the missing required columns, in the order of
    [required_columns], after logging one [schema_drift_detected] event;
    this holds whatever the later rules (uniqueness, types, allowed values,
    freshness) would have said. *)
Theorem schema_drift_reported_first_after_row_and_null_checks E df config p w :
  _check_row_count E df (build_dq_config config) p w = (Ok tt, w) ->
  _check_null_fraction E df (build_dq_config config) p w = (Ok tt, w) ->
  missing_required df (build_dq_config config) <> [] ->
  (forall c, In c (missing_required df (build_dq_config config))
             <-> In c (required_columns (build_dq_config config))
                 /\ has_column df c = false)
  /\ run_validation E df config p w
     = (Raise (SchemaDriftError (missing_required df (build_dq_config config))),
        World (heap w)
          (log w ++
           [ {| timestamp := utcnow E (List.length (log w));
                event_type := "schema_drift_detected";
                event_details :=
                  Fields [("pipeline_name", JStr p);
                          ("missing_columns",
                           JStrs (missing_required df (build_dq_config config)))] |} ])).
Proof.
  intros Hrows Hnull Hmiss. split.
  - intros c. unfold missing_required. rewrite List.filter_In.
    destruct (has_column df c); simpl; intuition congruence.
  - unfold run_validation.
    erewrite bind_ok by exact Hrows. erewrite bind_ok by exact Hnull.
    apply bind_raise. unfold _check_schema. fold (missing_required df (build_dq_config config)).
    destruct (missing_required df (build_dq_config config)); [congruence | reflexivity].
Qed.

Lemma schema_drift_reported_first_after_row_and_null_checks_witness :
  run_validation test_env df_five_rows default_config "p" empty_world
  = (Raise (SchemaDriftError
              (missing_required df_five_rows (build_dq_config default_config))),
     World (heap empty_world)
       (log empty_world ++
        [ {| timestamp := utcnow test_env (List.length (log empty_world));
             event_type := "schema_drift_detected";
             event_details :=
               Fields [("pipeline_name", JStr "p");
                       ("missing_columns",
                        JStrs (missing_required df_five_rows
                                 (build_dq_config default_config)))] |} ])).
Proof.
  apply (schema_drift_reported_first_after_row_and_null_checks
           test_env df_five_rows default_config "p" empty_world);
    [reflexivity | reflexivity | discriminate].
Defined.

(** C3. The freshness check never raises: its own [DataQualityError] is
    raised inside the [try] whose handler catches every exception. *)
Lemma _check_freshness_never_raises E df cfg p w :
  fst (_check_freshness E df cfg p w) = Ok tt.
Proof.
  destruct (_check_freshness_returns E df cfg p w) as (evs & H & _). now rewrite H.
Qed.

(** C3, at the failing input: the newest date is ten days old, three days
    are allowed; the failure is logged, swallowed, and the validation
    succeeds. *)
Theorem stale_data_passes_validation :
  run_validation test_env df_stale freshness_only "p" empty_world
  = (Ok tt,
     World ∅
       [ {| timestamp := "2024-01-10T00:00:00Z";
            event_type := "dq_failure";
            event_details :=
              Fields [("pipeline_name", JStr "p");
                      ("reason", JStr "freshness");
                      ("column", JStr "date_of_sale");
                      ("latest_date", JMsg [FDate 90]);
                      ("delta_days", JInt 10);
                      ("threshold_days", JInt 3);
                      ("message",
                       JMsg [FStr "Freshness violation: latest ";
                             FStr "date_of_sale"; FStr "="; FDate 90;
                             FStr " is "; FInt 10;
                             FStr " days old (max allowed "; FInt 3; FStr ")"])] |};
         {| timestamp := "2024-01-10T00:00:00Z";
            event_type := "validation_success";
            event_details :=
              Fields [("pipeline_name", JStr "p"); ("rows", JInt 1)] |} ]).
Proof. reflexivity. Qed.

(** ** The healer: what it reads and what it writes *)

Lemma type_is_false a t : a_type a <> Some t -> type_is a t = false.
Proof.
  unfold type_is. destruct (a_type a) as [s |]; [| reflexivity].
  intros H. apply String.eqb_neq. congruence.
Qed.

Lemma type_is_true a t : a_type a = Some t -> type_is a t = true.
Proof. unfold type_is. intros ->. apply String.eqb_refl. Qed.

(** C8. When the diagnosis has no suggested action, or the first action is
    not of the type the healing function handles, the function returns the
    reference it was given, raises nothing, and leaves the store and the log
    as they were. *)
Theorem healing_without_matching_action_is_noop E c d w :
  (get (d_suggested_actions d) [] = []
   \/ (exists a rest, get (d_suggested_actions d) [] = a :: rest
                      /\ a_type a <> Some "schema_update") ->
   apply_schema_healing E c d w = (Ok c, w))
  /\ (get (d_suggested_actions d) [] = []
      \/ (exists a rest, get (d_suggested_actions d) [] = a :: rest
                         /\ a_type a <> Some "dq_update_max_null") ->
      apply_dq_healing E c d w = (Ok c, w)).
Proof.
  split; intros [Hnil | (a & rest & Hcons & Htype)].
  - unfold apply_schema_healing. now rewrite Hnil.
  - unfold apply_schema_healing. rewrite Hcons.
    now rewrite (type_is_false _ _ Htype).
  - unfold apply_dq_healing. now rewrite Hnil.
  - unfold apply_dq_healing. rewrite Hcons.
    now rewrite (type_is_false _ _ Htype).
Qed.

Lemma healing_without_matching_action_is_noop_witness :
  apply_schema_healing test_env 0%nat
    {| d_pipeline_name := None; d_root_cause := None; d_missing_columns := None;
       d_column := None; d_observed := None; d_threshold := None;
       d_suggested_actions := None |} empty_world
  = (Ok 0%nat, empty_world)
  /\ apply_dq_healing test_env 0%nat rename_diagnosis empty_world = (Ok 0%nat, empty_world).
Proof.
  split.
  - apply (healing_without_matching_action_is_noop test_env 0%nat
             {| d_pipeline_name := None; d_root_cause := None; d_missing_columns := None;
                d_column := None; d_observed := None; d_threshold := None;
                d_suggested_actions := None |} empty_world).
    left. reflexivity.
  - apply (healing_without_matching_action_is_noop test_env 0%nat
             rename_diagnosis empty_world).
    right. eexists. eexists. split; [reflexivity | discriminate].
Defined.

Lemma py_max_float a b : py_max (NFloat a) (NFloat b) = NFloat (fmax a b).
Proof. unfold py_max, fmax. simpl. now destruct (a <? b)%float. Qed.

Lemma py_min_float a b : py_min (NFloat a) (NFloat b) = NFloat (fmin a b).
Proof. unfold py_min, fmin. simpl. now destruct (b <? a)%float. Qed.

(** A threshold that is a float, or absent, gives a float after [or 0.0]. *)
Lemma or_zero_float (t : option num) :
  (forall z, t <> Some (NInt z)) ->
  or_zero t = NFloat (match t with
                      | Some (NFloat f) => if (f =? 0)%float then 0%float else f
                      | _ => 0%float
                      end).
Proof.
  intros Hint. destruct t as [[z | f] |]; simpl; [now destruct (Hint z) | | reflexivity].
  now destruct (f =? 0)%float.
Qed.

(** What [diagnose_dq_issue] does with a failure it can tune. *)
Lemma diagnose_dq_issue_tunable E err c cfg w col o :
  heap w !! c = Some cfg ->
  kind err = Some "null_fraction" ->
  column err = Some col -> col <> "" ->
  observed err = Some o ->
  match float_of_num o with
  | None => diagnose_dq_issue E err c w = (Raise (PyError "OverflowError"), w)
  | Some f =>
      let new_threshold :=
        py_min (py_max (NFloat (f + 0.05)) (or_zero (threshold err))) (NFloat 1) in
      match float_of_num new_threshold with
      | None => diagnose_dq_issue E err c w = (Raise (PyError "OverflowError"), w)
      | Some _ =>
          exists d a,
            diagnose_dq_issue E err c w
            = (Ok d,
               World (heap w)
                 (log w ++ [ {| timestamp := utcnow E (List.length (log w));
                                event_type := "dq_diagnosis";
                                event_details := Diagnosis d |} ]))
            /\ d_suggested_actions d = Some [a]
            /\ a_type a = Some "dq_update_max_null"
            /\ a_column a = Some col
            /\ a_new_threshold a = Some new_threshold
      end
  end.
Proof.
  intros Hc Hkind Hcol Hne Hobs.
  unfold diagnose_dq_issue, mbind, M_bind, load. rewrite Hc, Hkind, Hcol, Hobs.
  destruct col as [| ch col']; [congruence |]. simpl.
  unfold to_float.
  destruct (float_of_num o) as [f |]; [| reflexivity].
  unfold mret, M_ret. cbv beta iota zeta.
  destruct (float_of_num _) as [x |]; [| reflexivity].
  eexists. eexists. split; [reflexivity |]. repeat split.
Qed.

(** C7. Neither diagnosis function writes to the store: the configuration
    behind the reference, like every other object, is what it was, whatever
    the outcome.  [diagnose_schema_drift] always returns its diagnosis and
    appends one event carrying it.  So does [diagnose_dq_issue], with one
    exception: for a [null_fraction] failure whose observed value or
    threshold is an int too large for a double, [observed + 0.05] (or the
    formatting of the new threshold) raises OverflowError before anything
    is logged.  A failure of another kind, and a failure whose observed
    value and threshold are floats or absent, is always diagnosed. *)
Theorem diagnosis_leaves_configuration_alone E c cfg w missing err :
  heap w !! c = Some cfg ->
  (exists d ev,
     diagnose_schema_drift E missing c w
     = (Ok d, World (heap w) (log w ++ [ev]))
     /\ event_type ev = "diagnosis" /\ event_details ev = Diagnosis d)
  /\ ((exists d ev,
         diagnose_dq_issue E err c w
         = (Ok d, World (heap w) (log w ++ [ev]))
         /\ event_type ev = "dq_diagnosis" /\ event_details ev = Diagnosis d)
      \/ diagnose_dq_issue E err c w = (Raise (PyError "OverflowError"), w))
  /\ (kind err <> Some "null_fraction"
      \/ ((forall z, observed err <> Some (NInt z))
          /\ (forall z, threshold err <> Some (NInt z))) ->
      exists d ev,
        diagnose_dq_issue E err c w
        = (Ok d, World (heap w) (log w ++ [ev]))
        /\ event_type ev = "dq_diagnosis" /\ event_details ev = Diagnosis d)
  /\ (forall col z,
        kind err = Some "null_fraction" ->
        column err = Some col -> col <> "" ->
        observed err = Some (NInt z) ->
        float_of_int z = None ->
        diagnose_dq_issue E err c w = (Raise (PyError "OverflowError"), w)).
Proof.
  intros Hc. split; [| split; [| split]].
  - unfold diagnose_schema_drift, mbind, M_bind, load. rewrite Hc.
    eexists. eexists. split; [reflexivity | split; reflexivity].
  - unfold diagnose_dq_issue, mbind, M_bind, load. rewrite Hc.
    destruct (_ && _ && _).
    + unfold to_float. destruct (float_of_num _) as [f |]; [| now right].
      unfold mret, M_ret. cbv beta iota zeta.
      destruct (float_of_num _) as [x |]; [| now right].
      left. eexists. eexists. split; [reflexivity | split; reflexivity].
    + left. eexists. eexists. split; [reflexivity | split; reflexivity].
  - intros Hfloat.
    unfold diagnose_dq_issue, mbind, M_bind, load. rewrite Hc.
    destruct (_ && _ && _) eqn:Hcond;
      [| eexists; eexists; split; [reflexivity | split; reflexivity]].
    apply andb_true_iff in Hcond. destruct Hcond as [Hcond Hobs].
    apply andb_true_iff in Hcond. destruct Hcond as [Hkind _].
    destruct Hfloat as [Hk | [Ho Ht]].
    { exfalso. apply Hk. destruct (kind err) as [k |]; [| discriminate].
      apply String.eqb_eq in Hkind. now subst. }
    destruct (observed err) as [[z | o] |]; [now destruct (Ho z) | | discriminate].
    rewrite (or_zero_float _ Ht).
    unfold to_float at 1. cbn [float_of_num get]. unfold mret, M_ret. cbv beta iota zeta.
    rewrite py_max_float, py_min_float. cbn [to_float float_of_num].
    eexists. eexists. split; [reflexivity | split; reflexivity].
  - intros col z Hkind Hcol Hne Hobs Hover.
    pose proof (diagnose_dq_issue_tunable E err c cfg w col (NInt z)
                  Hc Hkind Hcol Hne Hobs) as H.
    simpl in H. now rewrite Hover in H.
Qed.

Lemma diagnosis_leaves_configuration_alone_witness :
  (exists d ev,
     diagnose_schema_drift test_env ["date_of_sale"] 0%nat one_config_world
     = (Ok d, World (heap one_config_world) (log one_config_world ++ [ev]))
     /\ event_type ev = "diagnosis" /\ event_details ev = Diagnosis d)
  /\ (exists d ev,
        diagnose_dq_issue test_env null_fraction_error 0%nat one_config_world
        = (Ok d, World (heap one_config_world) (log one_config_world ++ [ev]))
        /\ event_type ev = "dq_diagnosis" /\ event_details ev = Diagnosis d)
  /\ diagnose_dq_issue test_env huge_observed_error 0%nat one_config_world
     = (Raise (PyError "OverflowError"), one_config_world).
Proof.
  split; [| split].
  - apply (diagnosis_leaves_configuration_alone test_env 0%nat default_config
             one_config_world ["date_of_sale"] null_fraction_error).
    reflexivity.
  - destruct (diagnosis_leaves_configuration_alone test_env 0%nat default_config
                one_config_world ["date_of_sale"] null_fraction_error eq_refl)
      as (_ & _ & Hreturns & _).
    apply Hreturns. right. split; intros z; discriminate.
  - destruct (diagnosis_leaves_configuration_alone test_env 0%nat default_config
                one_config_world ["date_of_sale"] huge_observed_error eq_refl)
      as (_ & _ & _ & Hraises).
    apply (Hraises "sales_amount" (2 ^ 1024)%Z); try reflexivity. discriminate.
Defined.

Lemma apply_schema_healing_rename E c cfg d w a rest from_col to_col :
  heap w !! c = Some cfg ->
  get (d_suggested_actions d) [] = a :: rest ->
  a_type a = Some "schema_update" ->
  a_from a = Some from_col -> a_to a = Some to_col ->
  let old_cols := get (k_required_columns (get (k_schema cfg) empty_schema)) [] in
  let new_cols := rename from_col to_col old_cols in
  apply_schema_healing E c d w
  = (Ok c,
     World (<[c := set_required_columns cfg new_cols]> (heap w))
       (log w ++
        [ {| timestamp := utcnow E (List.length (log w));
             event_type := "healing_applied";
             event_details :=
               Fields [("action_type", JStr "schema_update");
                       ("from", JStr from_col);
                       ("to", JStr to_col);
                       ("old_required_columns", JStrs old_cols);
                       ("new_required_columns", JStrs new_cols)] |} ])).
Proof.
  intros Hc Hact Htype Hfrom Hto. simpl.
  unfold apply_schema_healing. rewrite Hact, (type_is_true _ _ Htype), Hfrom, Hto.
  unfold mbind, M_bind, item, load, store, log_causal_event. simpl. now rewrite Hc.
Qed.

Lemma apply_dq_healing_update E c cfg d w a rest new_thr x :
  heap w !! c = Some cfg ->
  get (d_suggested_actions d) [] = a :: rest ->
  a_type a = Some "dq_update_max_null" ->
  a_new_threshold a = Some new_thr ->
  float_of_num new_thr = Some x ->
  apply_dq_healing E c d w
  = (Ok c,
     World (<[c := set_max_null_fraction cfg x]> (heap w))
       (log w ++
        [ {| timestamp := utcnow E (List.length (log w));
             event_type := "healing_applied";
             event_details :=
               Fields [("action_type", JStr "dq_update_max_null");
                       ("column", JOptStr (a_column a));
                       ("new_threshold", JNum new_thr)] |} ])).
Proof.
  intros Hc Hact Htype Hthr Hx.
  unfold apply_dq_healing. rewrite Hact, (type_is_true _ _ Htype), Hthr.
  unfold mbind, M_bind, item, to_float, load, store, log_causal_event. simpl.
  rewrite Hx. unfold mret, M_ret. cbv beta iota. now rewrite Hc.
Qed.

Lemma apply_dq_healing_overflow E c d w a rest new_thr :
  get (d_suggested_actions d) [] = a :: rest ->
  a_type a = Some "dq_update_max_null" ->
  a_new_threshold a = Some new_thr ->
  float_of_num new_thr = None ->
  apply_dq_healing E c d w = (Raise (PyError "OverflowError"), w).
Proof.
  intros Hact Htype Hthr Hx.
  unfold apply_dq_healing. rewrite Hact, (type_is_true _ _ Htype), Hthr.
  unfold mbind, M_bind, item, to_float. simpl. now rewrite Hx.
Qed.

(** C4, as the spec states it, fails: the healer works on the object it is
    given.  After [apply_schema_healing] on the default configuration with
    the rename diagnosis, the caller's configuration has changed. *)
Lemma healing_mutates_the_callers_configuration :
  ~ (forall c d w cfg,
       heap w !! c = Some cfg ->
       heap (snd (apply_schema_healing test_env c d w)) !! c = Some cfg).
Proof.
  intros H.
  specialize (H 0%nat rename_diagnosis one_config_world default_config eq_refl).
  vm_compute in H. discriminate H.
Qed.

(** C4, amended. The healing functions update the caller's configuration
    object in place and return the reference they were given: with a
    [schema_update] first action the object behind the reference gets its
    required columns renamed, with a [dq_update_max_null] first action it
    gets [float(new_threshold)] as its [max_null_fraction]; no other object
    of the store is touched, and one [healing_applied] event is logged.
    (When the new threshold is an int too large for a double, [float]
    raises OverflowError and nothing is touched.) *)
Theorem healing_updates_in_place E c cfg d w a rest :
  heap w !! c = Some cfg ->
  get (d_suggested_actions d) [] = a :: rest ->
  (forall from_col to_col,
     a_type a = Some "schema_update" ->
     a_from a = Some from_col -> a_to a = Some to_col ->
     exists w',
       apply_schema_healing E c d w = (Ok c, w')
       /\ heap w' !! c
          = Some (set_required_columns cfg
                    (rename from_col to_col
                       (get (k_required_columns (get (k_schema cfg) empty_schema)) [])))
       /\ (forall l, l <> c -> heap w' !! l = heap w !! l)
       /\ exists ev, log w' = log w ++ [ev] /\ event_type ev = "healing_applied")
  /\ (forall new_thr,
        a_type a = Some "dq_update_max_null" ->
        a_new_threshold a = Some new_thr ->
        match float_of_num new_thr with
        | Some x =>
            exists w',
              apply_dq_healing E c d w = (Ok c, w')
              /\ heap w' !! c = Some (set_max_null_fraction cfg x)
              /\ (forall l, l <> c -> heap w' !! l = heap w !! l)
              /\ exists ev, log w' = log w ++ [ev] /\ event_type ev = "healing_applied"
        | None =>
            apply_dq_healing E c d w = (Raise (PyError "OverflowError"), w)
        end).
Proof.
  intros Hc Hact. split.
  - intros from_col to_col Htype Hfrom Hto.
    eexists. split;
      [exact (apply_schema_healing_rename E c cfg d w a rest from_col to_col
                Hc Hact Htype Hfrom Hto) |].
    simpl. split; [apply lookup_insert_eq |].
    split; [intros l Hl; now apply lookup_insert_ne |].
    eexists. split; reflexivity.
  - intros new_thr Htype Hthr.
    destruct (float_of_num new_thr) as [x |] eqn:Hx;
      [| exact (apply_dq_healing_overflow E c d w a rest new_thr Hact Htype Hthr Hx)].
    eexists. split;
      [exact (apply_dq_healing_update E c cfg d w a rest new_thr x Hc Hact Htype Hthr Hx) |].
    simpl. split; [apply lookup_insert_eq |].
    split; [intros l Hl; now apply lookup_insert_ne |].
    eexists. split; reflexivity.
Qed.

Lemma healing_updates_in_place_witness :
  (exists w',
     apply_schema_healing test_env 0%nat rename_diagnosis one_config_world = (Ok 0%nat, w')
     /\ heap w' !! 0%nat
        = Some (set_required_columns default_config
                  (rename "date_of_sale" "txn_date"
                     (get (k_required_columns (get (k_schema default_config) empty_schema)) [])))
     /\ (forall l, l <> 0%nat -> heap w' !! l = heap one_config_world !! l)
     /\ exists ev, log w' = log one_config_world ++ [ev]
                   /\ event_type ev = "healing_applied")
  /\ (exists w',
        apply_dq_healing test_env 0%nat raise_diagnosis one_config_world = (Ok 0%nat, w')
        /\ heap w' !! 0%nat
           = Some (set_max_null_fraction default_config 0.15000000000000002%float)
        /\ (forall l, l <> 0%nat -> heap w' !! l = heap one_config_world !! l)
        /\ exists ev, log w' = log one_config_world ++ [ev]
                      /\ event_type ev = "healing_applied").
Proof.
  split.
  - destruct (healing_updates_in_place test_env 0%nat default_config rename_diagnosis
                one_config_world
                {| a_type := Some "schema_update"; a_description := None;
                   a_from := Some "date_of_sale"; a_to := Some "txn_date";
                   a_column := None; a_new_threshold := None |} []
                eq_refl eq_refl) as [Hschema _].
    apply Hschema; reflexivity.
  - destruct (healing_updates_in_place test_env 0%nat default_config raise_diagnosis
                one_config_world
                {| a_type := Some "dq_update_max_null"; a_description := None;
                   a_from := None; a_to := None;
                   a_column := Some "sales_amount";
                   a_new_threshold := Some (NFloat 0.15000000000000002) |} []
                eq_refl eq_refl) as [_ Hdq].
    apply (Hdq (NFloat 0.15000000000000002)); reflexivity.
Defined.

(** ** Renaming twice *)

Lemma rename_idempotent from_col to_col cols :
  rename from_col to_col (rename from_col to_col cols) = rename from_col to_col cols.
Proof.
  unfold rename. rewrite List.map_map. apply List.map_ext. intros c.
  destruct (String.eqb c from_col) eqn:Hc; [| now rewrite Hc].
  now destruct (String.eqb to_col from_col).
Qed.

(** C6. Applying a schema-rename healing a second time, with the same
    diagnosis, to the configuration the first application left behind gives
    the same configuration again: both calls return the reference, and the
    store after the second call is the store after the first. *)
Theorem schema_healing_is_idempotent E c cfg d w a rest from_col to_col :
  heap w !! c = Some cfg ->
  get (d_suggested_actions d) [] = a :: rest ->
  a_type a = Some "schema_update" ->
  a_from a = Some from_col ->
  a_to a = Some to_col ->
  exists w1 w2 healed,
    apply_schema_healing E c d w = (Ok c, w1)
    /\ apply_schema_healing E c d w1 = (Ok c, w2)
    /\ heap w1 !! c = Some healed
    /\ heap w2 !! c = Some healed
    /\ heap w2 = heap w1.
Proof.
  intros Hc Hact Htype Hfrom Hto.
  pose proof (apply_schema_healing_rename E c cfg d w a rest from_col to_col
                Hc Hact Htype Hfrom Hto) as Hrun1.
  simpl in Hrun1.
  match type of Hrun1 with _ = (_, ?w1) => set (w1' := w1) in * end.
  assert (Hc1 : heap w1' !! c
                = Some (set_required_columns cfg
                          (rename from_col to_col
                             (get (k_required_columns (get (k_schema cfg) empty_schema)) [])))).
  { apply lookup_insert_eq. }
  pose proof (apply_schema_healing_rename E c _ d w1' a rest from_col to_col
                Hc1 Hact Htype Hfrom Hto) as Hrun2.
  simpl in Hrun2. rewrite rename_idempotent in Hrun2.
  eexists. eexists. eexists.
  split; [exact Hrun1 |]. split; [exact Hrun2 |].
  split; [exact Hc1 |]. simpl.
  split; [apply lookup_insert_eq | apply insert_insert_eq].
Qed.

Lemma schema_healing_is_idempotent_witness :
  exists w1 w2 healed,
    apply_schema_healing test_env 0%nat rename_diagnosis one_config_world = (Ok 0%nat, w1)
    /\ apply_schema_healing test_env 0%nat rename_diagnosis w1 = (Ok 0%nat, w2)
    /\ heap w1 !! 0%nat = Some healed
    /\ heap w2 !! 0%nat = Some healed
    /\ heap w2 = heap w1.
Proof.
  apply (schema_healing_is_idempotent test_env 0%nat default_config rename_diagnosis
           one_config_world
           {| a_type := Some "schema_update"; a_description := None;
              a_from := Some "date_of_sale"; a_to := Some "txn_date";
              a_column := None; a_new_threshold := None |} []
           "date_of_sale" "txn_date");
    reflexivity.
Defined.

(** ** Raising the null-fraction threshold *)

Lemma ltb_zero_sign a t : (t =? 0)%float = true -> (a <? t)%float = (a <? 0)%float.
Proof.
  rewrite FloatAxioms.eqb_spec, !ltb_spec, Prim2SF_zero.
  destruct (Prim2SF t) as [s | [] | | [] m e]; try discriminate.
  intros _. now destruct (Prim2SF a) as [sa | [] | | [] ma ea].
Qed.

Lemma observed_plus_margin o : (0 <=? o)%float = true -> (o <=? o + 0.05)%float = true.
Proof.
  intros Ho. apply (add_ge_left o 0.05 7205759403792794 (-57)); [reflexivity | exact Ho].
Qed.

(** The spec's clamp is neither below the current threshold nor below the
    observed fraction. *)
Lemma raised_threshold_bounds o t :
  (0 <=? o)%float = true -> (o <=? 1)%float = true -> (t <=? 1)%float = true ->
  (t <=? raised_threshold o t)%float = true
  /\ (o <=? raised_threshold o t)%float = true.
Proof.
  intros Ho0 Ho1 Ht1.
  pose proof (observed_plus_margin o Ho0) as Ha.
  unfold raised_threshold, fmin, fmax.
  set (a := (o + 0.05)%float) in *.
  pose proof (leb_refl_l _ _ Ht1) as Htt. pose proof (leb_refl_r _ _ Ha) as Haa.
  assert (Hm : (t <=? (if (a <? t)%float then t else a))%float = true
               /\ (a <=? (if (a <? t)%float then t else a))%float = true).
  { destruct (a <? t)%float eqn:Hlt.
    - split; [exact Htt | now apply ltb_leb].
    - split; [now apply ltb_false_leb | exact Haa]. }
  destruct Hm as [Htm Ham].
  destruct (1 <? (if (a <? t)%float then t else a))%float.
  - split; assumption.
  - split; [exact Htm | exact (leb_trans _ _ _ Ha Ham)].
Qed.

(** Python's [min(max(observed + 0.05, threshold or 0.0), 1.0)] is the
    spec's clamp: [or 0.0] changes nothing, as [observed + 0.05] is above
    either zero. *)
Lemma new_threshold_is_raised_threshold o t :
  (0 <=? o)%float = true ->
  py_min (py_max (NFloat (o + 0.05)) (or_zero (Some (NFloat t)))) (NFloat 1)
  = NFloat (raised_threshold o t).
Proof.
  intros Ho0. unfold or_zero, truthy_num.
  destruct (t =? 0)%float eqn:Hz; cbn [negb].
  - rewrite py_max_float, py_min_float. unfold raised_threshold. do 2 f_equal.
    unfold fmax. rewrite (ltb_zero_sign _ _ Hz).
    assert (H : (o + 0.05 <? 0)%float = false).
    { apply leb_ltb_false. exact (leb_trans _ _ _ Ho0 (observed_plus_margin o Ho0)). }
    now rewrite H.
  - now rewrite py_max_float, py_min_float.
Qed.

(** C5. For a [null_fraction] failure with a known column, an observed
    fraction in [0,1] and a threshold in [0,1] that is the configuration's
    current one (all of them doubles), the diagnosis proposes exactly one
    action, of type [dq_update_max_null], whose new threshold is the double
    [min(max(observed + 0.05, threshold), 1.0)], the sum being rounded as
    doubles are; applying it sets [max_null_fraction] to that value, which
    is neither below the prior value nor below the observed fraction. *)
Theorem null_fraction_healing_is_monotonic E err c cfg w col o t :
  heap w !! c = Some cfg ->
  kind err = Some "null_fraction" ->
  column err = Some col -> col <> "" ->
  observed err = Some (NFloat o) ->
  threshold err = Some (NFloat t) ->
  (0 <=? o)%float = true -> (o <=? 1)%float = true ->
  (0 <=? t)%float = true -> (t <=? 1)%float = true ->
  max_null_fraction (build_dq_config cfg) = t ->
  exists d a w1 w2 cfg',
    diagnose_dq_issue E err c w = (Ok d, w1)
    /\ d_suggested_actions d = Some [a]
    /\ a_type a = Some "dq_update_max_null"
    /\ a_new_threshold a = Some (NFloat (raised_threshold o t))
    /\ apply_dq_healing E c d w1 = (Ok c, w2)
    /\ heap w2 !! c = Some cfg'
    /\ max_null_fraction (build_dq_config cfg') = raised_threshold o t
    /\ (max_null_fraction (build_dq_config cfg)
        <=? max_null_fraction (build_dq_config cfg'))%float = true
    /\ (o <=? max_null_fraction (build_dq_config cfg'))%float = true.
Proof.
  intros Hc Hkind Hcol Hne Hobs Hthr Ho0 Ho1 Ht0 Ht1 Hprior.
  pose proof (diagnose_dq_issue_tunable E err c cfg w col (NFloat o)
                Hc Hkind Hcol Hne Hobs) as Hdiag.
  cbn [float_of_num] in Hdiag. cbv zeta in Hdiag.
  rewrite Hthr, (new_threshold_is_raised_threshold o t Ho0) in Hdiag.
  cbn [float_of_num] in Hdiag.
  destruct Hdiag as (d & a & Hdiag & Hact & Htype & _ & Hnew).
  match type of Hdiag with _ = (_, ?w) => set (w1 := w) in * end.
  assert (Hc1 : heap w1 !! c = Some cfg) by exact Hc.
  assert (Hact' : get (d_suggested_actions d) [] = [a]) by now rewrite Hact.
  pose proof (apply_dq_healing_update E c cfg d w1 a [] _ (raised_threshold o t)
                Hc1 Hact' Htype Hnew eq_refl) as Hheal.
  destruct (raised_threshold_bounds o t Ho0 Ho1 Ht1) as [Hge_t Hge_o].
  eexists. eexists. eexists. eexists. eexists.
  split; [exact Hdiag |]. split; [exact Hact |]. split; [exact Htype |].
  split; [exact Hnew |]. split; [exact Hheal |].
  split; [apply lookup_insert_eq |].
  split; [reflexivity |].
  change (max_null_fraction (build_dq_config
            (set_max_null_fraction cfg (raised_threshold o t))))
    with (raised_threshold o t).
  rewrite Hprior. split; assumption.
Qed.

Lemma null_fraction_healing_is_monotonic_witness :
  exists d a w1 w2 cfg',
    diagnose_dq_issue test_env null_fraction_error 0%nat one_config_world = (Ok d, w1)
    /\ d_suggested_actions d = Some [a]
    /\ a_type a = Some "dq_update_max_null"
    /\ a_new_threshold a = Some (NFloat 0.15000000000000002)
    /\ apply_dq_healing test_env 0%nat d w1 = (Ok 0%nat, w2)
    /\ heap w2 !! 0%nat = Some cfg'
    /\ max_null_fraction (build_dq_config cfg') = 0.15000000000000002%float
    /\ (max_null_fraction (build_dq_config default_config)
        <=? max_null_fraction (build_dq_config cfg'))%float = true
    /\ (0.1 <=? max_null_fraction (build_dq_config cfg'))%float = true.
Proof.
  exact (null_fraction_healing_is_monotonic test_env null_fraction_error 0%nat
           default_config one_config_world "sales_amount" 0.1%float 0.05%float
           eq_refl eq_refl eq_refl ltac:(discriminate) eq_refl eq_refl
           eq_refl eq_refl eq_refl eq_refl eq_refl).
Defined.

(** ** The null-fraction verdict *)

(** The mean of a boolean series is never above one. *)
Lemma mean_le_one s : (1 <? mean s)%float = false.
Proof.
  unfold mean. apply div_Z2F_le_one. split; [lia |].
  apply Nat2Z.inj_le, List.filter_length_le.
Qed.

(** Unless it is NaN, the mean of a boolean series lies between 0 and 1. *)
Lemma mean_in_unit_interval s :
  (mean s <=? mean s)%float = true ->
  (0 <=? mean s)%float = true /\ (mean s <=? 1)%float = true.
Proof.
  intros Hnan. split.
  - unfold mean in *. apply div_Z2F_nonneg; [lia | lia | exact Hnan].
  - apply ltb_false_leb; [reflexivity | exact Hnan | apply mean_le_one].
Qed.

Lemma ltb_nan x : (x <? nan)%float = false.
Proof.
  rewrite ltb_spec. change (Prim2SF nan) with S754_nan.
  now destruct (Prim2SF x) as [s | [] | | [] m e].
Qed.

(** X1. With a [sales_amount] column, the null-fraction check compares the
    fraction of missing cells, the double [nulls / rows], with
    [max_null_fraction]: it passes when the fraction is at most the
    threshold (equality passes) and when the column is empty (the fraction
    is NaN); when the threshold is below the fraction it logs one
    [dq_failure] event and raises [null_fraction] carrying that fraction
    and the threshold.  The fraction is never above 1, and unless it is NaN
    it lies between 0 and 1. *)
Theorem null_fraction_threshold_is_inclusive E df cfg p w :
  has_column df "sales_amount" = true ->
  let null_frac := mean (map isna (getitem df "sales_amount")) in
  ((null_frac <=? max_null_fraction cfg)%float = true ->
   _check_null_fraction E df cfg p w = (Ok tt, w))
  /\ (getitem df "sales_amount" = [] ->
      _check_null_fraction E df cfg p w = (Ok tt, w))
  /\ ((max_null_fraction cfg <? null_frac)%float = true ->
      exists e ev,
        _check_null_fraction E df cfg p w
        = (Raise (DataQualityErr e), World (heap w) (log w ++ [ev]))
        /\ kind e = Some "null_fraction"
        /\ column e = Some "sales_amount"
        /\ observed e = Some (NFloat null_frac)
        /\ threshold e = Some (NFloat (max_null_fraction cfg))
        /\ event_type ev = "dq_failure")
  /\ (1 <? null_frac)%float = false
  /\ ((null_frac <=? null_frac)%float = true ->
      (0 <=? null_frac)%float = true /\ (null_frac <=? 1)%float = true).
Proof.
  intros Hcol null_frac.
  unfold _check_null_fraction. rewrite Hcol. fold null_frac.
  split; [| split; [| split; [| split]]].
  - intros Hle. now rewrite (leb_ltb_false _ _ Hle).
  - intros Hs. unfold null_frac. rewrite Hs.
    change (mean (map isna [])) with nan. now rewrite ltb_nan.
  - intros Hlt. rewrite Hlt.
    eexists. eexists. split; [reflexivity |]. repeat split.
  - apply mean_le_one.
  - apply mean_in_unit_interval.
Qed.

Lemma null_fraction_threshold_is_inclusive_witness :
  _check_null_fraction test_env df_one_null_in_three
    (build_dq_config (set_max_null_fraction default_config 0.3333333333333333%float))
    "p" empty_world
  = (Ok tt, empty_world)
  /\ exists e ev,
       _check_null_fraction test_env df_one_null_in_ten
         (build_dq_config default_config) "p" empty_world
       = (Raise (DataQualityErr e), World (heap empty_world) (log empty_world ++ [ev]))
       /\ kind e = Some "null_fraction"
       /\ column e = Some "sales_amount"
       /\ observed e = Some (NFloat 0.1)
       /\ threshold e = Some (NFloat (max_null_fraction (build_dq_config default_config)))
       /\ event_type ev = "dq_failure".
Proof.
  split.
  - pose proof (null_fraction_threshold_is_inclusive test_env df_one_null_in_three
                  (build_dq_config
                     (set_max_null_fraction default_config 0.3333333333333333%float))
                  "p" empty_world eq_refl) as H.
    cbv zeta in H. destruct H as (Hpass & _). apply Hpass. reflexivity.
  - pose proof (null_fraction_threshold_is_inclusive test_env df_one_null_in_ten
                  (build_dq_config default_config) "p" empty_world eq_refl) as H.
    cbv zeta in H. destruct H as (_ & _ & Hfail & _). apply Hfail. reflexivity.
Defined.

(** ** The empty configuration *)

Lemma null_fraction_at_most_one_passes E df cfg p w :
  max_null_fraction cfg = 1%float ->
  _check_null_fraction E df cfg p w = (Ok tt, w).
Proof.
  intros Hmax. unfold _check_null_fraction.
  destruct (has_column df "sales_amount"); [| reflexivity].
  now rewrite Hmax, mean_le_one.
Qed.

(** X2. A configuration document without the [data_quality], [schema],
    [allowed_values] and [freshness] keys accepts every data set: every check
    is skipped or passes on its default (row count 0, null fraction 1.0), and
    the only trace is the [validation_success] event with the row count. *)
Theorem empty_configuration_accepts_everything E df config p w :
  k_data_quality config = None ->
  k_schema config = None ->
  k_allowed_values config = None ->
  k_freshness config = None ->
  run_validation E df config p w
  = (Ok tt,
     World (heap w)
       (log w ++
        [ {| timestamp := utcnow E (List.length (log w));
             event_type := "validation_success";
             event_details :=
               Fields [("pipeline_name", JStr p); ("rows", JInt (len df))] |} ])).
Proof.
  intros Hdq Hschema Hallowed Hfresh.
  unfold run_validation.
  erewrite bind_ok.
  2: { apply _check_row_count_pass. unfold build_dq_config. rewrite Hdq. simpl.
       unfold len. lia. }
  erewrite bind_ok.
  2: { apply null_fraction_at_most_one_passes. unfold build_dq_config.
       rewrite Hdq. reflexivity. }
  unfold _check_schema, _check_uniqueness, _check_column_types, _check_allowed_values,
    _check_freshness, build_dq_config.
  rewrite Hdq, Hschema, Hallowed, Hfresh. reflexivity.
Qed.

Lemma empty_configuration_accepts_everything_witness :
  run_validation test_env df_stale empty_config "p" empty_world
  = (Ok tt,
     World (heap empty_world)
       (log empty_world ++
        [ {| timestamp := utcnow test_env (List.length (log empty_world));
             event_type := "validation_success";
             event_details :=
               Fields [("pipeline_name", JStr "p"); ("rows", JInt (len df_stale))] |} ])).
Proof.
  apply (empty_configuration_accepts_everything test_env df_stale empty_config
           "p" empty_world); reflexivity.
Defined.

(** ** What a call of [run_validation] leaves in the log *)

Lemma log_then_raise_ok E t d (e : exn) w :
  json_ok E d = true ->
  (log_causal_event E t d ;; raise e : M unit) w
  = (Raise e,
     World (heap w)
       (log w ++ [ {| timestamp := utcnow E (List.length (log w));
                      event_type := t; event_details := d |} ])).
Proof.
  intros H. unfold mbind, M_bind, log_causal_event, raise. now rewrite H.
Qed.

Lemma log_then_raise_rejected E t d (e : exn) w :
  json_ok E d = false ->
  (log_causal_event E t d ;; raise e : M unit) w = (Raise (PyError "TypeError"), w).
Proof.
  intros H. unfold mbind, M_bind, log_causal_event, raise. now rewrite H.
Qed.

Lemma check_outcome_log_raise E d (e : exn) :
  typed_failure e = true ->
  check_outcome (log_causal_event E "dq_failure" d ;; raise e).
Proof.
  intros He w. destruct (json_ok E d) eqn:Hj.
  - right. left. rewrite (log_then_raise_ok _ _ _ _ _ Hj). eauto.
  - right. right. rewrite (log_then_raise_rejected _ _ _ _ _ Hj). eauto.
Qed.

Lemma _check_row_count_outcome E df cfg p : check_outcome (_check_row_count E df cfg p).
Proof.
  unfold _check_row_count. destruct (len df <? min_row_count cfg)%Z.
  - now apply check_outcome_log_raise.
  - intros w. now left.
Qed.

Lemma _check_null_fraction_outcome E df cfg p :
  check_outcome (_check_null_fraction E df cfg p).
Proof.
  unfold _check_null_fraction.
  destruct (has_column df "sales_amount"); [| intros w; now left].
  destruct (PrimFloat.ltb _ _); [| intros w; now left].
  now apply check_outcome_log_raise.
Qed.

Lemma _check_schema_outcome E df cfg p : check_outcome (_check_schema E df cfg p).
Proof.
  unfold _check_schema. destruct (List.filter _ _); [intros w; now left |].
  intros w. right. left. eexists. eexists. split; [reflexivity | split; reflexivity].
Qed.

Lemma _check_uniqueness_outcome E df cfg p :
  check_outcome (_check_uniqueness E df cfg p).
Proof.
  unfold _check_uniqueness.
  induction (unique_keys cfg) as [| col rest IH]; simpl; [intros w; now left |].
  destruct (has_column df col); [| exact IH].
  destruct (0 <? _)%Z; [| exact IH].
  now apply check_outcome_log_raise.
Qed.

Lemma _check_column_types_outcome E df cfg p :
  check_outcome (_check_column_types E df cfg p).
Proof.
  unfold _check_column_types.
  induction (column_types cfg) as [| [col t] rest IH]; simpl; [intros w; now left |].
  destruct (has_column df col); simpl; [| exact IH].
  intros w. destruct (coerce_pure E (getitem df col) t w) as [H | [e H]].
  - erewrite bind_ok; [apply IH |]. unfold try_except. now rewrite H.
  - right. left. eexists. eexists.
    split.
    { erewrite bind_raise; [reflexivity |]. unfold try_except. rewrite H. reflexivity. }
    split; reflexivity.
Qed.

Lemma _check_allowed_values_outcome E df cfg p :
  check_outcome (_check_allowed_values E df cfg p).
Proof.
  unfold _check_allowed_values.
  induction (allowed_values cfg) as [| [col allowed] rest IH]; simpl;
    [intros w; now left |].
  destruct (has_column df col); simpl; [| exact IH].
  destruct (sorted _) as [[| v bad] |].
  - exact IH.
  - now apply check_outcome_log_raise.
  - intros w. right. right. eexists. reflexivity.
Qed.

Lemma _check_freshness_outcome E df cfg p w :
  _check_freshness E df cfg p w = (Ok tt, w)
  \/ exists ev,
       _check_freshness E df cfg p w = (Ok tt, World (heap w) (log w ++ [ev]))
       /\ event_type ev = "dq_failure".
Proof.
  unfold _check_freshness.
  destruct (negb (truthy_str _) || negb (truthy_int _)); [now left |].
  destruct (negb (has_column _ _)); [now left |].
  unfold try_except, mbind, M_bind.
  destruct (to_datetime_pure E
              (getitem df (get (freshness_date_column cfg) "")) w) as [r Hr].
  rewrite Hr. destruct r as [dt_series | e]; [| now left].
  destruct (series_max dt_series) as [max_date |];
    unfold mret, M_ret, raise; cbv beta iota; [| now left].
  destruct (_ <? _)%Z; [| now left].
  right. unfold log_causal_event, to_float, float_of_num. simpl.
  destruct (float_of_int _); [destruct (float_of_int _) |]; eexists; split; reflexivity.
Qed.

Lemma seq_leaves_validation_trace (c k : M unit) :
  check_outcome c -> leaves_validation_trace k -> leaves_validation_trace (c ;; k).
Proof.
  intros Hc Hk w. destruct (Hc w) as [H | [(e & ev & H & He & Hev) | [name H]]].
  - erewrite bind_ok by exact H. apply Hk.
  - erewrite bind_raise by exact H. exists (Raise e), [ev]. split; [reflexivity |].
    simpl. rewrite He. eauto.
  - erewrite bind_raise by exact H. exists (Raise (PyError name)), [].
    split; [now rewrite world_eta | reflexivity].
Qed.

Lemma run_validation_leaves_validation_trace E df config p :
  leaves_validation_trace (run_validation E df config p).
Proof.
  unfold run_validation.
  apply seq_leaves_validation_trace; [apply _check_row_count_outcome |].
  apply seq_leaves_validation_trace; [apply _check_null_fraction_outcome |].
  apply seq_leaves_validation_trace; [apply _check_schema_outcome |].
  apply seq_leaves_validation_trace; [apply _check_uniqueness_outcome |].
  apply seq_leaves_validation_trace; [apply _check_column_types_outcome |].
  apply seq_leaves_validation_trace; [apply _check_allowed_values_outcome |].
  intros w.
  destruct (_check_freshness_outcome E df (build_dq_config config) p w)
    as [H | (ev & H & Hev)];
    erewrite bind_ok by exact H; unfold log_causal_event; simpl.
  - exists (Ok tt). eexists. split; [reflexivity |].
    exists []. eexists. split; [reflexivity |]. split; [reflexivity | now left].
  - exists (Ok tt). eexists. split; [rewrite <- app_assoc; reflexivity |].
    exists [ev]. eexists. split; [reflexivity |]. split; [reflexivity |].
    right. eauto.
Qed.

(** X3. The log tells the outcome of a validation call.  A call that returns
    appends [validation_success] as its last event, preceded by nothing or
    by the one [dq_failure] event of a swallowed freshness failure; a call
    that raises [SchemaDriftError] or [DataQualityError] appends exactly one
    event, a failure event; a call that lets another exception escape
    appends nothing.  The store is never written. *)
Theorem run_validation_trace E df config p w :
  exists r evs,
    run_validation E df config p w = (r, World (heap w) (log w ++ evs))
    /\ validation_trace r evs.
Proof. apply run_validation_leaves_validation_trace. Qed.

(** ** Uniqueness *)

Lemma duplicated_sum_nonneg seen s : (0 <= duplicated_sum seen s)%Z.
Proof.
  revert seen. induction s as [| v rest IH]; intros seen; simpl; [lia |].
  specialize (IH (v :: seen)). destruct (existsb _ seen); lia.
Qed.

Lemma duplicated_sum_pos seen s :
  (0 < duplicated_sum seen s)%Z
  <-> exists before b after,
        s = before ++ b :: after
        /\ existsb (value_eqb b) (rev before ++ seen) = true.
Proof.
  revert seen. induction s as [| v rest IH]; intros seen; simpl.
  - split; [lia |]. intros (before & b & after & Hs & _). now destruct before.
  - split.
    + intros Hpos. destruct (existsb (value_eqb v) seen) eqn:Hv.
      * exists [], v, rest. split; [reflexivity | exact Hv].
      * assert (Hrest : (0 < duplicated_sum (v :: seen) rest)%Z) by lia.
        apply IH in Hrest. destruct Hrest as (before & b & after & Hs & Hb).
        exists (v :: before), b, after. split; [now rewrite Hs |].
        simpl. now rewrite <- app_assoc.
    + intros (before & b & after & Hs & Hb).
      pose proof (duplicated_sum_nonneg (v :: seen) rest) as Hnn.
      destruct before as [| v' before']; simpl in Hs; inversion Hs; subst.
      * simpl in Hb. rewrite Hb. lia.
      * assert (Hrest : (0 < duplicated_sum (v' :: seen) (before' ++ b :: after))%Z).
        { apply IH. exists before', b, after. split; [reflexivity |].
          simpl in Hb. now rewrite <- app_assoc in Hb. }
        destruct (existsb _ seen); lia.
Qed.

Lemma duplicated_sum_repeated s :
  (0 < duplicated_sum [] s)%Z <-> has_repeated_cell s.
Proof.
  rewrite duplicated_sum_pos. unfold has_repeated_cell.
  split.
  - intros (before & b & after & Hs & Hb). rewrite app_nil_r in Hb.
    apply List.existsb_exists in Hb. destruct Hb as (a & Ha & Hab).
    exists before, b, after, a. split; [exact Hs |]. split; [| exact Hab].
    now apply List.in_rev.
  - intros (before & b & after & a & Hs & Ha & Hab).
    exists before, b, after. split; [exact Hs |]. rewrite app_nil_r.
    apply List.existsb_exists. exists a. split; [| exact Hab].
    now apply List.in_rev in Ha.
Qed.

Lemma _check_uniqueness_loop_skip E df keys p w :
  (forall k, In k keys -> has_column df k = false \/ ~ has_repeated_cell (getitem df k)) ->
  _check_uniqueness_loop E df keys p w = (Ok tt, w).
Proof.
  induction keys as [| k rest IH]; intros Hok; simpl; [reflexivity |].
  assert (Hrest : _check_uniqueness_loop E df rest p w = (Ok tt, w)).
  { apply IH. intros k' Hk'. apply Hok. now right. }
  destruct (Hok k (or_introl eq_refl)) as [Habs | Hnodup].
  - now rewrite Habs.
  - destruct (has_column df k); [| exact Hrest].
    destruct (Z.ltb_spec 0 (duplicated_sum [] (getitem df k))) as [Hpos | _];
      [| exact Hrest].
    exfalso. apply Hnodup. now apply duplicated_sum_repeated.
Qed.

(** X4. The uniqueness check raises exactly when some configured key column
    that the data set has contains a cell equal to an earlier cell, and it
    reports the first such key in the order of [unique_keys]; keys whose
    column is absent are skipped.  When no configured key column has a
    repeated cell the check passes without a trace. *)
Theorem uniqueness_reports_first_repeated_key E df cfg p w :
  ((forall k, In k (unique_keys cfg) ->
      has_column df k = false \/ ~ has_repeated_cell (getitem df k)) ->
   _check_uniqueness E df cfg p w = (Ok tt, w))
  /\ (forall pre col post,
        unique_keys cfg = pre ++ col :: post ->
        (forall k, In k pre ->
           has_column df k = false \/ ~ has_repeated_cell (getitem df k)) ->
        has_column df col = true ->
        has_repeated_cell (getitem df col) ->
        exists e ev,
          _check_uniqueness E df cfg p w
          = (Raise (DataQualityErr e), World (heap w) (log w ++ [ev]))
          /\ kind e = Some "uniqueness"
          /\ column e = Some col
          /\ event_type ev = "dq_failure").
Proof.
  unfold _check_uniqueness. split; [apply _check_uniqueness_loop_skip |].
  intros pre col post Hkeys Hpre Hcol Hrep. rewrite Hkeys. clear Hkeys.
  induction pre as [| k pre IH]; simpl.
  - rewrite Hcol. apply duplicated_sum_repeated in Hrep.
    destruct (Z.ltb_spec 0 (duplicated_sum [] (getitem df col))); [| lia].
    eexists. eexists. split; [reflexivity |]. repeat split.
  - assert (IH' := IH (fun k' Hk' => Hpre k' (or_intror Hk'))).
    destruct (Hpre k (or_introl eq_refl)) as [Habs | Hnodup].
    + now rewrite Habs.
    + destruct (has_column df k); [| exact IH'].
      destruct (Z.ltb_spec 0 (duplicated_sum [] (getitem df k))) as [Hpos | _];
        [| exact IH'].
      exfalso. apply Hnodup. now apply duplicated_sum_repeated.
Qed.

Lemma uniqueness_reports_first_repeated_key_witness :
  _check_uniqueness test_env df_five_rows (build_dq_config default_config) "p" empty_world
  = (Ok tt, empty_world)
  /\ exists e ev,
       _check_uniqueness test_env df_dirty (build_dq_config default_config) "p" empty_world
       = (Raise (DataQualityErr e), World (heap empty_world) (log empty_world ++ [ev]))
       /\ kind e = Some "uniqueness"
       /\ column e = Some "transaction_id"
       /\ event_type ev = "dq_failure".
Proof.
  split.
  - destruct (uniqueness_reports_first_repeated_key test_env df_five_rows
                (build_dq_config default_config) "p" empty_world) as [Hpass _].
    apply Hpass. intros k [<- | []]. left. reflexivity.
  - destruct (uniqueness_reports_first_repeated_key test_env df_dirty
                (build_dq_config default_config) "p" empty_world) as [_ Hfirst].
    apply (Hfirst [] "transaction_id" []).
    + reflexivity.
    + intros k [].
    + reflexivity.
    + exists [VInt 1; VInt 2], (VInt 1), [], (VInt 1).
      split; [reflexivity |]. split; [left; reflexivity | reflexivity].
Defined.

(** ** Type conformance *)

Lemma to_numeric_accepts E s w :
  ~ has_non_numeric_cell E s -> to_numeric E s w = (Ok tt, w).
Proof.
  intros Hnone. unfold to_numeric.
  destruct (forallb _ s) eqn:Hall; [reflexivity |].
  exfalso. apply Hnone.
  induction s as [| v rest IH]; simpl in Hall; [discriminate |].
  apply andb_false_iff in Hall. destruct Hall as [Hv | Hrest].
  - destruct v; try discriminate. exists s. split; [now left | exact Hv].
  - destruct IH as (str & Hin & Hstr).
    + intros (str & Hin & Hstr). apply Hnone. exists str. split; [now right | exact Hstr].
    + exact Hrest.
    + exists str. split; [now right | exact Hstr].
Qed.

Lemma to_numeric_rejects E s w :
  has_non_numeric_cell E s -> to_numeric E s w = (Raise (PyError "ValueError"), w).
Proof.
  intros (str & Hin & Hstr). unfold to_numeric.
  destruct (forallb _ s) eqn:Hall; [| reflexivity].
  rewrite List.forallb_forall in Hall. specialize (Hall _ Hin). simpl in Hall. congruence.
Qed.

Lemma coerce_accepts E s t w :
  ~ (numeric_type t /\ has_non_numeric_cell E s) -> coerce E s t w = (Ok tt, w).
Proof.
  intros Hok. unfold coerce.
  destruct (String.eqb_spec t "float") as [Hf | _].
  - apply to_numeric_accepts. intros H. apply Hok. split; [now left | exact H].
  - destruct (String.eqb_spec t "int") as [Hi | _].
    + apply to_numeric_accepts. intros H. apply Hok. split; [now right | exact H].
    + now destruct (String.eqb t "str").
Qed.

Lemma coerce_rejects E s t w :
  numeric_type t -> has_non_numeric_cell E s ->
  coerce E s t w = (Raise (PyError "ValueError"), w).
Proof.
  intros [-> | ->] Hbad; unfold coerce; simpl; now apply to_numeric_rejects.
Qed.

Lemma _check_column_types_loop_skip E df items p w :
  (forall col t, In (col, t) items ->
     has_column df col = false
     \/ ~ (numeric_type t /\ has_non_numeric_cell E (getitem df col))) ->
  _check_column_types_loop E df items p w = (Ok tt, w).
Proof.
  induction items as [| [col t] rest IH]; intros Hok; simpl; [reflexivity |].
  assert (Hrest : _check_column_types_loop E df rest p w = (Ok tt, w)).
  { apply IH. intros col' t' Hin. apply Hok. now right. }
  destruct (Hok col t (or_introl eq_refl)) as [Habs | Hfine].
  - now rewrite Habs.
  - destruct (has_column df col); simpl; [| exact Hrest].
    erewrite bind_ok; [exact Hrest |].
    unfold try_except. now rewrite (coerce_accepts E _ _ w Hfine).
Qed.

(** X5. The type check can fail only for a column declared [float] or
    [int], and only when the column holds a string that is not a number:
    declarations of any other type (such as [str] or [string]) and columns
    the data set does not have are skipped.  The first offending column in
    the order of the declarations is reported as [type_mismatch], with one
    [dq_failure] event; without an offending column the check passes
    without a trace. *)
Theorem type_check_reports_first_uncoercible_column E df cfg p w :
  ((forall col t, In (col, t) (column_types cfg) ->
      has_column df col = false
      \/ ~ (numeric_type t /\ has_non_numeric_cell E (getitem df col))) ->
   _check_column_types E df cfg p w = (Ok tt, w))
  /\ (forall pre col t post,
        column_types cfg = pre ++ (col, t) :: post ->
        (forall col' t', In (col', t') pre ->
           has_column df col' = false
           \/ ~ (numeric_type t' /\ has_non_numeric_cell E (getitem df col'))) ->
        has_column df col = true ->
        numeric_type t ->
        has_non_numeric_cell E (getitem df col) ->
        exists e ev,
          _check_column_types E df cfg p w
          = (Raise (DataQualityErr e), World (heap w) (log w ++ [ev]))
          /\ kind e = Some "type_mismatch"
          /\ column e = Some col
          /\ event_type ev = "dq_failure").
Proof.
  unfold _check_column_types. split; [apply _check_column_types_loop_skip |].
  intros pre col t post Hitems Hpre Hcol Htype Hbad. rewrite Hitems. clear Hitems.
  induction pre as [| [col' t'] pre IH]; simpl.
  - rewrite Hcol. simpl. eexists. eexists. split.
    { erewrite bind_raise; [reflexivity |]. unfold try_except.
      rewrite (coerce_rejects E _ _ w Htype Hbad). reflexivity. }
    repeat split.
  - assert (IH' := IH (fun c' u' Hin => Hpre c' u' (or_intror Hin))).
    destruct (Hpre col' t' (or_introl eq_refl)) as [Habs | Hfine].
    + now rewrite Habs.
    + destruct (has_column df col'); simpl; [| exact IH'].
      erewrite bind_ok; [exact IH' |].
      unfold try_except. now rewrite (coerce_accepts E _ _ w Hfine).
Qed.

Lemma type_check_reports_first_uncoercible_column_witness :
  _check_column_types test_env df_five_rows (build_dq_config default_config) "p" empty_world
  = (Ok tt, empty_world)
  /\ exists e ev,
       _check_column_types test_env df_dirty (build_dq_config default_config) "p" empty_world
       = (Raise (DataQualityErr e), World (heap empty_world) (log empty_world ++ [ev]))
       /\ kind e = Some "type_mismatch"
       /\ column e = Some "sales_amount"
       /\ event_type ev = "dq_failure".
Proof.
  split.
  - destruct (type_check_reports_first_uncoercible_column test_env df_five_rows
                (build_dq_config default_config) "p" empty_world) as [Hpass _].
    apply Hpass. intros col t [Heq | []]. inversion Heq; subst. left. reflexivity.
  - destruct (type_check_reports_first_uncoercible_column test_env df_dirty
                (build_dq_config default_config) "p" empty_world) as [_ Hfirst].
    apply (Hfirst [] "sales_amount" "float" []).
    + reflexivity.
    + intros col' t' [].
    + reflexivity.
    + left. reflexivity.
    + exists "n/a". split; [right; left; reflexivity | reflexivity].
Defined.

(** ** Allowed values *)

Lemma value_eqb_str v a : value_eqb v (VStr a) = true <-> v = VStr a.
Proof.
  destruct v; simpl; split; try discriminate; try congruence.
  - intros H. apply String.eqb_eq in H. now subst.
  - intros H. inversion H. apply String.eqb_refl.
Qed.

Lemma value_eqb_refl v : value_eqb v v = true.
Proof.
  destruct v as [| [] | z | q | str]; simpl; try reflexivity.
  - apply Qeq_bool_iff. reflexivity.
  - apply Qeq_bool_iff. reflexivity.
  - apply String.eqb_refl.
Qed.

Lemma allowed_iff v allowed :
  existsb (value_eqb v) (map VStr allowed) = true <-> exists a, In a allowed /\ v = VStr a.
Proof.
  rewrite List.existsb_exists. split.
  - intros (x & Hin & Hx). apply List.in_map_iff in Hin. destruct Hin as (a & <- & Ha).
    exists a. split; [exact Ha | now apply value_eqb_str].
  - intros (a & Ha & ->). exists (VStr a). split; [now apply List.in_map | apply value_eqb_refl].
Qed.

Lemma unique_sound seen s v : In v (unique seen s) -> In v s.
Proof.
  revert seen. induction s as [| x rest IH]; intros seen; simpl; [tauto |].
  destruct (existsb (value_eqb x) seen).
  - intros H. right. now apply (IH seen).
  - intros [-> | H]; [now left | right; now apply (IH (x :: seen))].
Qed.

Lemma unique_complete seen s v :
  In v s -> existsb (value_eqb v) seen = false ->
  exists v', In v' (unique seen s) /\ value_eqb v v' = true.
Proof.
  revert seen. induction s as [| x rest IH]; intros seen Hin Hseen; simpl in *; [tauto |].
  destruct (existsb (value_eqb x) seen) eqn:Hx.
  - destruct Hin as [-> | Hin]; [congruence | now apply IH].
  - destruct Hin as [-> | Hin].
    + exists v. split; [now left | apply value_eqb_refl].
    + destruct (value_eqb v x) eqn:Hvx.
      * exists x. split; [now left | exact Hvx].
      * destruct (IH (x :: seen) Hin) as (v' & Hv' & Heq).
        { simpl. now rewrite Hvx. }
        exists v'. split; [now right | exact Heq].
Qed.

Lemma dropna_In v s : In v (dropna s) <-> In v s /\ isna v = false.
Proof.
  unfold dropna. rewrite List.filter_In. now destruct (isna v).
Qed.

Lemma no_unexpected_values s allowed :
  all_cells_allowed s allowed ->
  set_minus (unique [] (dropna s)) allowed = [].
Proof.
  intros Hall. unfold set_minus.
  destruct (List.filter _ _) as [| v rest] eqn:Hf; [reflexivity |].
  assert (Hin : In v (List.filter
                        (fun v => negb (existsb (value_eqb v) (map VStr allowed)))
                        (unique [] (dropna s)))) by (rewrite Hf; now left).
  apply List.filter_In in Hin. destruct Hin as [Hin Hbad].
  apply unique_sound, dropna_In in Hin. destruct Hin as [Hin Hna].
  destruct (Hall v Hin) as [-> | Hok]; [discriminate |].
  apply allowed_iff in Hok. rewrite Hok in Hbad. discriminate.
Qed.

Lemma some_unexpected_value s allowed :
  ~ all_cells_allowed s allowed ->
  set_minus (unique [] (dropna s)) allowed <> [].
Proof.
  intros Hnot Hnil. apply Hnot. intros v Hin.
  destruct v as [| b | z | q | str] eqn:Hv; [now left | | | |]; right; rewrite <- Hv in *.
  all: destruct (existsb (value_eqb v) (map VStr allowed)) eqn:Hallowed;
    [now apply allowed_iff |].
  all: exfalso.
  all: destruct (unique_complete [] (dropna s) v) as (v' & Hv' & Heq);
    [apply dropna_In; split; [exact Hin | now subst] | reflexivity |].
  all: assert (Hbad : In v' (set_minus (unique [] (dropna s)) allowed));
    [| rewrite Hnil in Hbad; exact Hbad].
  all: unfold set_minus; apply List.filter_In; split; [exact Hv' |].
  all: destruct (existsb (value_eqb v') (map VStr allowed)) eqn:Hv'a; [| reflexivity].
  all: apply allowed_iff in Hv'a; destruct Hv'a as (a & Ha & ->).
  all: apply value_eqb_str in Heq.
  all: assert (Hcontra : existsb (value_eqb v) (map VStr allowed) = true)
    by (apply allowed_iff; eauto).
  all: congruence.
Qed.

Lemma insert_sorted_nonempty v l : insert_sorted v l <> Some [].
Proof.
  destruct l as [| x rest]; simpl; [discriminate |].
  destruct (value_ltb v x) as [[] |]; try discriminate.
  destruct (insert_sorted v rest); discriminate.
Qed.

Lemma sorted_nil l : sorted l = Some [] -> l = [].
Proof.
  destruct l as [| v rest]; simpl; [reflexivity |].
  destruct (sorted rest) as [rest' |]; [| discriminate].
  intros H. now apply insert_sorted_nonempty in H.
Qed.

Lemma _check_allowed_values_loop_skip E df items p w :
  (forall col allowed, In (col, allowed) items ->
     has_column df col = false \/ all_cells_allowed (getitem df col) allowed) ->
  _check_allowed_values_loop E df items p w = (Ok tt, w).
Proof.
  induction items as [| [col allowed] rest IH]; intros Hok; simpl; [reflexivity |].
  assert (Hrest : _check_allowed_values_loop E df rest p w = (Ok tt, w)).
  { apply IH. intros col' a' Hin. apply Hok. now right. }
  destruct (Hok col allowed (or_introl eq_refl)) as [Habs | Hall].
  - now rewrite Habs.
  - destruct (has_column df col); simpl; [| exact Hrest].
    now rewrite (no_unexpected_values _ _ Hall).
Qed.

Lemma value_ltb_kinds a b :
  value_ltb a b <> None ->
  (is_str a = true /\ is_str b = true) \/ (is_num a = true /\ is_num b = true).
Proof.
  unfold value_ltb, is_str, is_num.
  destruct a as [| ba | za | qa | sa], b as [| bb | zb | qb | sb]; simpl;
    intros H; try congruence; auto.
Qed.

Lemma insert_sorted_In v l l' x :
  insert_sorted v l = Some l' -> (In x l' <-> x = v \/ In x l).
Proof.
  revert l'. induction l as [| h rest IH]; intros l'; simpl.
  - intros H. inversion H; subst. simpl. intuition.
  - destruct (value_ltb v h) as [[] |]; [| | discriminate].
    + intros H. inversion H; subst. simpl. intuition.
    + destruct (insert_sorted v rest) as [rest' |]; [| discriminate].
      intros H. inversion H; subst. simpl. rewrite (IH rest' eq_refl). intuition.
Qed.

Lemma sorted_In l l' x : sorted l = Some l' -> (In x l' <-> In x l).
Proof.
  revert l'. induction l as [| v rest IH]; intros l'; simpl.
  - intros H. inversion H; subst. reflexivity.
  - destruct (sorted rest) as [rest' |]; [| discriminate].
    intros H. rewrite (insert_sorted_In _ _ _ x H), (IH rest' eq_refl). intuition.
Qed.

Lemma insert_sorted_same_kind (k : value -> bool) v l :
  (forall a b, k a = true -> k b = true -> value_ltb a b <> None) ->
  k v = true -> forallb k l = true -> insert_sorted v l <> None.
Proof.
  intros Hk Hv. induction l as [| h rest IH]; simpl; [discriminate |].
  intros Hl. apply andb_true_iff in Hl. destruct Hl as [Hh Hrest].
  pose proof (Hk v h Hv Hh) as Hcmp.
  destruct (value_ltb v h) as [[] |]; [discriminate | | congruence].
  specialize (IH Hrest). now destruct (insert_sorted v rest).
Qed.

Lemma sorted_same_kind (k : value -> bool) l :
  (forall a b, k a = true -> k b = true -> value_ltb a b <> None) ->
  forallb k l = true -> sorted l <> None.
Proof.
  intros Hk. induction l as [| v rest IH]; simpl; [discriminate |].
  intros Hl. apply andb_true_iff in Hl. destruct Hl as [Hv Hrest].
  specialize (IH Hrest). destruct (sorted rest) as [rest' |] eqn:Hs; [| congruence].
  apply (insert_sorted_same_kind k); auto.
  apply forallb_forall. intros x Hx. apply (sorted_In _ _ x Hs) in Hx.
  now apply (proj1 (forallb_forall k rest) Hrest).
Qed.

Lemma value_ltb_str a b : is_str a = true -> is_str b = true -> value_ltb a b <> None.
Proof. destruct a, b; simpl; discriminate. Qed.

Lemma value_ltb_num a b : is_num a = true -> is_num b = true -> value_ltb a b <> None.
Proof. destruct a, b; simpl; discriminate. Qed.

Lemma sorted_one_kind l l' :
  sorted l = Some l' ->
  forallb (fun v => negb (isna v)) l = true ->
  forallb is_str l = true \/ forallb is_num l = true.
Proof.
  revert l'. induction l as [| v rest IH]; intros l'; simpl; [auto |].
  destruct (sorted rest) as [rest' |] eqn:Hs; [| discriminate].
  intros Hins Hna. apply andb_true_iff in Hna. destruct Hna as [Hv Hna].
  destruct rest' as [| h tl].
  - apply sorted_nil in Hs. subst rest. simpl.
    destruct v; simpl in *; try discriminate; auto.
  - assert (Hcmp : value_ltb v h <> None).
    { simpl in Hins. destruct (value_ltb v h); [discriminate | discriminate Hins]. }
    assert (Hh : In h rest) by (apply (sorted_In _ _ h Hs); now left).
    destruct (value_ltb_kinds _ _ Hcmp) as [[Hvs Hhs] | [Hvn Hhn]];
      destruct (IH _ eq_refl Hna) as [Hall | Hall].
    + left. now rewrite Hvs.
    + exfalso. pose proof (proj1 (forallb_forall _ _) Hall h Hh) as Hn.
      destruct h; simpl in *; discriminate.
    + exfalso. pose proof (proj1 (forallb_forall _ _) Hall h Hh) as Hn.
      destruct h; simpl in *; discriminate.
    + right. now rewrite Hvn.
Qed.

(** [sorted] raises exactly on a list that mixes strings and numbers. *)
Lemma sorted_raises_iff_mixed l :
  forallb (fun v => negb (isna v)) l = true ->
  (sorted l = None <-> existsb is_str l = true /\ existsb is_num l = true).
Proof.
  intros Hna. split.
  - intros Hnone.
    destruct (forallb is_str l) eqn:Hs;
      [exfalso; now apply (sorted_same_kind is_str l value_ltb_str Hs) |].
    destruct (forallb is_num l) eqn:Hn;
      [exfalso; now apply (sorted_same_kind is_num l value_ltb_num Hn) |].
    clear Hnone. induction l as [| v rest IH]; simpl in *; [discriminate |].
    apply andb_true_iff in Hna. destruct Hna as [Hv Hna].
    destruct v; simpl in *; try discriminate.
    all: try (split; [| reflexivity];
              destruct (forallb is_num rest) eqn:Hn'; [discriminate |];
              destruct (existsb is_str rest) eqn:He; [reflexivity |];
              exfalso; clear - Hn' He Hna;
              induction rest as [| x r IHr]; simpl in *; [discriminate |];
              apply andb_true_iff in Hna; destruct Hna as [Hx Hna];
              apply orb_false_iff in He; destruct He as [Hxs He];
              destruct x; simpl in *; try discriminate; auto).
    split; [reflexivity |].
    destruct (forallb is_str rest) eqn:Hs'; [discriminate |].
    destruct (existsb is_num rest) eqn:He; [reflexivity |].
    exfalso. clear - Hs' He Hna.
    induction rest as [| x r IHr]; simpl in *; [discriminate |].
    apply andb_true_iff in Hna. destruct Hna as [Hx Hna].
    apply orb_false_iff in He. destruct He as [Hxs He].
    destruct x; simpl in *; try discriminate; auto.
  - intros [Hs Hn]. destruct (sorted l) as [l' |] eqn:Hsorted; [| reflexivity].
    exfalso. apply existsb_exists in Hs, Hn.
    destruct Hs as (a & Ha & Has). destruct Hn as (b & Hb & Hbn).
    destruct (sorted_one_kind _ _ Hsorted Hna) as [Hall | Hall].
    + pose proof (proj1 (forallb_forall _ _) Hall b Hb). destruct b; discriminate.
    + pose proof (proj1 (forallb_forall _ _) Hall a Ha). destruct a; discriminate.
Qed.

Lemma set_minus_not_null s allowed :
  forallb (fun v => negb (isna v)) (set_minus (unique [] (dropna s)) allowed) = true.
Proof.
  apply forallb_forall. intros v Hv. unfold set_minus in Hv.
  apply List.filter_In in Hv. destruct Hv as [Hv _].
  apply unique_sound, dropna_In in Hv. destruct Hv as [_ Hna]. now rewrite Hna.
Qed.

Lemma json_ok_unexpected_values E p col bad allowed msg :
  json_ok E (Fields [("pipeline_name", JStr p);
                     ("reason", JStr "allowed_values");
                     ("column", JStr col);
                     ("unexpected_values", JVals bad);
                     ("allowed", JStrs allowed);
                     ("message", JMsg msg)])
  = forallb (json_serializable E) bad.
Proof. unfold json_ok. simpl. now rewrite andb_true_r. Qed.

(** X6. The allowed-values check ignores missing cells and columns the data
    set does not have, and passes without a trace when every other cell of
    every configured column is one of its allowed strings.  Otherwise the
    first configured column (in configuration order) with another value
    stops the validation.  Its offending values are sorted: when they are
    all strings or all numbers, and [json.dumps] accepts them, the check
    logs one [dq_failure] event listing them in order and raises an
    [allowed_values] failure for that column; when they mix strings and
    numbers, [sorted] raises TypeError, and when [json.dumps] rejects one
    of them, the logging raises TypeError; in both cases nothing is
    logged. *)
Theorem allowed_values_reports_first_offending_column E df cfg p w :
  ((forall col allowed, In (col, allowed) (allowed_values cfg) ->
      has_column df col = false \/ all_cells_allowed (getitem df col) allowed) ->
   _check_allowed_values E df cfg p w = (Ok tt, w))
  /\ (forall pre col allowed post,
        allowed_values cfg = pre ++ (col, allowed) :: post ->
        (forall col' allowed', In (col', allowed') pre ->
           has_column df col' = false
           \/ all_cells_allowed (getitem df col') allowed') ->
        has_column df col = true ->
        ~ all_cells_allowed (getitem df col) allowed ->
        let bad := set_minus (unique [] (dropna (getitem df col))) allowed in
        bad <> []
        /\ (forall bad_values,
              sorted bad = Some bad_values ->
              forallb (json_serializable E) bad_values = true ->
              exists e ev,
                _check_allowed_values E df cfg p w
                = (Raise (DataQualityErr e), World (heap w) (log w ++ [ev]))
                /\ kind e = Some "allowed_values"
                /\ column e = Some col
                /\ event_type ev = "dq_failure"
                /\ In ("unexpected_values", JVals bad_values)
                     (match event_details ev with Fields kv => kv | Diagnosis _ => [] end))
        /\ (forall bad_values,
              sorted bad = Some bad_values ->
              forallb (json_serializable E) bad_values = false ->
              _check_allowed_values E df cfg p w = (Raise (PyError "TypeError"), w))
        /\ (sorted bad = None ->
            _check_allowed_values E df cfg p w = (Raise (PyError "TypeError"), w))
        /\ (sorted bad = None
            <-> existsb is_str bad = true /\ existsb is_num bad = true)).
Proof.
  unfold _check_allowed_values. split; [apply _check_allowed_values_loop_skip |].
  intros pre col allowed post Hitems Hpre Hcol Hbad. rewrite Hitems. clear Hitems.
  set (bad := set_minus (unique [] (dropna (getitem df col))) allowed).
  pose proof (some_unexpected_value _ _ Hbad) as Hne. fold bad in Hne.
  assert (Hskip : _check_allowed_values_loop E df (pre ++ (col, allowed) :: post) p w
                  = _check_allowed_values_loop E df ((col, allowed) :: post) p w).
  { induction pre as [| [col' allowed'] pre IH]; [reflexivity |]. simpl.
    assert (IH' := IH (fun c' a' Hin => Hpre c' a' (or_intror Hin))).
    destruct (Hpre col' allowed' (or_introl eq_refl)) as [Habs | Hall].
    - now rewrite Habs.
    - destruct (has_column df col'); simpl; [| exact IH'].
      now rewrite (no_unexpected_values _ _ Hall). }
  rewrite Hskip. simpl. rewrite Hcol. simpl. fold bad.
  split; [exact Hne |].
  split; [| split; [| split]].
  - intros bad_values Hsorted Hjson. rewrite Hsorted.
    destruct bad_values as [| v rest];
      [apply sorted_nil in Hsorted; congruence |].
    rewrite log_then_raise_ok by (now rewrite json_ok_unexpected_values).
    eexists. eexists. split; [reflexivity |]. repeat split. simpl. tauto.
  - intros bad_values Hsorted Hjson. rewrite Hsorted.
    destruct bad_values as [| v rest];
      [apply sorted_nil in Hsorted; congruence |].
    now rewrite log_then_raise_rejected by (now rewrite json_ok_unexpected_values).
  - intros Hsorted. now rewrite Hsorted.
  - apply sorted_raises_iff_mixed, set_minus_not_null.
Qed.

Lemma allowed_values_reports_first_offending_column_witness :
  _check_allowed_values test_env df_five_rows (build_dq_config default_config) "p" empty_world
  = (Ok tt, empty_world)
  /\ (exists e ev,
        _check_allowed_values test_env df_dirty (build_dq_config default_config) "p"
          empty_world
        = (Raise (DataQualityErr e), World (heap empty_world) (log empty_world ++ [ev]))
        /\ kind e = Some "allowed_values"
        /\ column e = Some "region"
        /\ event_type ev = "dq_failure"
        /\ In ("unexpected_values", JVals [VStr "MARS"])
             (match event_details ev with Fields kv => kv | Diagnosis _ => [] end))
  /\ _check_allowed_values test_env df_mixed_region (build_dq_config default_config) "p"
       empty_world
     = (Raise (PyError "TypeError"), empty_world).
Proof.
  assert (Hbad : forall s, In (VStr "MARS") s ->
                           ~ all_cells_allowed s ["APAC"; "EMEA"; "US"]).
  { intros s Hin Hall. destruct (Hall (VStr "MARS") Hin) as [Hnull | (a & Ha & Heq)].
    - discriminate.
    - inversion Heq; subst. simpl in Ha.
      destruct Ha as [Ha | [Ha | [Ha | []]]]; discriminate. }
  split; [| split].
  - destruct (allowed_values_reports_first_offending_column test_env df_five_rows
                (build_dq_config default_config) "p" empty_world) as [Hpass _].
    apply Hpass. intros col allowed [Heq | []]. inversion Heq; subst. right.
    intros v Hin. right. exists "US". split; [simpl; tauto |].
    simpl in Hin. intuition congruence.
  - destruct (allowed_values_reports_first_offending_column test_env df_dirty
                (build_dq_config default_config) "p" empty_world) as [_ Hfirst].
    destruct (Hfirst [] "region" ["APAC"; "EMEA"; "US"] [] eq_refl
                ltac:(intros col' allowed' []) eq_refl
                ltac:(apply Hbad; simpl; tauto))
      as (_ & Hfail & _).
    apply Hfail; reflexivity.
  - destruct (allowed_values_reports_first_offending_column test_env df_mixed_region
                (build_dq_config default_config) "p" empty_world) as [_ Hfirst].
    destruct (Hfirst [] "region" ["APAC"; "EMEA"; "US"] [] eq_refl
                ltac:(intros col' allowed' []) eq_refl
                ltac:(apply Hbad; simpl; tauto))
      as (_ & _ & _ & Hmixed & _).
    apply Hmixed. reflexivity.
Defined.

(** ** Freshness *)

Lemma to_datetime_parses E s w :
  (forall v, In v s -> isna v = false -> parse_date E v <> None) ->
  to_datetime E s w
  = (Ok (map (fun v => if isna v then None else parse_date E v) s), w).
Proof.
  induction s as [| v rest IH]; intros Hparse; simpl; [reflexivity |].
  assert (IH' := IH (fun v' Hin => Hparse v' (or_intror Hin))).
  unfold mbind, M_bind.
  destruct (isna v) eqn:Hna; simpl.
  - now rewrite IH'.
  - destruct (parse_date E v) eqn:Hp; simpl.
    + now rewrite IH'.
    + exfalso. now apply (Hparse v (or_introl eq_refl) Hna).
Qed.

Lemma to_datetime_fails E s w :
  (exists v, In v s /\ isna v = false /\ parse_date E v = None) ->
  to_datetime E s w = (Raise (PyError "ValueError"), w).
Proof.
  induction s as [| x rest IH]; intros (v & Hin & Hna & Hp); simpl in *; [tauto |].
  unfold mbind, M_bind.
  destruct (isna x) eqn:Hx; simpl.
  - destruct Hin as [-> | Hin]; [congruence |].
    rewrite IH by eauto. reflexivity.
  - destruct (parse_date E x) eqn:Hpx; simpl; [| reflexivity].
    destruct Hin as [-> | Hin]; [congruence |].
    rewrite IH by eauto. reflexivity.
Qed.

(** X7. The freshness check does nothing at all (no event, no exception)
    when no date column is configured or its name is empty, when
    [max_days_delay] is missing or is 0, when the data set has no such
    column, or when a cell of the column does not parse as a date. *)
Theorem freshness_check_is_skipped E df cfg p w :
  freshness_date_column cfg = None
  \/ freshness_date_column cfg = Some ""
  \/ freshness_max_days_delay cfg = None
  \/ freshness_max_days_delay cfg = Some 0%Z
  \/ (exists col, freshness_date_column cfg = Some col /\ has_column df col = false)
  \/ (exists col v, freshness_date_column cfg = Some col
                    /\ In v (getitem df col) /\ isna v = false
                    /\ parse_date E v = None) ->
  _check_freshness E df cfg p w = (Ok tt, w).
Proof.
  unfold _check_freshness.
  intros [H | [H | [H | [H | [(col & H & Hcol) | (col & v & H & Hin & Hna & Hp)]]]]];
    rewrite H.
  - reflexivity.
  - reflexivity.
  - now rewrite orb_true_r.
  - now rewrite orb_true_r.
  - destruct (negb (truthy_str (Some col))
              || negb (truthy_int (freshness_max_days_delay cfg))); [reflexivity |].
    cbn [get]. now rewrite Hcol.
  - destruct (negb (truthy_str (Some col))
              || negb (truthy_int (freshness_max_days_delay cfg))); [reflexivity |].
    cbn [get]. destruct (negb (has_column df col)); [reflexivity |].
    unfold try_except, mbind, M_bind.
    rewrite to_datetime_fails by eauto. reflexivity.
Qed.

Lemma freshness_check_is_skipped_witness :
  _check_freshness test_env df_stale
    (build_dq_config
       {| k_pipeline_name := None; k_data_quality := None; k_schema := None;
          k_allowed_values := None;
          k_freshness := Some {| k_date_column := Some "date_of_sale";
                                 k_max_days_delay := Some 0%Z |} |})
    "p" empty_world
  = (Ok tt, empty_world).
Proof.
  apply freshness_check_is_skipped. right. right. right. left. reflexivity.
Defined.

(** X8. With a date column and a non-zero [max_days_delay] configured and
    every non-missing cell of the column parsing as a date, the freshness
    check compares today minus the newest date with [max_days_delay]: up to
    the limit it leaves no trace; beyond the limit it appends one
    [dq_failure] event with reason [freshness] and still returns normally. *)
Theorem freshness_check_logs_but_returns E df cfg p w col max_days newest :
  freshness_date_column cfg = Some col ->
  col <> "" ->
  freshness_max_days_delay cfg = Some max_days ->
  max_days <> 0%Z ->
  has_column df col = true ->
  (forall v, In v (getitem df col) -> isna v = false -> parse_date E v <> None) ->
  series_max (map (fun v => if isna v then None else parse_date E v) (getitem df col))
  = Some newest ->
  ((today E - newest <= max_days)%Z ->
   _check_freshness E df cfg p w = (Ok tt, w))
  /\ ((max_days < today E - newest)%Z ->
      exists ev,
        _check_freshness E df cfg p w = (Ok tt, World (heap w) (log w ++ [ev]))
        /\ event_type ev = "dq_failure"
        /\ In ("reason", JStr "freshness")
             (match event_details ev with Fields kv => kv | Diagnosis _ => [] end)
        /\ In ("delta_days", JInt (today E - newest))
             (match event_details ev with Fields kv => kv | Diagnosis _ => [] end)).
Proof.
  intros Hcol Hne Hdays Hnz Hhas Hparse Hmax.
  unfold _check_freshness. rewrite Hcol, Hdays.
  assert (Htruthy : truthy_str (Some col) = true) by (destruct col; [congruence | reflexivity]).
  assert (Hint : truthy_int (Some max_days) = true).
  { simpl. now destruct (Z.eqb_spec max_days 0). }
  rewrite Htruthy, Hint. simpl. rewrite Hhas. simpl.
  unfold try_except, mbind, M_bind.
  rewrite (to_datetime_parses E _ w Hparse), Hmax.
  unfold mret, M_ret. cbv beta iota.
  split; intros Hcmp.
  - destruct (Z.ltb_spec max_days (today E - newest)); [lia | reflexivity].
  - destruct (Z.ltb_spec max_days (today E - newest)); [| lia].
    unfold log_causal_event, to_float, float_of_num. simpl.
    destruct (float_of_int _); [destruct (float_of_int _) |];
      (eexists; split; [reflexivity |]; split; [reflexivity |]; simpl; split; tauto).
Qed.

Lemma freshness_check_logs_but_returns_witness :
  exists ev,
    _check_freshness test_env df_stale (build_dq_config freshness_only) "p" empty_world
    = (Ok tt, World (heap empty_world) (log empty_world ++ [ev]))
    /\ event_type ev = "dq_failure"
    /\ In ("reason", JStr "freshness")
         (match event_details ev with Fields kv => kv | Diagnosis _ => [] end)
    /\ In ("delta_days", JInt (today test_env - 90))
         (match event_details ev with Fields kv => kv | Diagnosis _ => [] end).
Proof.
  apply (freshness_check_logs_but_returns test_env df_stale
           (build_dq_config freshness_only) "p" empty_world "date_of_sale" 3%Z 90%Z).
  - reflexivity.
  - discriminate.
  - reflexivity.
  - discriminate.
  - reflexivity.
  - intros v [<- | []] _. discriminate.
  - reflexivity.
  - reflexivity.
Defined.

(** ** The verdict depends on the data and the configuration only *)

Lemma ignores_ret {A} (a : A) : result_ignores_world (mret a : M A).
Proof. intros w w'. reflexivity. Qed.

Lemma ignores_raise {A} (e : exn) : result_ignores_world (raise e : M A).
Proof. intros w w'. reflexivity. Qed.

Lemma ignores_log E t d : result_ignores_world (log_causal_event E t d).
Proof. intros w w'. unfold log_causal_event. now destruct (json_ok E d). Qed.

Lemma ignores_bind {A B} (m : M A) (f : A -> M B) :
  result_ignores_world m -> (forall a, result_ignores_world (f a)) ->
  result_ignores_world (m ≫= f).
Proof.
  intros Hm Hf w w'. specialize (Hm w w'). unfold mbind, M_bind.
  destruct (m w) as [[a | e] w1], (m w') as [[a' | e'] w1']; simpl in Hm;
    try discriminate; inversion Hm; subst; [apply Hf | reflexivity].
Qed.

Lemma ignores_try {A} (body : M A) (handler : exn -> M A) :
  result_ignores_world body -> (forall e, result_ignores_world (handler e)) ->
  result_ignores_world (try_except body handler).
Proof.
  intros Hb Hh w w'. specialize (Hb w w'). unfold try_except.
  destruct (body w) as [[a | e] w1], (body w') as [[a' | e'] w1']; simpl in Hb;
    try discriminate; inversion Hb; subst; [reflexivity | apply Hh].
Qed.

Lemma ignores_log_raise E t d (e : exn) :
  result_ignores_world (log_causal_event E t d ;; raise e : M unit).
Proof. apply ignores_bind; [apply ignores_log | intros _; apply ignores_raise]. Qed.

Lemma ignores_to_datetime E s : result_ignores_world (to_datetime E s).
Proof.
  induction s as [| v rest IH]; simpl; [apply ignores_ret |].
  apply ignores_bind.
  - destruct (isna v); [apply ignores_ret |].
    destruct (parse_date E v); [apply ignores_ret | apply ignores_raise].
  - intros d. apply ignores_bind; [exact IH | intros ds; apply ignores_ret].
Qed.

Lemma ignores_row_count E df cfg p : result_ignores_world (_check_row_count E df cfg p).
Proof.
  unfold _check_row_count.
  destruct (_ <? _)%Z; [apply ignores_log_raise | apply ignores_ret].
Qed.

Lemma ignores_null_fraction E df cfg p :
  result_ignores_world (_check_null_fraction E df cfg p).
Proof.
  unfold _check_null_fraction.
  destruct (has_column _ _); [| apply ignores_ret].
  destruct (PrimFloat.ltb _ _); [apply ignores_log_raise | apply ignores_ret].
Qed.

Lemma ignores_schema E df cfg p : result_ignores_world (_check_schema E df cfg p).
Proof.
  unfold _check_schema.
  destruct (List.filter _ _); [apply ignores_ret | apply ignores_log_raise].
Qed.

Lemma ignores_uniqueness E df cfg p : result_ignores_world (_check_uniqueness E df cfg p).
Proof.
  unfold _check_uniqueness.
  induction (unique_keys cfg) as [| col rest IH]; simpl; [apply ignores_ret |].
  destruct (has_column df col); [| exact IH].
  destruct (_ <? _)%Z; [apply ignores_log_raise | exact IH].
Qed.

Lemma ignores_column_types E df cfg p :
  result_ignores_world (_check_column_types E df cfg p).
Proof.
  unfold _check_column_types.
  induction (column_types cfg) as [| [col t] rest IH]; simpl; [apply ignores_ret |].
  destruct (has_column df col); simpl; [| exact IH].
  apply ignores_bind; [| intros _; exact IH].
  apply ignores_try; [| intros e; apply ignores_log_raise].
  unfold coerce, to_numeric.
  repeat match goal with
         | |- context [if ?b then _ else _] => destruct b
         end; apply ignores_ret || apply ignores_raise.
Qed.

Lemma ignores_allowed_values E df cfg p :
  result_ignores_world (_check_allowed_values E df cfg p).
Proof.
  unfold _check_allowed_values.
  induction (allowed_values cfg) as [| [col allowed] rest IH]; simpl; [apply ignores_ret |].
  destruct (has_column df col); simpl; [| exact IH].
  destruct (sorted _) as [[| v bad] |];
    [exact IH | apply ignores_log_raise | apply ignores_raise].
Qed.

Lemma ignores_freshness E df cfg p : result_ignores_world (_check_freshness E df cfg p).
Proof.
  intros w w'. now rewrite !_check_freshness_never_raises.
Qed.

Lemma run_validation_ignores_world E df config p :
  result_ignores_world (run_validation E df config p).
Proof.
  unfold run_validation.
  apply ignores_bind; [apply ignores_row_count | intros _].
  apply ignores_bind; [apply ignores_null_fraction | intros _].
  apply ignores_bind; [apply ignores_schema | intros _].
  apply ignores_bind; [apply ignores_uniqueness | intros _].
  apply ignores_bind; [apply ignores_column_types | intros _].
  apply ignores_bind; [apply ignores_allowed_values | intros _].
  apply ignores_bind; [apply ignores_freshness | intros _].
  apply ignores_log.
Qed.

(** X9. The verdict of [run_validation] (success, or which exception with
    which fields) is a function of the data set, the configuration and the
    environment: it does not depend on what the log or the store hold, so
    validating the same data against the same configuration again gives the
    same verdict. *)
Theorem run_validation_verdict_ignores_world E df config p w w' :
  fst (run_validation E df config p w) = fst (run_validation E df config p w').
Proof. apply run_validation_ignores_world. Qed.

(** ** Diagnosis followed by healing *)

Lemma existsb_eqb_In x l : existsb (String.eqb x) l = true <-> In x l.
Proof.
  rewrite List.existsb_exists. split.
  - intros (y & Hy & Heq). apply String.eqb_eq in Heq. now subst.
  - intros H. exists x. split; [exact H | apply String.eqb_refl].
Qed.

(** X10. Diagnosing a schema drift and applying the diagnosis heals exactly
    one situation.  When [date_of_sale] is among the missing columns, the
    diagnosis proposes the one action [schema_update] from [date_of_sale]
    to [txn_date], and the configuration behind the reference gets every
    [date_of_sale] in its required columns replaced by [txn_date]; for any
    other set of missing columns the diagnosis proposes [no_safe_fix] alone
    and the store is left as it was.  Either way the diagnosis names the
    missing columns, it is logged, and the reference is returned. *)
Theorem schema_drift_is_healed_only_for_date_of_sale E missing c cfg w :
  heap w !! c = Some cfg ->
  exists d a w1 w2,
    diagnose_schema_drift E missing c w = (Ok d, w1)
    /\ d_root_cause d = Some "schema_drift"
    /\ d_missing_columns d = Some missing
    /\ d_suggested_actions d = Some [a]
    /\ apply_schema_healing E c d w1 = (Ok c, w2)
    /\ (In "date_of_sale" missing ->
        a_type a = Some "schema_update"
        /\ a_from a = Some "date_of_sale"
        /\ a_to a = Some "txn_date"
        /\ heap w2
           = <[c := set_required_columns cfg
                      (rename "date_of_sale" "txn_date"
                         (get (k_required_columns (get (k_schema cfg) empty_schema)) []))]>
               (heap w)
        /\ exists ev1 ev2,
             log w2 = log w ++ [ev1; ev2]
             /\ event_type ev1 = "diagnosis" /\ event_details ev1 = Diagnosis d
             /\ event_type ev2 = "healing_applied")
    /\ (~ In "date_of_sale" missing ->
        a_type a = Some "no_safe_fix"
        /\ a_from a = None /\ a_to a = None
        /\ heap w2 = heap w
        /\ exists ev,
             log w2 = log w ++ [ev]
             /\ event_type ev = "diagnosis" /\ event_details ev = Diagnosis d).
Proof.
  intros Hc.
  unfold diagnose_schema_drift, mbind, M_bind, load. rewrite Hc.
  destruct (existsb (String.eqb "date_of_sale") missing) eqn:Hin.
  - eexists. eexists. eexists. eexists. split; [reflexivity |].
    split; [reflexivity |]. split; [reflexivity |]. split; [reflexivity |].
    split.
    + eapply apply_schema_healing_rename; [exact Hc | reflexivity ..].
    + split.
      * intros _. repeat split. simpl. rewrite <- app_assoc.
        eexists. eexists. split; [reflexivity |]. repeat split.
      * intros Hnot. exfalso. apply Hnot. now apply existsb_eqb_In.
  - eexists. eexists. eexists. eexists. split; [reflexivity |].
    split; [reflexivity |]. split; [reflexivity |]. split; [reflexivity |].
    split; [reflexivity |].
    split.
    + intros Hyes. apply existsb_eqb_In in Hyes. congruence.
    + intros _. repeat split. eexists. split; [reflexivity |]. split; reflexivity.
Qed.

Lemma schema_drift_is_healed_only_for_date_of_sale_witness :
  (exists d a w1 w2,
     diagnose_schema_drift test_env ["date_of_sale"] 0%nat one_config_world = (Ok d, w1)
     /\ d_suggested_actions d = Some [a]
     /\ a_type a = Some "schema_update"
     /\ apply_schema_healing test_env 0%nat d w1 = (Ok 0%nat, w2)
     /\ heap w2
        = <[0%nat := set_required_columns default_config
                      ["transaction_id"; "customer_id"; "sales_amount"; "txn_date"]]>
            (heap one_config_world))
  /\ (exists d a w1 w2,
        diagnose_schema_drift test_env ["customer_id"] 0%nat one_config_world = (Ok d, w1)
        /\ d_suggested_actions d = Some [a]
        /\ a_type a = Some "no_safe_fix"
        /\ apply_schema_healing test_env 0%nat d w1 = (Ok 0%nat, w2)
        /\ heap w2 = heap one_config_world).
Proof.
  split.
  - destruct (schema_drift_is_healed_only_for_date_of_sale test_env ["date_of_sale"]
                0%nat default_config one_config_world eq_refl)
      as (d & a & w1 & w2 & Hd & _ & _ & Ha & Hheal & Hyes & _).
    destruct (Hyes ltac:(simpl; tauto)) as (Htype & _ & _ & Hheap & _).
    exists d, a, w1, w2. repeat split; assumption.
  - destruct (schema_drift_is_healed_only_for_date_of_sale test_env ["customer_id"]
                0%nat default_config one_config_world eq_refl)
      as (d & a & w1 & w2 & Hd & _ & _ & Ha & Hheal & _ & Hno).
    destruct (Hno ltac:(simpl; intros [H | []]; discriminate)) as (Htype & _ & _ & Hheap & _).
    exists d, a, w1, w2. repeat split; assumption.
Defined.

Lemma not_tunable_condition err :
  ~ tunable err ->
  (match kind err with Some k => String.eqb k "null_fraction" | None => false end)
  && truthy_str (column err) && is_not_none (observed err) = false.
Proof.
  intros Hnot.
  destruct (_ && _ && _) eqn:Hcond; [| reflexivity].
  exfalso. apply Hnot.
  apply andb_true_iff in Hcond. destruct Hcond as [Hcond Hobs].
  apply andb_true_iff in Hcond. destruct Hcond as [Hkind Hcol].
  unfold tunable. repeat split.
  - destruct (kind err) as [k |]; [| discriminate].
    apply String.eqb_eq in Hkind. now subst.
  - destruct (column err) as [[| ch col] |]; try discriminate.
    eexists. split; [reflexivity | discriminate].
  - destruct (observed err) as [o |]; [eauto | discriminate].
Qed.

(** X11. A data-quality failure that is not a [null_fraction] with a column
    name and an observed value (a [row_count], [uniqueness],
    [type_mismatch], [allowed_values] or [freshness] failure, for instance)
    cannot be healed: the diagnosis proposes [no_safe_fix] alone, applying
    it returns the reference, and the store is what it was; the only trace
    is the [dq_diagnosis] event. *)
Theorem untunable_failure_is_not_healed E err c cfg w :
  heap w !! c = Some cfg ->
  ~ tunable err ->
  exists d a w1,
    diagnose_dq_issue E err c w = (Ok d, w1)
    /\ d_suggested_actions d = Some [a]
    /\ a_type a = Some "no_safe_fix"
    /\ apply_dq_healing E c d w1 = (Ok c, w1)
    /\ heap w1 = heap w
    /\ exists ev, log w1 = log w ++ [ev] /\ event_type ev = "dq_diagnosis".
Proof.
  intros Hc Hnot.
  unfold diagnose_dq_issue, mbind, M_bind, load. rewrite Hc.
  rewrite (not_tunable_condition err Hnot).
  eexists. eexists. eexists. split; [reflexivity |].
  split; [reflexivity |]. split; [reflexivity |]. split; [reflexivity |].
  split; [reflexivity |]. eexists. split; reflexivity.
Qed.

Lemma untunable_failure_is_not_healed_witness :
  exists d a w1,
    diagnose_dq_issue test_env row_count_error 0%nat one_config_world = (Ok d, w1)
    /\ d_suggested_actions d = Some [a]
    /\ a_type a = Some "no_safe_fix"
    /\ apply_dq_healing test_env 0%nat d w1 = (Ok 0%nat, w1)
    /\ heap w1 = heap one_config_world
    /\ exists ev, log w1 = log one_config_world ++ [ev]
                  /\ event_type ev = "dq_diagnosis".
Proof.
  apply (untunable_failure_is_not_healed test_env row_count_error 0%nat
           default_config one_config_world).
  - reflexivity.
  - intros (Hkind & _). discriminate Hkind.
Defined.

Lemma leb_ltb_trans x y z :
  (x <=? y)%float = true -> (y <? z)%float = true -> (x <? z)%float = true.
Proof.
  rewrite leb_spec, !ltb_spec. intros H1 H2.
  destruct (SFleb_not_nan _ _ H1) as [N1 N2]. destruct (SFltb_not_nan _ _ H2) as [_ N3].
  apply SFleb_key in H1; auto. apply SFltb_key in H2; auto. apply SFltb_key; auto.
  unfold lex_le, lex_lt in *.
  destruct (key (Prim2SF x)) as [[a1 a2] a3], (key (Prim2SF y)) as [[b1 b2] b3],
    (key (Prim2SF z)) as [[c1 c2] c3].
  lia.
Qed.

(** A double that is at least 1.0 and not above it is 1.0. *)
Lemma leb_antisym_one a :
  (1 <=? a)%float = true -> (1 <? a)%float = false -> a = 1%float.
Proof.
  rewrite leb_spec, ltb_spec, Prim2SF_one. intros H1 H2.
  assert (H : Prim2SF a = Prim2SF 1).
  { rewrite Prim2SF_one.
    destruct (Prim2SF a) as [s | [] | | [] m e]; try discriminate.
    unfold SFleb, SFltb, SFcompare in *.
    destruct (Z.compare_spec (-52) e) as [Heq | |]; try discriminate.
    change (Pos.compare_cont Eq 4503599627370496 m)
      with (Pos.compare 4503599627370496 m) in *.
    destruct (Pos.compare_spec 4503599627370496 m) as [Hm | |]; try discriminate.
    now subst. }
  rewrite <- (SF2Prim_Prim2SF a), H. apply SF2Prim_Prim2SF.
Qed.

Lemma SFeqb_refl_nan x : SFeqb x x = false -> x = S754_nan.
Proof.
  unfold SFeqb, SFcompare.
  destruct x as [s | [] | | [] m e]; try discriminate; try reflexivity.
  - rewrite Z.compare_refl.
    change (Pos.compare_cont Eq m m) with (Pos.compare m m).
    rewrite Pos.compare_refl. discriminate.
  - rewrite Z.compare_refl.
    change (Pos.compare_cont Eq m m) with (Pos.compare m m).
    rewrite Pos.compare_refl. discriminate.
Qed.

(** NaN plus anything is NaN, and NaN is neither below nor above anything. *)
Lemma nan_add o c y :
  (o =? o)%float = false ->
  (o + c =? o + c)%float = false
  /\ (o + c <? y)%float = false /\ (y <? o + c)%float = false.
Proof.
  rewrite !FloatAxioms.eqb_spec, !ltb_spec, !add_spec. intros H.
  apply SFeqb_refl_nan in H. rewrite H. unfold SF64add. simpl.
  repeat split. now destruct (Prim2SF y) as [s | [] | | [] m e].
Qed.

Lemma fmin_not_above_one m : (1 <? fmin m 1)%float = false.
Proof. unfold fmin. now destruct (1 <? m)%float eqn:H. Qed.

(** X12. Whatever the observed double (no range is assumed; it may be an
    infinity or NaN) and the threshold (a double, or absent) carried by a
    [null_fraction] failure, diagnosing and healing sets
    [max_null_fraction] to a value that is never greater than 1.0: it is
    exactly 1.0 when [observed + 0.05] reaches 1.0, and NaN when the
    observed value is NaN.  Nothing else in the store changes. *)
Theorem healed_threshold_never_exceeds_one E err c cfg w col o :
  heap w !! c = Some cfg ->
  kind err = Some "null_fraction" ->
  column err = Some col -> col <> "" ->
  observed err = Some (NFloat o) ->
  (forall z, threshold err <> Some (NInt z)) ->
  exists d w1 w2 new_thr,
    diagnose_dq_issue E err c w = (Ok d, w1)
    /\ apply_dq_healing E c d w1 = (Ok c, w2)
    /\ heap w2 = <[c := set_max_null_fraction cfg new_thr]> (heap w)
    /\ (1 <? new_thr)%float = false
    /\ ((1 <=? o + 0.05)%float = true -> new_thr = 1%float)
    /\ ((o =? o)%float = false -> (new_thr =? new_thr)%float = false).
Proof.
  intros Hc Hkind Hcol Hne Hobs Hthr.
  pose proof (diagnose_dq_issue_tunable E err c cfg w col (NFloat o)
                Hc Hkind Hcol Hne Hobs) as Hdiag.
  cbn [float_of_num] in Hdiag. cbv zeta in Hdiag.
  rewrite (or_zero_float _ Hthr), py_max_float, py_min_float in Hdiag.
  cbn [float_of_num] in Hdiag.
  destruct Hdiag as (d & a & Hdiag & Hact & Htype & _ & Hnew).
  set (t := match threshold err with
            | Some (NFloat f) => if (f =? 0)%float then 0%float else f
            | _ => 0%float
            end) in *.
  match type of Hdiag with _ = (_, ?w) => set (w1 := w) in * end.
  assert (Hc1 : heap w1 !! c = Some cfg) by exact Hc.
  assert (Hact' : get (d_suggested_actions d) [] = [a]) by now rewrite Hact.
  pose proof (apply_dq_healing_update E c cfg d w1 a [] _ _
                Hc1 Hact' Htype Hnew eq_refl) as Hheal.
  eexists. eexists. eexists. eexists.
  split; [exact Hdiag |]. split; [exact Hheal |]. split; [reflexivity |].
  split; [apply fmin_not_above_one |]. split.
  - intros Ho. unfold fmin, fmax.
    destruct (o + 0.05 <? t)%float eqn:Hlt.
    + now rewrite (leb_ltb_trans _ _ _ Ho Hlt).
    + destruct (1 <? o + 0.05)%float eqn:H1; [reflexivity |].
      now apply leb_antisym_one.
  - intros Hnan. unfold fmin, fmax.
    destruct (nan_add o 0.05 t Hnan) as (Heq & Hlt & _).
    destruct (nan_add o 0.05 1 Hnan) as (_ & _ & Hgt).
    now rewrite Hlt, Hgt.
Qed.

Lemma healed_threshold_never_exceeds_one_witness :
  exists d w1 w2,
    diagnose_dq_issue test_env high_null_fraction_error 0%nat one_config_world = (Ok d, w1)
    /\ apply_dq_healing test_env 0%nat d w1 = (Ok 0%nat, w2)
    /\ heap w2 = <[0%nat := set_max_null_fraction default_config 1%float]>
                   (heap one_config_world).
Proof.
  destruct (healed_threshold_never_exceeds_one test_env high_null_fraction_error 0%nat
              default_config one_config_world "sales_amount" 0.97%float
              eq_refl eq_refl eq_refl ltac:(discriminate) eq_refl
              ltac:(intros z; discriminate))
    as (d & w1 & w2 & new_thr & Hdiag & Hheal & Hheap & _ & Hone & _).
  rewrite (Hone eq_refl) in Hheap.
  exists d, w1, w2. split; [exact Hdiag |]. split; [exact Hheal | exact Hheap].
Defined.

(** ** The renaming and its edge cases *)

(** X13. The renaming done by [apply_schema_healing] keeps the number and
    the positions of the required columns: a column equal to [from] becomes
    [to] where it stands and every other column stays where it is.  When
    [from] and [to] differ, [from] no longer occurs afterwards; when [from]
    does not occur, the list is unchanged. *)
Theorem rename_replaces_in_place from_col to_col cols :
  List.length (rename from_col to_col cols) = List.length cols
  /\ (forall i c, nth_error cols i = Some c ->
        nth_error (rename from_col to_col cols) i
        = Some (if String.eqb c from_col then to_col else c))
  /\ (from_col <> to_col -> ~ In from_col (rename from_col to_col cols))
  /\ (~ In from_col cols -> rename from_col to_col cols = cols).
Proof.
  unfold rename. split; [apply List.length_map |]. split; [| split].
  - intros i c Hi.
    exact (List.map_nth_error
             (fun c => if String.eqb c from_col then to_col else c) i cols Hi).
  - intros Hne Hin. apply List.in_map_iff in Hin. destruct Hin as (c & Hc & _).
    destruct (String.eqb_spec c from_col); congruence.
  - intros Hnot. induction cols as [| c rest IH]; simpl; [reflexivity |].
    rewrite IH by (intros H; apply Hnot; now right).
    destruct (String.eqb_spec c from_col) as [-> | _]; [| reflexivity].
    exfalso. apply Hnot. now left.
Qed.

Lemma rename_replaces_in_place_witness :
  ~ In "date_of_sale"
      (rename "date_of_sale" "txn_date"
         ["transaction_id"; "customer_id"; "sales_amount"; "date_of_sale"])
  /\ rename "date_of_sale" "txn_date" ["transaction_id"; "customer_id"]
     = ["transaction_id"; "customer_id"].
Proof.
  split.
  - apply (rename_replaces_in_place "date_of_sale" "txn_date"
             ["transaction_id"; "customer_id"; "sales_amount"; "date_of_sale"]).
    discriminate.
  - apply (rename_replaces_in_place "date_of_sale" "txn_date"
             ["transaction_id"; "customer_id"]).
    simpl. intros [H | [H | []]]; discriminate.
Defined.

(** X14. A first action of the right type that lacks a key the healing
    function indexes ([from] or [to] of a [schema_update],
    [new_threshold] of a [dq_update_max_null]) makes the function raise
    KeyError before it has touched anything: the store and the log are as
    they were. *)
Theorem healing_with_incomplete_action_raises_KeyError E c d w a rest :
  get (d_suggested_actions d) [] = a :: rest ->
  (a_type a = Some "schema_update" ->
   a_from a = None \/ a_to a = None ->
   apply_schema_healing E c d w = (Raise (PyError "KeyError"), w))
  /\ (a_type a = Some "dq_update_max_null" ->
      a_new_threshold a = None ->
      apply_dq_healing E c d w = (Raise (PyError "KeyError"), w)).
Proof.
  intros Hact. split.
  - intros Htype Hmissing. unfold apply_schema_healing.
    rewrite Hact, (type_is_true _ _ Htype). simpl.
    unfold mbind, M_bind, item.
    destruct Hmissing as [H | H]; rewrite H; [reflexivity |].
    now destruct (a_from a).
  - intros Htype Hmissing. unfold apply_dq_healing.
    rewrite Hact, (type_is_true _ _ Htype), Hmissing. reflexivity.
Qed.

Lemma healing_with_incomplete_action_raises_KeyError_witness :
  apply_schema_healing test_env 0%nat broken_rename_diagnosis one_config_world
  = (Raise (PyError "KeyError"), one_config_world)
  /\ apply_dq_healing test_env 0%nat broken_raise_diagnosis one_config_world
     = (Raise (PyError "KeyError"), one_config_world).
Proof.
  split.
  - destruct (healing_with_incomplete_action_raises_KeyError test_env 0%nat
                broken_rename_diagnosis one_config_world
                {| a_type := Some "schema_update"; a_description := None;
                   a_from := Some "date_of_sale"; a_to := None;
                   a_column := None; a_new_threshold := None |} [] eq_refl)
      as [Hschema _].
    apply Hschema; [reflexivity | now right].
  - destruct (healing_with_incomplete_action_raises_KeyError test_env 0%nat
                broken_raise_diagnosis one_config_world
                {| a_type := Some "dq_update_max_null"; a_description := None;
                   a_from := None; a_to := None;
                   a_column := None; a_new_threshold := None |} [] eq_refl)
      as [_ Hdq].
    apply Hdq; reflexivity.
Defined.

(** ** What healing leaves alone *)

(** X15. Healing changes one rule and nothing else.  After a schema
    healing, the row-count, null-fraction, uniqueness, type, allowed-values
    and freshness checks behave on the healed configuration exactly as on
    the original one, and the pipeline name is kept; after a data-quality
    healing the same holds with the schema check in place of the
    null-fraction check.  This holds also when the healing had to create
    the [schema] or [data_quality] section. *)
Theorem healing_changes_one_rule_only E df p cfg new_cols new_thr :
  let healed_schema := set_required_columns cfg new_cols in
  let healed_dq := set_max_null_fraction cfg new_thr in
  (required_columns (build_dq_config healed_schema) = new_cols
   /\ k_pipeline_name healed_schema = k_pipeline_name cfg
   /\ _check_row_count E df (build_dq_config healed_schema) p
      = _check_row_count E df (build_dq_config cfg) p
   /\ _check_null_fraction E df (build_dq_config healed_schema) p
      = _check_null_fraction E df (build_dq_config cfg) p
   /\ _check_uniqueness E df (build_dq_config healed_schema) p
      = _check_uniqueness E df (build_dq_config cfg) p
   /\ _check_column_types E df (build_dq_config healed_schema) p
      = _check_column_types E df (build_dq_config cfg) p
   /\ _check_allowed_values E df (build_dq_config healed_schema) p
      = _check_allowed_values E df (build_dq_config cfg) p
   /\ _check_freshness E df (build_dq_config healed_schema) p
      = _check_freshness E df (build_dq_config cfg) p)
  /\ (max_null_fraction (build_dq_config healed_dq) = new_thr
      /\ k_pipeline_name healed_dq = k_pipeline_name cfg
      /\ _check_row_count E df (build_dq_config healed_dq) p
         = _check_row_count E df (build_dq_config cfg) p
      /\ _check_schema E df (build_dq_config healed_dq) p
         = _check_schema E df (build_dq_config cfg) p
      /\ _check_uniqueness E df (build_dq_config healed_dq) p
         = _check_uniqueness E df (build_dq_config cfg) p
      /\ _check_column_types E df (build_dq_config healed_dq) p
         = _check_column_types E df (build_dq_config cfg) p
      /\ _check_allowed_values E df (build_dq_config healed_dq) p
         = _check_allowed_values E df (build_dq_config cfg) p
      /\ _check_freshness E df (build_dq_config healed_dq) p
         = _check_freshness E df (build_dq_config cfg) p).
Proof.
  simpl. repeat split.
Qed.

(** ** The exception names the check that stopped the run *)

Lemma log_then_raise_inv E t d (e0 e : exn) w w' :
  (log_causal_event E t d ;; raise e0 : M unit) w = (Raise e, w') ->
  e = e0 \/ e = PyError "TypeError".
Proof.
  destruct (json_ok E d) eqn:Hj.
  - rewrite (log_then_raise_ok _ _ _ _ _ Hj). intros H. inversion H. now left.
  - rewrite (log_then_raise_rejected _ _ _ _ _ Hj). intros H. inversion H. now right.
Qed.

Lemma of_kind_log_raise E t d dq k e w w' :
  kind dq = Some k ->
  (log_causal_event E t d ;; raise (DataQualityErr dq) : M unit) w = (Raise e, w') ->
  of_kind k e.
Proof.
  intros Hk H. apply log_then_raise_inv in H. destruct H as [-> | ->].
  - left. eauto.
  - right. eauto.
Qed.

Lemma row_count_raises E df cfg p w e w' :
  _check_row_count E df cfg p w = (Raise e, w') -> of_kind "row_count" e.
Proof.
  unfold _check_row_count. destruct (_ <? _)%Z; [| discriminate].
  now apply of_kind_log_raise.
Qed.

Lemma null_fraction_raises E df cfg p w e w' :
  _check_null_fraction E df cfg p w = (Raise e, w') -> of_kind "null_fraction" e.
Proof.
  unfold _check_null_fraction.
  destruct (has_column _ _); [| discriminate].
  destruct (PrimFloat.ltb _ _); [| discriminate].
  intros H. eapply of_kind_log_raise; [| exact H]. reflexivity.
Qed.

Lemma schema_raises E df cfg p w e w' :
  _check_schema E df cfg p w = (Raise e, w') ->
  e = SchemaDriftError (missing_required df cfg) /\ missing_required df cfg <> [].
Proof.
  unfold _check_schema. fold (missing_required df cfg).
  destruct (missing_required df cfg) as [| c rest]; [discriminate |].
  intros H. inversion H. split; [reflexivity | discriminate].
Qed.

Lemma uniqueness_raises E df cfg p w e w' :
  _check_uniqueness E df cfg p w = (Raise e, w') -> of_kind "uniqueness" e.
Proof.
  unfold _check_uniqueness.
  induction (unique_keys cfg) as [| col rest IH]; simpl; [discriminate |].
  destruct (has_column df col); [| exact IH].
  destruct (_ <? _)%Z; [| exact IH].
  intros H. eapply of_kind_log_raise; [| exact H]. reflexivity.
Qed.

Lemma column_types_raises E df cfg p w e w' :
  _check_column_types E df cfg p w = (Raise e, w') -> of_kind "type_mismatch" e.
Proof.
  unfold _check_column_types.
  induction (column_types cfg) as [| [col t] rest IH]; simpl; [discriminate |].
  destruct (has_column df col); simpl; [| exact IH].
  intros H. apply bind_inv in H.
  destruct H as [(a & w1 & Htry & Hrest) | (e' & Htry & Heq)];
    [| inversion Heq; subst e'].
  - unfold try_except in Htry.
    destruct (coerce_pure E (getitem df col) t w) as [Hc | [e0 Hc]]; rewrite Hc in Htry.
    + inversion Htry; subst. now apply IH.
    + unfold mbind, M_bind, log_causal_event, raise in Htry.
      destruct (json_ok _ _) in Htry; discriminate.
  - unfold try_except in Htry.
    destruct (coerce_pure E (getitem df col) t w) as [Hc | [e0 Hc]]; rewrite Hc in Htry.
    + discriminate.
    + eapply of_kind_log_raise; [| exact Htry]. reflexivity.
Qed.

Lemma allowed_values_raises E df cfg p w e w' :
  _check_allowed_values E df cfg p w = (Raise e, w') -> of_kind "allowed_values" e.
Proof.
  unfold _check_allowed_values.
  induction (allowed_values cfg) as [| [col allowed] rest IH]; simpl; [discriminate |].
  destruct (has_column df col); simpl; [| exact IH].
  destruct (sorted _) as [[| v bad] |].
  - exact IH.
  - intros H. eapply of_kind_log_raise; [| exact H]. reflexivity.
  - intros H. inversion H. right. eauto.
Qed.

Lemma check_passes_in_place (c : M unit) w a w1 :
  check_outcome c -> c w = (Ok a, w1) -> c w = (Ok tt, w).
Proof.
  intros Hc H. destruct (Hc w) as [H0 | [(e & ev & H0 & _) | [name H0]]];
    [exact H0 | congruence | congruence].
Qed.

Lemma check_passes_world (c : M unit) w a w1 :
  check_outcome c -> c w = (Ok a, w1) -> w1 = w.
Proof.
  intros Hc H. pose proof (check_passes_in_place c w a w1 Hc H) as H0. congruence.
Qed.

Lemma run_validation_raise_inv E df config p w e w' :
  run_validation E df config p w = (Raise e, w') ->
  let cfg := build_dq_config config in
  (forall missing, e = SchemaDriftError missing ->
     missing = missing_required df cfg /\ missing <> []
     /\ _check_row_count E df cfg p w = (Ok tt, w)
     /\ _check_null_fraction E df cfg p w = (Ok tt, w))
  /\ (forall dq, e = DataQualityErr dq ->
        (kind dq = Some "row_count"
         /\ _check_row_count E df cfg p w = (Raise e, w'))
        \/ (kind dq = Some "null_fraction"
            /\ _check_row_count E df cfg p w = (Ok tt, w)
            /\ _check_null_fraction E df cfg p w = (Raise e, w'))
        \/ (kind dq = Some "uniqueness"
            /\ _check_schema E df cfg p w = (Ok tt, w)
            /\ _check_uniqueness E df cfg p w = (Raise e, w'))
        \/ (kind dq = Some "type_mismatch"
            /\ _check_uniqueness E df cfg p w = (Ok tt, w)
            /\ _check_column_types E df cfg p w = (Raise e, w'))
        \/ (kind dq = Some "allowed_values"
            /\ _check_column_types E df cfg p w = (Ok tt, w)
            /\ _check_allowed_values E df cfg p w = (Raise e, w'))).
Proof.
  intros Hrun cfg. unfold run_validation in Hrun. fold cfg in Hrun.
  apply bind_inv in Hrun.
  destruct Hrun as [(a1 & w1 & H1 & Hrun) | (e1 & H1 & Heq)];
    [| inversion Heq; subst e1; clear Heq].
  2: { pose proof (row_count_raises _ _ _ _ _ _ _ H1) as [(dq & -> & Hk) | (n & ->)].
       - split; [intros m Hm; discriminate |].
         intros dq' Hdq. inversion Hdq; subst. left. now split.
       - split; intros ? Hm; discriminate. }
  pose proof (check_passes_in_place _ _ _ _ (_check_row_count_outcome E df cfg p) H1) as P1.
  apply (check_passes_world _ _ _ _ (_check_row_count_outcome E df cfg p)) in H1. subst w1.
  apply bind_inv in Hrun.
  destruct Hrun as [(a2 & w2 & H2 & Hrun) | (e2 & H2 & Heq)];
    [| inversion Heq; subst e2; clear Heq].
  2: { pose proof (null_fraction_raises _ _ _ _ _ _ _ H2) as [(dq & -> & Hk) | (n & ->)].
       - split; [intros m Hm; discriminate |].
         intros dq' Hdq. inversion Hdq; subst. right. left. now repeat split.
       - split; intros ? Hm; discriminate. }
  pose proof (check_passes_in_place _ _ _ _ (_check_null_fraction_outcome E df cfg p) H2)
    as P2.
  apply (check_passes_world _ _ _ _ (_check_null_fraction_outcome E df cfg p)) in H2.
  subst w2.
  apply bind_inv in Hrun.
  destruct Hrun as [(a3 & w3 & H3 & Hrun) | (e3 & H3 & Heq)];
    [| inversion Heq; subst e3; clear Heq].
  2: { apply schema_raises in H3. destruct H3 as [-> Hne].
       split; [| intros dq' Hdq; discriminate].
       intros m Hm. inversion Hm; subst. now repeat split. }
  pose proof (check_passes_in_place _ _ _ _ (_check_schema_outcome E df cfg p) H3) as P3.
  apply (check_passes_world _ _ _ _ (_check_schema_outcome E df cfg p)) in H3. subst w3.
  apply bind_inv in Hrun.
  destruct Hrun as [(a4 & w4 & H4 & Hrun) | (e4 & H4 & Heq)];
    [| inversion Heq; subst e4; clear Heq].
  2: { pose proof (uniqueness_raises _ _ _ _ _ _ _ H4) as [(dq & -> & Hk) | (n & ->)].
       - split; [intros m Hm; discriminate |].
         intros dq' Hdq. inversion Hdq; subst. right. right. left. now repeat split.
       - split; intros ? Hm; discriminate. }
  pose proof (check_passes_in_place _ _ _ _ (_check_uniqueness_outcome E df cfg p) H4) as P4.
  apply (check_passes_world _ _ _ _ (_check_uniqueness_outcome E df cfg p)) in H4. subst w4.
  apply bind_inv in Hrun.
  destruct Hrun as [(a5 & w5 & H5 & Hrun) | (e5 & H5 & Heq)];
    [| inversion Heq; subst e5; clear Heq].
  2: { pose proof (column_types_raises _ _ _ _ _ _ _ H5) as [(dq & -> & Hk) | (n & ->)].
       - split; [intros m Hm; discriminate |].
         intros dq' Hdq. inversion Hdq; subst. right. right. right. left.
         now repeat split.
       - split; intros ? Hm; discriminate. }
  pose proof (check_passes_in_place _ _ _ _ (_check_column_types_outcome E df cfg p) H5)
    as P5.
  apply (check_passes_world _ _ _ _ (_check_column_types_outcome E df cfg p)) in H5.
  subst w5.
  apply bind_inv in Hrun.
  destruct Hrun as [(a6 & w6 & H6 & Hrun) | (e6 & H6 & Heq)];
    [| inversion Heq; subst e6; clear Heq].
  2: { pose proof (allowed_values_raises _ _ _ _ _ _ _ H6) as [(dq & -> & Hk) | (n & ->)].
       - split; [intros m Hm; discriminate |].
         intros dq' Hdq. inversion Hdq; subst. right. right. right. right.
         now repeat split.
       - split; intros ? Hm; discriminate. }
  exfalso.
  apply bind_inv in Hrun.
  destruct Hrun as [(a7 & w7 & H7 & Hrun) | (e7 & H7 & Heq)];
    [| inversion Heq; subst e7; clear Heq].
  - unfold log_causal_event in Hrun. simpl in Hrun. discriminate.
  - pose proof (_check_freshness_never_raises E df cfg p w6) as Hnever.
    rewrite H7 in Hnever. discriminate.
Qed.

(** X16. The exception that leaves [run_validation] tells which check
    stopped the run, and every earlier check has passed without a trace: a
    [SchemaDriftError] carries the missing required columns and means the
    row-count and null-fraction checks passed; a [DataQualityError] has one
    of the kinds [row_count], [null_fraction], [uniqueness],
    [type_mismatch], [allowed_values] and was raised by the check of that
    name.  The kind [freshness] never leaves [run_validation]. *)
Theorem raised_exception_names_the_check E df config p w e w' :
  run_validation E df config p w = (Raise e, w') ->
  let cfg := build_dq_config config in
  (forall missing, e = SchemaDriftError missing ->
     missing = missing_required df cfg /\ missing <> []
     /\ _check_row_count E df cfg p w = (Ok tt, w)
     /\ _check_null_fraction E df cfg p w = (Ok tt, w))
  /\ (forall dq, e = DataQualityErr dq ->
        (kind dq = Some "row_count"
         /\ _check_row_count E df cfg p w = (Raise e, w'))
        \/ (kind dq = Some "null_fraction"
            /\ _check_row_count E df cfg p w = (Ok tt, w)
            /\ _check_null_fraction E df cfg p w = (Raise e, w'))
        \/ (kind dq = Some "uniqueness"
            /\ _check_schema E df cfg p w = (Ok tt, w)
            /\ _check_uniqueness E df cfg p w = (Raise e, w'))
        \/ (kind dq = Some "type_mismatch"
            /\ _check_uniqueness E df cfg p w = (Ok tt, w)
            /\ _check_column_types E df cfg p w = (Raise e, w'))
        \/ (kind dq = Some "allowed_values"
            /\ _check_column_types E df cfg p w = (Ok tt, w)
            /\ _check_allowed_values E df cfg p w = (Raise e, w'))).
Proof. apply run_validation_raise_inv. Qed.

Lemma raised_exception_names_the_check_witness :
  exists w',
    run_validation test_env df_five_rows default_config "p" empty_world
    = (Raise (SchemaDriftError
                ["transaction_id"; "customer_id"; "sales_amount"; "date_of_sale"]), w')
    /\ ["transaction_id"; "customer_id"; "sales_amount"; "date_of_sale"]
       = missing_required df_five_rows (build_dq_config default_config)
    /\ ["transaction_id"; "customer_id"; "sales_amount"; "date_of_sale"] <> []
    /\ _check_row_count test_env df_five_rows (build_dq_config default_config) "p"
         empty_world = (Ok tt, empty_world)
    /\ _check_null_fraction test_env df_five_rows (build_dq_config default_config) "p"
         empty_world = (Ok tt, empty_world).
Proof.
  eexists. split; [reflexivity |].
  apply (raised_exception_names_the_check test_env df_five_rows default_config "p"
           empty_world
           (SchemaDriftError
              ["transaction_id"; "customer_id"; "sales_amount"; "date_of_sale"])
           _ eq_refl).
  reflexivity.
Defined.

(** ** main.py: one validate, heal, re-validate pass *)

Ltac destruct_scrutinee H :=
  match type of H with
  | context [match ?x with _ => _ end] =>
      lazymatch x with
      | context [match _ with _ => _ end] => fail
      | _ => let Eq := fresh "Eq" in destruct x eqn:Eq
      end
  end.

(** X17. One pass of [run_upload] counts at most one healing attempt and at
    most one success, and a success only together with an attempt: the
    metrics move by (0,0), (+1,0) or (+1,+1), so [successes <= attempts]
    is kept.  The incidents table only grows, by at most two rows. *)
Theorem run_upload_counts_one_attempt E user_id df c s r s' :
  run_upload E user_id df c s = (r, s') ->
  ((attempts (db_metrics s') = attempts (db_metrics s)
    /\ successes (db_metrics s') = successes (db_metrics s))
   \/ (attempts (db_metrics s') = attempts (db_metrics s) + 1
       /\ successes (db_metrics s') = successes (db_metrics s))
   \/ (attempts (db_metrics s') = attempts (db_metrics s) + 1
       /\ successes (db_metrics s') = successes (db_metrics s) + 1))%Z
  /\ exists incs,
       db_incidents s' = db_incidents s ++ incs /\ (List.length incs <= 2)%nat.
Proof.
  unfold run_upload, in_world. intros H.
  repeat destruct_scrutinee H; inversion H; subst; simpl; clear.
  all: split; [lia |].
  all: try (exists []; split; [now rewrite app_nil_r | simpl; lia]).
  all: try (eexists; split; [reflexivity | simpl; lia]).
  all: rewrite <- app_assoc; eexists; split; [reflexivity | simpl; lia].
Qed.

Lemma run_upload_counts_one_attempt_witness :
  ((attempts (db_metrics (snd (run_upload test_env 1%nat df_five_rows 0%nat app_before)))
    = attempts (db_metrics app_before)
    /\ successes (db_metrics (snd (run_upload test_env 1%nat df_five_rows 0%nat app_before)))
       = successes (db_metrics app_before))
   \/ (attempts (db_metrics (snd (run_upload test_env 1%nat df_five_rows 0%nat app_before)))
       = attempts (db_metrics app_before) + 1
       /\ successes (db_metrics (snd (run_upload test_env 1%nat df_five_rows 0%nat app_before)))
          = successes (db_metrics app_before))
   \/ (attempts (db_metrics (snd (run_upload test_env 1%nat df_five_rows 0%nat app_before)))
       = attempts (db_metrics app_before) + 1
       /\ successes (db_metrics (snd (run_upload test_env 1%nat df_five_rows 0%nat app_before)))
          = successes (db_metrics app_before) + 1))%Z
  /\ exists incs,
       db_incidents (snd (run_upload test_env 1%nat df_five_rows 0%nat app_before))
       = db_incidents app_before ++ incs
       /\ (List.length incs <= 2)%nat.
Proof.
  apply (run_upload_counts_one_attempt test_env 1%nat df_five_rows 0%nat app_before
           (fst (run_upload test_env 1%nat df_five_rows 0%nat app_before))).
  apply surjective_pairing.
Defined.

Lemma in_world_eq {A} (m : M A) s r w' :
  m (app_world s) = (r, w') ->
  in_world m s
  = (r, {| app_world := w'; db_metrics := db_metrics s; db_incidents := db_incidents s |}).
Proof. intros H. unfold in_world. now rewrite H. Qed.

Lemma load_ok c cfg w : heap w !! c = Some cfg -> load c w = (Ok cfg, w).
Proof. intros H. unfold load. now rewrite H. Qed.

Lemma validate_eq E df c cfg p w :
  heap w !! c = Some cfg -> validate E df c p w = run_validation E df cfg p w.
Proof. intros H. unfold validate. now rewrite (bind_ok _ _ _ _ _ (load_ok c cfg w H)). Qed.

Lemma run_validation_shape E df cfg p w :
  exists evs,
    run_validation E df cfg p w
    = (fst (run_validation E df cfg p w), World (heap w) (log w ++ evs))
    /\ validation_trace (fst (run_validation E df cfg p w)) evs.
Proof.
  destruct (run_validation_leaves_validation_trace E df cfg p w) as (r & evs & H & Htr).
  exists evs. rewrite H. split; [reflexivity | exact Htr].
Qed.

(** X18. When the first validation passes, [run_upload] diagnoses and heals
    nothing: it reports the pass, records one [run]/[success] incident,
    returns no healed configuration, and leaves the metrics and the store
    as they were; the log grows by the events of that one validation. *)
Theorem run_upload_passes_without_healing E user_id df c cfg s :
  heap (app_world s) !! c = Some cfg ->
  fst (run_validation E df cfg (get (k_pipeline_name cfg) "user_pipeline") (app_world s))
  = Ok tt ->
  exists evs,
    run_upload E user_id df c s
    = (Ok ([Lit "✅ Pipeline validation passed without healing."], None),
       {| app_world := World (heap (app_world s)) (log (app_world s) ++ evs);
          db_metrics := db_metrics s;
          db_incidents :=
            db_incidents s ++
            [ {| i_user_id := user_id; incident_type := "run"; status := "success";
                 i_message := [Lit "Pipeline validation passed without healing."] |} ] |})
    /\ validation_trace (Ok tt) evs.
Proof.
  intros Hc Hok.
  destruct (run_validation_shape E df cfg
              (get (k_pipeline_name cfg) "user_pipeline") (app_world s))
    as (evs & Hrun & Htr).
  rewrite Hok in Hrun, Htr.
  exists evs. split; [| exact Htr].
  unfold run_upload.
  rewrite (in_world_eq _ _ _ _ (load_ok c cfg _ Hc)).
  rewrite <- (validate_eq E df c cfg _ _ Hc) in Hrun.
  now rewrite (in_world_eq _ {| app_world := app_world s |} _ _ Hrun).
Qed.

Lemma run_upload_passes_without_healing_witness :
  exists evs,
    run_upload test_env 1%nat df_stale 0%nat app_freshness_only
    = (Ok ([Lit "✅ Pipeline validation passed without healing."], None),
       {| app_world := World (heap (app_world app_freshness_only))
                         (log (app_world app_freshness_only) ++ evs);
          db_metrics := db_metrics app_freshness_only;
          db_incidents :=
            db_incidents app_freshness_only ++
            [ {| i_user_id := 1%nat; incident_type := "run"; status := "success";
                 i_message := [Lit "Pipeline validation passed without healing."] |} ] |})
    /\ validation_trace (Ok tt) evs.
Proof.
  apply (run_upload_passes_without_healing test_env 1%nat df_stale 0%nat freshness_only
           app_freshness_only);
    reflexivity.
Defined.

Ltac step_app :=
  cbv beta iota zeta;
  cbn [app_world db_metrics db_incidents add_incident incr_attempts incr_successes].

Lemma run_upload_dq_branch E user_id df c cfg s e w1 d w2 w3 healed r w4 :
  heap (app_world s) !! c = Some cfg ->
  validate E df c (get (k_pipeline_name cfg) "user_pipeline") (app_world s)
  = (Raise (DataQualityErr e), w1) ->
  diagnose_dq_issue E e c w1 = (Ok d, w2) ->
  apply_dq_healing E c d w2 = (Ok c, w3) ->
  heap w3 !! c = Some healed ->
  validate E df c (get (k_pipeline_name cfg) "user_pipeline") w3 = (r, w4) ->
  run_upload E user_id df c s
  = (Ok (match r with
         | Ok _ =>
             [Lit "✅ Data quality rule healed. Validation passed with suggested YAML."]
         | Raise e2 =>
             [Lit "❌ Data quality still failing after auto-healing suggestion: ";
              ExnStr e2]
         end,
         Some healed),
     {| app_world := w4;
        db_metrics :=
          {| attempts := attempts (db_metrics s) + 1;
             successes := match r with
                          | Ok _ => successes (db_metrics s) + 1
                          | Raise _ => successes (db_metrics s)
                          end |};
        db_incidents :=
          db_incidents s ++
          [ {| i_user_id := user_id; incident_type := "data_quality"; status := "failed";
               i_message := [ExnStr (DataQualityErr e)] |};
            match r with
            | Ok _ =>
                {| i_user_id := user_id; incident_type := "post_healing_dq";
                   status := "success";
                   i_message := [Lit "DQ rule auto-tuned and validation passed."] |}
            | Raise e2 =>
                {| i_user_id := user_id; incident_type := "post_healing_dq";
                   status := "failed";
                   i_message := [Lit "Post-healing DQ failure: "; ExnStr e2] |}
            end ] |}).
Proof.
  intros Hc Hv1 Hd Ha Hh Hv2.
  unfold run_upload, in_world.
  rewrite (load_ok c cfg _ Hc). step_app.
  rewrite Hv1. step_app.
  rewrite Hd. step_app.
  rewrite Ha. step_app.
  rewrite (load_ok c healed _ Hh). step_app.
  rewrite Hv2. step_app.
  destruct r as [[] | e2]; unfold incr_successes, add_incident;
    cbn [app_world db_metrics db_incidents attempts successes];
    rewrite <- app_assoc; reflexivity.
Qed.

Lemma run_upload_schema_branch E user_id df c cfg s missing w1 d w2 w3 healed r w4 :
  heap (app_world s) !! c = Some cfg ->
  validate E df c (get (k_pipeline_name cfg) "user_pipeline") (app_world s)
  = (Raise (SchemaDriftError missing), w1) ->
  diagnose_schema_drift E missing c w1 = (Ok d, w2) ->
  apply_schema_healing E c d w2 = (Ok c, w3) ->
  heap w3 !! c = Some healed ->
  validate E df c (get (k_pipeline_name cfg) "user_pipeline") w3 = (r, w4) ->
  run_upload E user_id df c s
  = (Ok (match r with
         | Ok _ =>
             [Lit "✅ Schema drift healed. Validation passed with suggested YAML."]
         | Raise _ =>
             [Lit "❌ Even after healing suggestion, validation failed. Please inspect YAML & data."]
         end,
         Some healed),
     {| app_world := w4;
        db_metrics :=
          {| attempts := attempts (db_metrics s) + 1;
             successes := match r with
                          | Ok _ => successes (db_metrics s) + 1
                          | Raise _ => successes (db_metrics s)
                          end |};
        db_incidents :=
          db_incidents s ++
          [ {| i_user_id := user_id; incident_type := "schema_drift"; status := "failed";
               i_message := [ExnStr (SchemaDriftError missing)] |};
            match r with
            | Ok _ =>
                {| i_user_id := user_id; incident_type := "post_healing";
                   status := "success";
                   i_message :=
                     [Lit "Pipeline healed and validation passed on second run."] |}
            | Raise e2 =>
                {| i_user_id := user_id; incident_type := "post_healing";
                   status := "failed";
                   i_message := [Lit "Post-healing failure: "; ExnStr e2] |}
            end ] |}).
Proof.
  intros Hc Hv1 Hd Ha Hh Hv2.
  unfold run_upload, in_world.
  rewrite (load_ok c cfg _ Hc). step_app.
  rewrite Hv1. step_app.
  rewrite Hd. step_app.
  rewrite Ha. step_app.
  rewrite (load_ok c healed _ Hh). step_app.
  rewrite Hv2. step_app.
  destruct r as [[] | e2]; unfold incr_successes, add_incident;
    cbn [app_world db_metrics db_incidents attempts successes];
    rewrite <- app_assoc; reflexivity.
Qed.

Lemma passes_everywhere (c : M unit) w w' :
  check_outcome c -> result_ignores_world c ->
  c w = (Ok tt, w) -> c w' = (Ok tt, w').
Proof.
  intros Hc Hi Hw. specialize (Hi w w'). rewrite Hw in Hi. simpl in Hi.
  destruct (Hc w') as [H | [(e & ev & H & _) | [name H]]];
    [exact H | rewrite H in Hi; discriminate | rewrite H in Hi; discriminate].
Qed.

Lemma run_validation_passes E df config p w :
  let cfg := build_dq_config config in
  _check_row_count E df cfg p w = (Ok tt, w) ->
  _check_null_fraction E df cfg p w = (Ok tt, w) ->
  _check_schema E df cfg p w = (Ok tt, w) ->
  _check_uniqueness E df cfg p w = (Ok tt, w) ->
  _check_column_types E df cfg p w = (Ok tt, w) ->
  _check_allowed_values E df cfg p w = (Ok tt, w) ->
  exists evs, run_validation E df config p w = (Ok tt, World (heap w) (log w ++ evs)).
Proof.
  intros cfg H1 H2 H3 H4 H5 H6. unfold run_validation. fold cfg.
  erewrite bind_ok by exact H1. erewrite bind_ok by exact H2.
  erewrite bind_ok by exact H3. erewrite bind_ok by exact H4.
  erewrite bind_ok by exact H5. erewrite bind_ok by exact H6.
  destruct (_check_freshness_returns E df cfg p w) as (evs & H7 & _).
  erewrite bind_ok by exact H7.
  unfold log_causal_event. simpl. eexists. rewrite <- app_assoc. reflexivity.
Qed.

Lemma diagnose_untunable E err c cfg w :
  heap w !! c = Some cfg ->
  ~ tunable err ->
  exists d ev,
    diagnose_dq_issue E err c w = (Ok d, World (heap w) (log w ++ [ev]))
    /\ forall w', apply_dq_healing E c d w' = (Ok c, w').
Proof.
  intros Hc Hnot.
  unfold diagnose_dq_issue, mbind, M_bind, load. rewrite Hc.
  rewrite (not_tunable_condition err Hnot).
  eexists. eexists. split; [reflexivity |]. intros w'. reflexivity.
Qed.

(** X19. A data-quality failure that the diagnosis cannot tune (any kind
    but [null_fraction]) is attempted and fails again: [run_upload] counts
    one attempt and no success, records the failure and the post-healing
    failure, hands back the configuration unchanged as the healed one, and
    reports the same exception as still failing; the store is as it was. *)
Theorem run_upload_cannot_heal_untunable_failure E user_id df c cfg s e :
  heap (app_world s) !! c = Some cfg ->
  fst (run_validation E df cfg (get (k_pipeline_name cfg) "user_pipeline") (app_world s))
  = Raise (DataQualityErr e) ->
  ~ tunable e ->
  exists evs,
    run_upload E user_id df c s
    = (Ok ([Lit "❌ Data quality still failing after auto-healing suggestion: ";
            ExnStr (DataQualityErr e)],
           Some cfg),
       {| app_world := World (heap (app_world s)) (log (app_world s) ++ evs);
          db_metrics := {| attempts := attempts (db_metrics s) + 1;
                           successes := successes (db_metrics s) |};
          db_incidents :=
            db_incidents s ++
            [ {| i_user_id := user_id; incident_type := "data_quality";
                 status := "failed";
                 i_message := [ExnStr (DataQualityErr e)] |};
              {| i_user_id := user_id; incident_type := "post_healing_dq";
                 status := "failed";
                 i_message := [Lit "Post-healing DQ failure: ";
                               ExnStr (DataQualityErr e)] |} ] |}).
Proof.
  intros Hc Hfail Hnot.
  set (pn := get (k_pipeline_name cfg) "user_pipeline") in *.
  destruct (run_validation_shape E df cfg pn (app_world s)) as (evs1 & Hrun1 & _).
  rewrite Hfail in Hrun1.
  set (w1 := World (heap (app_world s)) (log (app_world s) ++ evs1)) in *.
  assert (Hc1 : heap w1 !! c = Some cfg) by exact Hc.
  destruct (diagnose_untunable E e c cfg w1 Hc1 Hnot) as (d & ev & Hdiag & Happly).
  set (w2 := World (heap w1) (log w1 ++ [ev])) in *.
  assert (Hc2 : heap w2 !! c = Some cfg) by exact Hc.
  destruct (run_validation_shape E df cfg pn w2) as (evs2 & Hrun2 & _).
  rewrite (run_validation_ignores_world E df cfg pn w2 (app_world s)), Hfail in Hrun2.
  rewrite <- (validate_eq E df c cfg pn _ Hc) in Hrun1.
  rewrite <- (validate_eq E df c cfg pn _ Hc2) in Hrun2.
  rewrite (run_upload_dq_branch E user_id df c cfg s e w1 d w2 w2 cfg _ _
             Hc Hrun1 Hdiag (Happly w2) Hc2 Hrun2).
  exists (evs1 ++ [ev] ++ evs2). unfold w2, w1. simpl.
  now rewrite <- !app_assoc.
Qed.

Lemma run_upload_cannot_heal_untunable_failure_witness :
  exists evs,
    run_upload test_env 1%nat df_four_rows 0%nat app_before
    = (Ok ([Lit "❌ Data quality still failing after auto-healing suggestion: ";
            ExnStr (DataQualityErr four_rows_error)],
           Some default_config),
       {| app_world := World (heap (app_world app_before))
                         (log (app_world app_before) ++ evs);
          db_metrics := {| attempts := attempts (db_metrics app_before) + 1;
                           successes := successes (db_metrics app_before) |};
          db_incidents :=
            db_incidents app_before ++
            [ {| i_user_id := 1%nat; incident_type := "data_quality";
                 status := "failed";
                 i_message := [ExnStr (DataQualityErr four_rows_error)] |};
              {| i_user_id := 1%nat; incident_type := "post_healing_dq";
                 status := "failed";
                 i_message := [Lit "Post-healing DQ failure: ";
                               ExnStr (DataQualityErr four_rows_error)] |} ] |}).
Proof.
  apply (run_upload_cannot_heal_untunable_failure test_env 1%nat df_four_rows 0%nat
           default_config app_before four_rows_error).
  - reflexivity.
  - reflexivity.
  - intros (Hkind & _). discriminate Hkind.
Defined.

(** ** Healing that works *)

Lemma missing_after_rename df from_col to_col cols :
  has_column df to_col = true ->
  List.filter (fun c => negb (has_column df c)) (rename from_col to_col cols)
  = List.filter (fun c => negb (String.eqb c from_col))
      (List.filter (fun c => negb (has_column df c)) cols).
Proof.
  intros Hto. unfold rename.
  induction cols as [| c rest IH]; simpl; [reflexivity |].
  destruct (String.eqb_spec c from_col) as [-> | Hne].
  - rewrite Hto. simpl. rewrite IH.
    destruct (has_column df from_col); simpl; [reflexivity |].
    now rewrite String.eqb_refl.
  - rewrite IH. destruct (has_column df c); simpl; [reflexivity |].
    apply String.eqb_neq in Hne. now rewrite Hne.
Qed.

Lemma filter_out_all (f : string -> bool) l :
  (forall x, In x l -> f x = false) -> List.filter f l = [].
Proof.
  induction l as [| x rest IH]; intros H; simpl; [reflexivity |].
  rewrite (H x (or_introl eq_refl)). apply IH. intros y Hy. apply H. now right.
Qed.

Lemma diagnose_rename E missing c cfg w :
  heap w !! c = Some cfg ->
  In "date_of_sale" missing ->
  exists d a ev,
    diagnose_schema_drift E missing c w = (Ok d, World (heap w) (log w ++ [ev]))
    /\ get (d_suggested_actions d) [] = [a]
    /\ a_type a = Some "schema_update"
    /\ a_from a = Some "date_of_sale"
    /\ a_to a = Some "txn_date".
Proof.
  intros Hc Hin. apply existsb_eqb_In in Hin.
  unfold diagnose_schema_drift, mbind, M_bind, load. rewrite Hc, Hin.
  eexists. eexists. eexists. split; [reflexivity |]. repeat split.
Qed.

(** X20. The rename heals the drift it was written for.  When the first
    validation fails because [date_of_sale], and nothing else, is missing,
    and the data set has a [txn_date] column and satisfies the uniqueness,
    type and allowed-values rules, [run_upload] renames the required column
    in the caller's configuration, the second validation passes, and the
    pass counts as one attempt and one success. *)
Theorem run_upload_heals_renamed_date_column E user_id df c cfg s missing :
  let pn := get (k_pipeline_name cfg) "user_pipeline" in
  let healed :=
    set_required_columns cfg
      (rename "date_of_sale" "txn_date"
         (get (k_required_columns (get (k_schema cfg) empty_schema)) [])) in
  heap (app_world s) !! c = Some cfg ->
  fst (run_validation E df cfg pn (app_world s)) = Raise (SchemaDriftError missing) ->
  (forall m, In m missing -> m = "date_of_sale") ->
  has_column df "txn_date" = true ->
  (forall w, _check_uniqueness E df (build_dq_config cfg) pn w = (Ok tt, w)) ->
  (forall w, _check_column_types E df (build_dq_config cfg) pn w = (Ok tt, w)) ->
  (forall w, _check_allowed_values E df (build_dq_config cfg) pn w = (Ok tt, w)) ->
  exists evs,
    run_upload E user_id df c s
    = (Ok ([Lit "✅ Schema drift healed. Validation passed with suggested YAML."],
           Some healed),
       {| app_world := World (<[c := healed]> (heap (app_world s)))
                         (log (app_world s) ++ evs);
          db_metrics := {| attempts := attempts (db_metrics s) + 1;
                           successes := successes (db_metrics s) + 1 |};
          db_incidents :=
            db_incidents s ++
            [ {| i_user_id := user_id; incident_type := "schema_drift";
                 status := "failed";
                 i_message := [ExnStr (SchemaDriftError missing)] |};
              {| i_user_id := user_id; incident_type := "post_healing";
                 status := "success";
                 i_message :=
                   [Lit "Pipeline healed and validation passed on second run."] |} ] |}).
Proof.
  intros pn healed Hc Hfail Honly Htxn Huniq Htypes Hallowed.
  destruct (run_validation_shape E df cfg pn (app_world s)) as (evs1 & Hrun1 & _).
  rewrite Hfail in Hrun1.
  set (w1 := World (heap (app_world s)) (log (app_world s) ++ evs1)) in *.
  destruct (run_validation_raise_inv E df cfg pn _ _ _ Hrun1) as [Hinv _].
  destruct (Hinv missing eq_refl) as (Hmiss & Hne & Hrow & Hnull).
  assert (Hin : In "date_of_sale" missing).
  { destruct missing as [| m rest]; [congruence |].
    rewrite <- (Honly m (or_introl eq_refl)). now left. }
  assert (Hc1 : heap w1 !! c = Some cfg) by exact Hc.
  destruct (diagnose_rename E missing c cfg w1 Hc1 Hin)
    as (d & a & ev & Hdiag & Hact & Htype & Hfrom & Hto).
  set (w2 := World (heap w1) (log w1 ++ [ev])) in *.
  assert (Hc2 : heap w2 !! c = Some cfg) by exact Hc.
  pose proof (apply_schema_healing_rename E c cfg d w2 a [] _ _
                Hc2 Hact Htype Hfrom Hto) as Hheal.
  cbv zeta in Hheal. fold healed in Hheal.
  match type of Hheal with _ = (_, ?w) => set (w3 := w) in * end.
  assert (Hc3 : heap w3 !! c = Some healed) by apply lookup_insert_eq.
  assert (Hschema : _check_schema E df (build_dq_config healed) pn w3 = (Ok tt, w3)).
  { unfold _check_schema.
    change (required_columns (build_dq_config healed))
      with (rename "date_of_sale" "txn_date" (required_columns (build_dq_config cfg))).
    rewrite (missing_after_rename df _ _ _ Htxn).
    fold (missing_required df (build_dq_config cfg)). rewrite <- Hmiss.
    rewrite filter_out_all; [reflexivity |].
    intros m Hm. rewrite (Honly m Hm). reflexivity. }
  destruct (run_validation_passes E df healed pn w3) as (evs2 & Hrun2).
  { apply (passes_everywhere _ (app_world s) w3
             (_check_row_count_outcome E df (build_dq_config cfg) pn)
             (ignores_row_count E df (build_dq_config cfg) pn) Hrow). }
  { apply (passes_everywhere _ (app_world s) w3
             (_check_null_fraction_outcome E df (build_dq_config cfg) pn)
             (ignores_null_fraction E df (build_dq_config cfg) pn) Hnull). }
  { exact Hschema. }
  { exact (Huniq w3). }
  { exact (Htypes w3). }
  { exact (Hallowed w3). }
  rewrite <- (validate_eq E df c cfg pn _ Hc) in Hrun1.
  rewrite <- (validate_eq E df c healed pn _ Hc3) in Hrun2.
  rewrite (run_upload_schema_branch E user_id df c cfg s missing w1 d w2 w3 healed _ _
             Hc Hrun1 Hdiag Hheal Hc3 Hrun2).
  eexists. unfold w3, w2, w1. simpl. rewrite <- !app_assoc. reflexivity.
Qed.

Lemma run_upload_heals_renamed_date_column_witness :
  exists evs,
    run_upload test_env 1%nat df_renamed 0%nat app_before
    = (Ok ([Lit "✅ Schema drift healed. Validation passed with suggested YAML."],
           Some (set_required_columns default_config
                   (rename "date_of_sale" "txn_date"
                      (get (k_required_columns
                              (get (k_schema default_config) empty_schema)) [])))),
       {| app_world :=
            World (<[0%nat := set_required_columns default_config
                                (rename "date_of_sale" "txn_date"
                                   (get (k_required_columns
                                           (get (k_schema default_config)
                                              empty_schema)) []))]>
                     (heap (app_world app_before)))
              (log (app_world app_before) ++ evs);
          db_metrics := {| attempts := attempts (db_metrics app_before) + 1;
                           successes := successes (db_metrics app_before) + 1 |};
          db_incidents :=
            db_incidents app_before ++
            [ {| i_user_id := 1%nat; incident_type := "schema_drift";
                 status := "failed";
                 i_message := [ExnStr (SchemaDriftError ["date_of_sale"])] |};
              {| i_user_id := 1%nat; incident_type := "post_healing";
                 status := "success";
                 i_message :=
                   [Lit "Pipeline healed and validation passed on second run."] |} ] |}).
Proof.
  apply (run_upload_heals_renamed_date_column test_env 1%nat df_renamed 0%nat
           default_config app_before ["date_of_sale"]).
  - reflexivity.
  - reflexivity.
  - intros m [<- | []]. reflexivity.
  - reflexivity.
  - intros w. reflexivity.
  - intros w. reflexivity.
  - intros w. reflexivity.
Defined.

Lemma null_fraction_raise_inv E df cfg p w e w' :
  _check_null_fraction E df cfg p w = (Raise (DataQualityErr e), w') ->
  has_column df "sales_amount" = true
  /\ (max_null_fraction cfg <? mean (map isna (getitem df "sales_amount")))%float = true
  /\ kind e = Some "null_fraction"
  /\ column e = Some "sales_amount"
  /\ observed e = Some (NFloat (mean (map isna (getitem df "sales_amount"))))
  /\ threshold e = Some (NFloat (max_null_fraction cfg)).
Proof.
  unfold _check_null_fraction.
  destruct (has_column df "sales_amount"); [| discriminate].
  destruct (PrimFloat.ltb _ _); [| discriminate].
  intros H. apply log_then_raise_inv in H. destruct H as [H | H]; [| discriminate].
  inversion H; subst. repeat split.
Qed.

(** X21. Tuning heals the null-fraction failure it was written for.  When
    the first validation fails with kind [null_fraction] and the data set
    satisfies the schema, uniqueness, type and allowed-values rules,
    [run_upload] raises [max_null_fraction] in the caller's configuration
    to the double [min(max(observed + 0.05, threshold), 1.0)], where
    [observed] is the fraction of missing [sales_amount] cells, the second
    validation of the same data passes, and the pass counts as one attempt
    and one success. *)
Theorem run_upload_heals_null_fraction E user_id df c cfg s e :
  let pn := get (k_pipeline_name cfg) "user_pipeline" in
  let null_frac := mean (map isna (getitem df "sales_amount")) in
  let new_thr := raised_threshold null_frac (max_null_fraction (build_dq_config cfg)) in
  heap (app_world s) !! c = Some cfg ->
  fst (run_validation E df cfg pn (app_world s)) = Raise (DataQualityErr e) ->
  kind e = Some "null_fraction" ->
  (forall w, _check_schema E df (build_dq_config cfg) pn w = (Ok tt, w)) ->
  (forall w, _check_uniqueness E df (build_dq_config cfg) pn w = (Ok tt, w)) ->
  (forall w, _check_column_types E df (build_dq_config cfg) pn w = (Ok tt, w)) ->
  (forall w, _check_allowed_values E df (build_dq_config cfg) pn w = (Ok tt, w)) ->
  exists evs,
    observed e = Some (NFloat null_frac)
    /\ run_upload E user_id df c s
       = (Ok ([Lit "✅ Data quality rule healed. Validation passed with suggested YAML."],
              Some (set_max_null_fraction cfg new_thr)),
          {| app_world := World (<[c := set_max_null_fraction cfg new_thr]>
                                   (heap (app_world s)))
                            (log (app_world s) ++ evs);
             db_metrics := {| attempts := attempts (db_metrics s) + 1;
                              successes := successes (db_metrics s) + 1 |};
             db_incidents :=
               db_incidents s ++
               [ {| i_user_id := user_id; incident_type := "data_quality";
                    status := "failed";
                    i_message := [ExnStr (DataQualityErr e)] |};
                 {| i_user_id := user_id; incident_type := "post_healing_dq";
                    status := "success";
                    i_message := [Lit "DQ rule auto-tuned and validation passed."] |} ] |}).
Proof.
  intros pn null_frac new_thr Hc Hfail Hkind Hschema Huniq Htypes Hallowed.
  destruct (run_validation_shape E df cfg pn (app_world s)) as (evs1 & Hrun1 & _).
  rewrite Hfail in Hrun1.
  set (w1 := World (heap (app_world s)) (log (app_world s) ++ evs1)) in *.
  destruct (run_validation_raise_inv E df cfg pn _ _ _ Hrun1) as [_ Hinv].
  destruct (Hinv e eq_refl)
    as [[Hk _] | [(_ & Hrow & Hnull) | [[Hk _] | [[Hk _] | [Hk _]]]]];
    try (rewrite Hkind in Hk; discriminate Hk).
  destruct (null_fraction_raise_inv _ _ _ _ _ _ _ Hnull)
    as (Hcol & Hlt & _ & Hecol & Hobs & Hthr).
  fold null_frac in Hlt, Hobs.
  destruct (mean_in_unit_interval _ (ltb_refl_r _ _ Hlt)) as [Hnf0 Hnf1].
  fold null_frac in Hnf0, Hnf1.
  assert (Ht1 : (max_null_fraction (build_dq_config cfg) <=? 1)%float = true)
    by exact (leb_trans _ _ _ (ltb_leb _ _ Hlt) Hnf1).
  destruct (raised_threshold_bounds null_frac _ Hnf0 Hnf1 Ht1) as [_ Hge].
  fold new_thr in Hge.
  assert (Hc1 : heap w1 !! c = Some cfg) by exact Hc.
  pose proof (diagnose_dq_issue_tunable E e c cfg w1 "sales_amount" (NFloat null_frac)
                Hc1 Hkind Hecol ltac:(discriminate) Hobs) as Hdiag.
  cbn [float_of_num] in Hdiag. cbv zeta in Hdiag.
  rewrite Hthr, (new_threshold_is_raised_threshold null_frac _ Hnf0) in Hdiag.
  fold new_thr in Hdiag. cbn [float_of_num] in Hdiag.
  destruct Hdiag as (d & a & Hdiag & Hact & Htype & _ & Hnew).
  match type of Hdiag with _ = (_, ?w) => set (w2 := w) in * end.
  assert (Hc2 : heap w2 !! c = Some cfg) by exact Hc.
  assert (Hact' : get (d_suggested_actions d) [] = [a]) by now rewrite Hact.
  pose proof (apply_dq_healing_update E c cfg d w2 a [] _ new_thr
                Hc2 Hact' Htype Hnew eq_refl) as Hheal.
  match type of Hheal with _ = (_, ?w) => set (w3 := w) in * end.
  set (healed := set_max_null_fraction cfg new_thr) in *.
  assert (Hc3 : heap w3 !! c = Some healed) by apply lookup_insert_eq.
  assert (Hnull' : _check_null_fraction E df (build_dq_config healed) pn w3 = (Ok tt, w3)).
  { unfold _check_null_fraction. rewrite Hcol. fold null_frac.
    change (max_null_fraction (build_dq_config healed)) with new_thr.
    now rewrite (leb_ltb_false _ _ Hge). }
  destruct (run_validation_passes E df healed pn w3) as (evs2 & Hrun2).
  { apply (passes_everywhere _ (app_world s) w3
             (_check_row_count_outcome E df (build_dq_config cfg) pn)
             (ignores_row_count E df (build_dq_config cfg) pn) Hrow). }
  { exact Hnull'. }
  { exact (Hschema w3). }
  { exact (Huniq w3). }
  { exact (Htypes w3). }
  { exact (Hallowed w3). }
  rewrite <- (validate_eq E df c cfg pn _ Hc) in Hrun1.
  rewrite <- (validate_eq E df c healed pn _ Hc3) in Hrun2.
  eexists. split; [exact Hobs |].
  rewrite (run_upload_dq_branch E user_id df c cfg s e w1 d w2 w3 healed _ _
             Hc Hrun1 Hdiag Hheal Hc3 Hrun2).
  unfold w3, w2, w1. simpl. rewrite <- !app_assoc. reflexivity.
Qed.

Lemma run_upload_heals_null_fraction_witness :
  exists evs,
    observed ten_percent_error = Some (NFloat 0.1)
    /\ run_upload test_env 1%nat df_ten_percent_null 0%nat app_before
       = (Ok ([Lit "✅ Data quality rule healed. Validation passed with suggested YAML."],
              Some (set_max_null_fraction default_config 0.15000000000000002%float)),
          {| app_world :=
               World (<[0%nat := set_max_null_fraction default_config
                                   0.15000000000000002%float]>
                        (heap (app_world app_before)))
                 (log (app_world app_before) ++ evs);
             db_metrics := {| attempts := attempts (db_metrics app_before) + 1;
                              successes := successes (db_metrics app_before) + 1 |};
             db_incidents :=
               db_incidents app_before ++
               [ {| i_user_id := 1%nat; incident_type := "data_quality";
                    status := "failed";
                    i_message := [ExnStr (DataQualityErr ten_percent_error)] |};
                 {| i_user_id := 1%nat; incident_type := "post_healing_dq";
                    status := "success";
                    i_message := [Lit "DQ rule auto-tuned and validation passed."] |} ] |}).
Proof.
  exact (run_upload_heals_null_fraction test_env 1%nat df_ten_percent_null 0%nat
           default_config app_before ten_percent_error
           eq_refl eq_refl eq_refl
           (fun w => eq_refl) (fun w => eq_refl) (fun w => eq_refl) (fun w => eq_refl)).
Defined.
